(** * Track-fittings tracker: the service layer, embedded and verified

    A shallow embedding of the JavaScript service modules of the
    track-fittings inspection app (TrackingService, InspectionService,
    QRService, DashboardService, AIService) and the properties of their
    offline capture, caching and synchronisation logic.

    Modelling conventions.
    - An [async] method is a computation in the monad [M]: it threads the
      [World] (AsyncStorage, console, issued HTTP requests, the singleton
      services' fields) and either returns or throws.  [await] is
      sequencing; one call runs to completion before the next starts.
    - Everything the JavaScript runtime decides is read from an [Env]:
      the clock, [Math.random], whether an AsyncStorage operation rejects,
      what an HTTP request answers.  Each is indexed by how many times it
      has been consulted, so an [Env] fixes one arbitrary behaviour of the
      outside world and theorems quantify over all of them.
    - AsyncStorage holds JSON text; the model keeps the value that was
      serialised ([stored]) and takes [JSON.parse (JSON.stringify v)] to
      be [v], as it is for JSON values: data that holds [Date] objects is
      represented by what it is serialised to.  Values being typed here,
      a value used at another shape than it was written at (as an array
      of ids when it is an entry, say) is a [TypeError] at the point of
      use.  JavaScript raises one where the use is a method call or an
      iteration; where it is not (a parsed value pushed on the array of
      listed entries) a theorem that states the listing assumes the
      shape ([entry_records]).
    - A timestamp is the number of milliseconds [new Date(ts)] denotes.
    - A string is the sequence of its UTF-8 bytes.  Lengths and
      positions are those of JavaScript on ASCII text, which is what QR
      codes and dates are taken to be where a theorem depends on it.
    - A number is the rational a double denotes.  Comparisons are exact;
      where the code's result depends on the rounding of a product
      ([Math.floor(Math.random() * 1000)]) the product is rounded as a
      double is ([to_double]). *)

From Stdlib Require Import ZArith QArith Qround String Ascii List Lia Sorted.
From stdpp Require Import base option list gmap strings pretty.
Import ListNotations.

Local Open Scope string_scope.
Local Open Scope list_scope.
Local Open Scope Z_scope.

(** ** JavaScript values *)

#[local] Set Warnings "-register-all".

Inductive jsval :=
| JNull
| JBool (b : bool)
| JNum (q : Q)
| JStr (s : string)
| JArr (items : list jsval)
| JObj (props : list (string * jsval)).

(** Truthiness, as tested by [if (v)], [!v] and [v || d]. *)
Definition js_truthy (v : jsval) : bool :=
  match v with
  | JNull => false
  | JBool b => b
  | JNum q => negb (Qeq_bool q 0)
  | JStr s => negb (String.eqb s "")
  | JArr _ => true
  | JObj _ => true
  end.

(** [s || d] on a possibly undefined string: the empty string is falsy. *)
Definition str_or (o : option string) (d : string) : string :=
  match o with
  | Some s => if String.eqb s "" then d else s
  | None => d
  end.

(** [s || null]. *)
Definition str_or_null (o : option string) : option string :=
  match o with
  | Some s => if String.eqb s "" then None else Some s
  | None => None
  end.

(** The own enumerable properties an object spread [...v] copies. *)
Definition index_props {A} (f : A -> jsval) (l : list A) : list (string * jsval) :=
  imap (fun i x => (pretty i, f x)) l.

Definition own_props (v : jsval) : list (string * jsval) :=
  match v with
  | JObj props => props
  | JArr items => index_props (fun x => x) items
  | JStr s => index_props (fun c => JStr (String c EmptyString)) (list_ascii_of_string s)
  | _ => []
  end.

(** An object literal: later properties overwrite earlier ones. *)
Definition obj_of_props (props : list (string * jsval)) : gmap string jsval :=
  foldl (fun o kv => <[kv.1 := kv.2]> o) ∅ props.

(** ** Doubles *)

(** The double that the literal [0.9] denotes. *)
Definition double_0_9 : Q := 8106479329266893 # 9007199254740992.

(** Round to the nearest integer, ties to the even one. *)
Definition round_half_even (q : Q) : Z :=
  let f := Qfloor q in
  match Qcompare (q - inject_Z f)%Q (1 # 2) with
  | Lt => f
  | Gt => f + 1
  | Eq => if Z.even f then f else f + 1
  end.

(** [floor (log2 q)] of a positive rational. *)
Definition binade (q : Q) : Z :=
  let e := Z.log2 (Qnum q) - Z.log2 (Zpos (Qden q)) in
  if Qle_bool (Qpower 2 e) q then e else e - 1.

(** The double nearest to a rational, ties to even: 53 significant bits
    (the exponent range of doubles is left out, no product here comes near
    its ends). *)
Definition to_double (q : Q) : Q :=
  if Qeq_bool q 0 then 0%Q
  else
    let a := if Qle_bool 0 q then q else (- q)%Q in
    let e := binade a in
    let m := (inject_Z (round_half_even (a * Qpower 2 (52 - e))) * Qpower 2 (e - 52))%Q in
    if Qle_bool 0 q then m else (- m)%Q.

(** [Math.floor(r * 1000)] *)
Definition floor_times_1000 (r : Q) : Z := Qfloor (to_double (r * 1000)).

(** ** Exceptions and the console *)

Inductive exn_kind :=
| NetworkError            (* timeout, connection refused *)
| HttpError (status : Z)  (* axios rejects on a non-2xx status *)
| StorageError            (* an AsyncStorage promise rejected *)
| TypeError
| PlainError.             (* [new Error(msg)] *)

Record exn := mkExn { kind : exn_kind; message : string }.

Inductive console_level := LLog | LWarn | LError.

Record console_line := mkLine {
  line_level : console_level;
  line_label : string;
  line_subject : option string;
  line_error : option exn }.

(** ** Tracking entries (TrackingService) *)

Record DeviceInfo := mkDeviceInfo {
  platform : string;
  device_timestamp : Z;
  userAgent : string }.

Record NetworkStatus := mkNetworkStatus {
  online : bool;
  connectionType : string }.

Inductive EntryDetails :=
| ScanDetails (scanId : string) (location : option string) (scanType : string)
    (deviceInfo : DeviceInfo) (networkStatus : NetworkStatus)
| InspectionDetails (inspectionId : string) (location : option string)
    (condition notes : option string) (inspectionType : string) (duration : Z) (photos : nat)
| MovementDetails (fromLocation toLocation : option string) (reason : string)
    (transportMethod : string) (approvalId : option string) (estimatedDuration : Z).

Record TrackingEntry := mkEntry {
  entry_id : string;
  fittingId : string;
  timestamp : Z;
  userId : string;
  status : string;
  details : EntryDetails }.

Record ScanData := mkScanData {
  scan_id : string;
  scan_fittingId : string;
  scan_location : option string;
  scan_userId : string;
  scan_type : option string }.

(** ** Inspections (InspectionService) *)

(** The inspection form handed to [submitInspection].  Measurements are
    the text of the form's input boxes; [visualCheck] is the object of
    defect flags, as its entries in insertion order. *)
Record DimensionalCheck := mkDimensionalCheck {
  dim_length : string;
  dim_width : string;
  dim_height : string;
  tolerance : string }.

Record MaterialCheck := mkMaterialCheck {
  hardness : string;
  tensileStrength : string;
  chemicalComposition : string }.

Record FunctionalCheck := mkFunctionalCheck {
  fitment : string;
  performance : string }.

Record InspectionData := mkInspectionData {
  qrCode : string;
  inspectorName : string;
  inspectionType : string;
  location : option string;
  visualCheck : list (string * bool);
  dimensionalCheck : DimensionalCheck;
  materialCheck : MaterialCheck;
  functionalCheck : FunctionalCheck;
  overallGrade : string;
  remarks : string;
  recommendations : list string;
  photos : list string }.

Record VisualInspection := mkVisualInspection {
  cracks : bool;
  corrosion : bool;
  deformation : bool;
  surfaceDamage : bool;
  overallCondition : string }.

Record DimensionalMeasurements := mkDimensionalMeasurements {
  m_length : option Q;
  m_width : option Q;
  m_height : option Q;
  toleranceStatus : string;
  accuracy : string }.

Record MaterialProperties := mkMaterialProperties {
  m_hardness : option Q;
  m_tensileStrength : string;
  m_chemicalComposition : string;
  materialGrade : string }.

Record FunctionalAssessment := mkFunctionalAssessment {
  a_fitment : string;
  a_performance : string;
  operationalStatus : string }.

Record OverallAssessment := mkOverallAssessment {
  grade : string;
  passStatus : bool;
  riskLevel : string;
  nextInspectionDate : string }.

(** What [prepareInspectionPayload] builds, what is posted to both portals
    and what is kept under [localInspections].  [synced] is the property
    [syncPendingInspections] sets; absent reads as [false]. *)
Record InspectionPayload := mkPayload {
  inspectionId : string;
  p_qrCode : string;
  p_inspectorName : string;
  p_inspectionType : string;
  p_timestamp : Z;
  p_location : string;
  visualInspection : VisualInspection;
  dimensionalMeasurements : DimensionalMeasurements;
  materialProperties : MaterialProperties;
  functionalAssessment : FunctionalAssessment;
  overallAssessment : OverallAssessment;
  p_remarks : string;
  p_recommendations : list string;
  p_photos : list string;
  inspectorSignature : string;
  qualityScore : Z;
  synced : bool }.

Record ReportSummary := mkSummary {
  summary_result : string;
  summary_grade : string;
  summary_riskLevel : string;
  summary_qualityScore : Z;
  keyFindings : list string }.

Record NextAction := mkAction {
  action : string;
  priority : string;
  timeline : string;
  responsible : string }.

Record Compliance := mkCompliance {
  overall : string;
  compliant_visualInspection : bool;
  compliant_dimensionalCheck : bool;
  compliant_materialTest : bool;
  compliant_documentation : bool }.

Record InspectionReport := mkReport {
  reportId : string;
  generatedAt : Z;
  r_qrCode : string;
  inspector : string;
  r_type : string;
  summary : ReportSummary;
  r_recommendations : list string;
  nextActions : list NextAction;
  complianceStatus : Compliance }.

(** ** The outside world *)

(** An HTTP request issued through axios. *)
Record request := mkRequest {
  method : string;
  url : string;
  body : option InspectionPayload }.

(** What AsyncStorage holds under a key: the value that was serialised
    there, or text that is not JSON (the auth token). *)
Inductive stored :=
| SText (s : string)
| SEntry (e : TrackingEntry)
| SIds (ids : list string)
| SInspections (l : list InspectionPayload)
| SReports (l : list InspectionReport)
| SCache (data : jsval) (cachedAt : Z).

Record Env := mkEnv {
  date_now : nat -> Z;                          (* k-th reading of the clock, in ms *)
  math_random : nat -> Q;                       (* k-th [Math.random()] *)
  storage_fault : nat -> option exn;            (* the k-th AsyncStorage call rejects *)
  axios_reply : nat -> request -> exn + jsval;  (* answer to the k-th request: [response.data] or a rejection *)
  navigator : option (string * bool);           (* [userAgent], [onLine]; undefined outside a browser *)
  number_toString36 : Q -> string;              (* [Number.prototype.toString(36)] *)
  isNaN : string -> bool;
  parseFloat : string -> option Q;              (* [None] is NaN *)
  btoa : string -> exn + string;
  date_parse : string -> option Z;              (* [new Date(s)], [None] is an invalid date *)
  iso_date_plus_months : Z -> Z -> string }.    (* [setMonth(getMonth() + n)], then the date part of [toISOString()] *)

Record World := mkWorld {
  clock_reads : nat;
  random_draws : nat;
  storage_ops : nat;
  net_calls : nat;
  storage : gmap string stored;
  console : list console_line;
  requests : list request;
  trackingCache : gmap string TrackingEntry;   (* TrackingService.trackingCache *)
  syncQueue : list TrackingEntry }.            (* TrackingService.syncQueue *)

Definition with_storage (f : gmap string stored -> gmap string stored) (w : World) : World :=
  mkWorld (clock_reads w) (random_draws w) (S (storage_ops w)) (net_calls w)
    (f (storage w)) (console w) (requests w) (trackingCache w) (syncQueue w).

Definition with_console (l : console_line) (w : World) : World :=
  mkWorld (clock_reads w) (random_draws w) (storage_ops w) (net_calls w)
    (storage w) (console w ++ [l]) (requests w) (trackingCache w) (syncQueue w).

Definition with_request (r : request) (w : World) : World :=
  mkWorld (clock_reads w) (random_draws w) (storage_ops w) (S (net_calls w))
    (storage w) (console w) (requests w ++ [r]) (trackingCache w) (syncQueue w).

Definition with_trackingCache (f : gmap string TrackingEntry -> gmap string TrackingEntry)
    (w : World) : World :=
  mkWorld (clock_reads w) (random_draws w) (storage_ops w) (net_calls w)
    (storage w) (console w) (requests w) (f (trackingCache w)) (syncQueue w).

Definition with_syncQueue (q : list TrackingEntry) (w : World) : World :=
  mkWorld (clock_reads w) (random_draws w) (storage_ops w) (net_calls w)
    (storage w) (console w) (requests w) (trackingCache w) q.

Definition tick_clock (w : World) : World :=
  mkWorld (S (clock_reads w)) (random_draws w) (storage_ops w) (net_calls w)
    (storage w) (console w) (requests w) (trackingCache w) (syncQueue w).

Definition tick_random (w : World) : World :=
  mkWorld (clock_reads w) (S (random_draws w)) (storage_ops w) (net_calls w)
    (storage w) (console w) (requests w) (trackingCache w) (syncQueue w).

(** ** The monad of asynchronous methods *)

Inductive outcome (A : Type) :=
| Ok (a : A)
| Throw (e : exn).
Arguments Ok {A} a.
Arguments Throw {A} e.

Definition M (A : Type) : Type := World -> outcome A * World.

Definition ret {A} (a : A) : M A := fun w => (Ok a, w).

Definition throw {A} (e : exn) : M A := fun w => (Throw e, w).

Definition bind {A B} (c : M A) (k : A -> M B) : M B :=
  fun w => match c w with
           | (Ok a, w') => k a w'
           | (Throw e, w') => (Throw e, w')
           end.

(** [try { c } catch (error) { h error }] *)
Definition try_catch {A} (c : M A) (h : exn -> M A) : M A :=
  fun w => match c w with
           | (Ok a, w') => (Ok a, w')
           | (Throw e, w') => h e w'
           end.

Declare Scope js_scope.
Delimit Scope js_scope with js.
Notation "x <- c ;; k" := (bind c (fun x => k))
  (at level 100, c at next level, right associativity) : js_scope.
Notation "c ;; k" := (bind c (fun _ => k))
  (at level 100, right associativity) : js_scope.
Local Open Scope js_scope.

(** [for (const x of l) { body x }] with a loop-carried accumulator. *)
Fixpoint for_of {A S} (l : list A) (body : S -> A -> M S) (acc : S) : M S :=
  match l with
  | [] => ret acc
  | x :: rest => acc' <- body acc x ;; for_of rest body acc'
  end.

(** [Array.prototype.sort(cmp)].  The sort is stable; for a comparator
    that is a consistent ordering its result is the one stable sorted
    arrangement, computed here by insertion.  [cmp a b <= 0] keeps [a]
    before [b]. *)
Fixpoint sort_insert {A} (cmp : A -> A -> Z) (x : A) (l : list A) : list A :=
  match l with
  | [] => [x]
  | y :: rest => if cmp x y <=? 0 then x :: y :: rest else y :: sort_insert cmp x rest
  end.

Definition js_sort {A} (cmp : A -> A -> Z) (l : list A) : list A :=
  foldr (sort_insert cmp) [] l.

(** [l.slice(0, n)]: a negative [n] counts from the end. *)
Definition slice0 {A} (n : Z) (l : list A) : list A :=
  if n <? 0 then take (Z.to_nat (Z.of_nat (length l) + n)) l else take (Z.to_nat n) l.

(** [l.splice(0, length - n)] when [length > n]: keep the last [n]. *)
Definition keep_last {A} (n : nat) (l : list A) : list A :=
  if (n <? length l)%nat then drop (length l - n) l else l.

(** ** Further data of the services *)

(** What [trackInspection] and [trackMovement] are handed. *)
Record InspectionCapture := mkInspectionCapture {
  capture_id : string;
  capture_fittingId : string;
  capture_location : option string;
  capture_inspector : string;
  capture_condition : option string;
  capture_notes : option string;
  capture_type : option string;
  capture_duration : option Z;
  capture_photos : option (list string) }.

Record MovementData := mkMovementData {
  move_fittingId : string;
  move_from : option string;
  move_to : option string;
  move_userId : string;
  move_reason : option string;
  move_transportMethod : option string;
  move_approvalId : option string;
  move_estimatedDuration : option Z }.

(** The calendar arithmetic of [Date] on an instant in milliseconds. *)
Record Calendar := mkCalendar {
  getDate : Z -> Z;
  setDate : Z -> Z -> Z;
  getMonth : Z -> Z;
  setMonth : Z -> Z -> Z }.

Record ActivityStats := mkStats {
  totalActivities : Z;
  scans : Z;
  inspections : Z;
  movements : Z;
  timeframe : string;
  period : option (Z * Z) }.

Inductive ImportResult :=
| Imported (imported total : Z)   (* success: true *)
| ImportFailed (error : string).  (* success: false *)

(** AIService: a risk factor and the risk matrix. *)
Record RiskFactor := mkRiskFactor {
  factor : string;
  severity : string;
  description : string;
  impact : string }.

Record RiskMatrix := mkRiskMatrix {
  highRisk : Z;
  mediumRisk : Z;
  lowRisk : Z;
  totalRiskScore : option Z }.   (* [None] is NaN *)

(** DashboardService: an alert and the health summary. *)
Record Alert := mkAlert {
  alert_severity : string;
  alert_status : string }.

Record SystemHealth := mkSystemHealth {
  health_score : Z;
  health_status : string;
  health_recommendations : list string }.

Section Services.

Variable env : Env.

(** *** Runtime primitives *)

Definition Date_now : M Z :=
  fun w => (Ok (date_now env (clock_reads w)), tick_clock w).

Definition Math_random : M Q :=
  fun w => (Ok (math_random env (random_draws w)), tick_random w).

Definition storage_call {A} (read : gmap string stored -> A)
    (write : gmap string stored -> gmap string stored) : M A :=
  fun w => match storage_fault env (storage_ops w) with
           | Some e => (Throw e, with_storage (fun s => s) w)
           | None => (Ok (read (storage w)), with_storage write w)
           end.

Definition AsyncStorage_getItem (key : string) : M (option stored) :=
  storage_call (fun s => s !! key) (fun s => s).

Definition AsyncStorage_setItem (key : string) (v : stored) : M unit :=
  storage_call (fun _ => tt) (fun s => <[key := v]> s).

Definition AsyncStorage_removeItem (key : string) : M unit :=
  storage_call (fun _ => tt) (fun s => delete key s).

Definition console_log (label : string) (subject : option string) : M unit :=
  fun w => (Ok tt, with_console (mkLine LLog label subject None) w).

Definition console_warn (label : string) (subject : option string) (error : exn) : M unit :=
  fun w => (Ok tt, with_console (mkLine LWarn label subject (Some error)) w).

Definition console_error (label : string) (subject : option string) (error : exn) : M unit :=
  fun w => (Ok tt, with_console (mkLine LError label subject (Some error)) w).

Definition axios_send (r : request) : M jsval :=
  fun w => match axios_reply env (net_calls w) r with
           | inr data => (Ok data, with_request r w)
           | inl e => (Throw e, with_request r w)
           end.

Definition axios_post (u : string) (payload : InspectionPayload) : M jsval :=
  axios_send (mkRequest "POST" u (Some payload)).

Definition axios_get (u : string) : M jsval :=
  axios_send (mkRequest "GET" u None).

(** [item ? ... : ...] on what [getItem] answered: [null] and the empty
    string are both falsy. *)
Definition present (item : option stored) : option stored :=
  match item with
  | Some (SText "") => None
  | _ => item
  end.

Definition JSON_parse (v : stored) : M stored :=
  match v with
  | SText _ => throw (mkExn PlainError "JSON Parse error: Unexpected token")
  | _ => ret v
  end.

(** *** TrackingService *)

Definition generateTrackingId : M string :=
  timestamp <- Date_now ;;
  r <- Math_random ;;
  let random := substring 2 9 (number_toString36 env r) in
  ret ("track_" +:+ pretty timestamp +:+ "_" +:+ random).

Definition getDeviceInfo : M DeviceInfo :=
  now <- Date_now ;;
  ret (mkDeviceInfo "web" now
         (match navigator env with Some (ua, _) => ua | None => "unknown" end)).

Definition getNetworkStatus : M NetworkStatus :=
  try_catch
    (let online := match navigator env with Some (_, onLine) => onLine | None => true end in
     ret (mkNetworkStatus online "unknown"))
    (fun _ => ret (mkNetworkStatus false "unknown")).

(** The parsed master list is used as an array.  In a store written by
    this service the only other thing the key can hold is an entry whose
    id is [master_list], an object: [push] and [for ... of] throw on it. *)
Definition getMasterTrackingList : M stored :=
  try_catch
    (listData <- AsyncStorage_getItem "tracking_master_list" ;;
     match present listData with
     | Some v => JSON_parse v
     | None => ret (SIds [])
     end)
    (fun error => console_error "Get master tracking list error:" None error ;; ret (SIds [])).

Definition array_push (masterList : stored) (x : string) : M (list string) :=
  match masterList with
  | SIds ids => ret (ids ++ [x])
  | _ => throw (mkExn TypeError "masterList.push is not a function")
  end.

Definition iterate (masterList : stored) : M (list string) :=
  match masterList with
  | SIds ids => ret ids
  | _ => throw (mkExn TypeError "masterList is not iterable")
  end.

(** What was parsed from an entry key, pushed on the array of entries.
    The JavaScript pushes whatever [JSON.parse] gave.  The array being
    typed here, a parsed value that is not an entry (the master list
    itself, when the list names [master_list]) is left out of it with a
    warning, where the JavaScript lists it: what is stated of a listing as
    such is stated for lists whose ids lead to entry records
    ([entry_records]). *)
Definition parsed_entry (v : stored) : M TrackingEntry :=
  match v with
  | SEntry e => ret e
  | _ => throw (mkExn TypeError "not a tracking entry")
  end.

Definition storeTrackingEntry (entry : TrackingEntry) : M unit :=
  try_catch
    (let key := "tracking_" +:+ entry_id entry in
     AsyncStorage_setItem key (SEntry entry) ;;
     masterList <- getMasterTrackingList ;;
     masterList <- array_push masterList (entry_id entry) ;;
     AsyncStorage_setItem "tracking_master_list" (SIds masterList))
    (fun error => console_error "Store tracking entry error:" None error).

Definition trackScan (scanData : ScanData) : M (option TrackingEntry) :=
  try_catch
    (id <- generateTrackingId ;;
     now <- Date_now ;;
     deviceInfo <- getDeviceInfo ;;
     networkStatus <- getNetworkStatus ;;
     let trackingEntry :=
       mkEntry id (scan_fittingId scanData) now (scan_userId scanData) "scanned"
         (ScanDetails (scan_id scanData) (str_or_null (scan_location scanData))
            (str_or (scan_type scanData) "qr_code") deviceInfo networkStatus) in
     (fun w => (Ok tt, with_trackingCache (fun c => <[id := trackingEntry]> c) w)) ;;
     storeTrackingEntry trackingEntry ;;
     (fun w => (Ok tt, with_syncQueue (syncQueue w ++ [trackingEntry]) w)) ;;
     ret (Some trackingEntry))
    (fun error => console_error "Tracking scan error:" None error ;; ret None).

(** The body of the loop of [getAllTrackingEntries]; [entries] is the
    array built so far. *)
Definition load_entry (entries : list TrackingEntry) (entryId : string)
    : M (list TrackingEntry) :=
  try_catch
    (entryData <- AsyncStorage_getItem ("tracking_" +:+ entryId) ;;
     match present entryData with
     | Some v => parsed <- JSON_parse v ;; e <- parsed_entry parsed ;; ret (entries ++ [e])
     | None => ret entries
     end)
    (fun error =>
       console_warn "Failed to load tracking entry:" (Some entryId) error ;;
       ret entries).

Definition getAllTrackingEntries : M (list TrackingEntry) :=
  try_catch
    (masterList <- getMasterTrackingList ;;
     ids <- iterate masterList ;;
     for_of ids load_entry [])
    (fun error => console_error "Get all tracking entries error:" None error ;; ret []).

(** [(a, b) => new Date(b.timestamp) - new Date(a.timestamp)] *)
Definition newest_first (a b : TrackingEntry) : Z := timestamp b - timestamp a.

Definition getRecentActivity (limit : Z) : M (list TrackingEntry) :=
  try_catch
    (allEntries <- getAllTrackingEntries ;;
     ret (slice0 limit (js_sort newest_first allEntries)))
    (fun error => console_error "Get recent activity error:" None error ;; ret []).

(** The default of the [limit] parameter. *)
Definition getRecentActivity_default_limit : Z := 20.

Definition simulateServerSync (entry : TrackingEntry) : M bool :=
  (* a 100 ms timer, then *)
  r <- Math_random ;;
  if negb (Qle_bool r double_0_9)
  then throw (mkExn PlainError "Network timeout")
  else console_log "Synced tracking entry:" (Some (entry_id entry)) ;; ret true.

Inductive SyncResult :=
| SyncDone (synced : Z) (failed : option Z)   (* success: true *)
| SyncFailed (error : string).                (* success: false *)

(** The body of the loop of [syncPendingEntries], carrying [syncedCount]
    and [failedEntries]. *)
Definition sync_entry (acc : Z * list TrackingEntry) (entry : TrackingEntry)
    : M (Z * list TrackingEntry) :=
  let '(syncedCount, failedEntries) := acc in
  try_catch
    (simulateServerSync entry ;; ret (syncedCount + 1, failedEntries))
    (fun error =>
       console_warn "Failed to sync entry:" (Some (entry_id entry)) error ;;
       ret (syncedCount, failedEntries ++ [entry])).

Definition syncPendingEntries : M SyncResult :=
  try_catch
    (fun w =>
       let queue := syncQueue w in
       if (length queue =? 0)%nat then (Ok (SyncDone 0 None), w)
       else
         (r <- for_of queue sync_entry (0, []) ;;
          let '(syncedCount, failedEntries) := r in
          (* Update sync queue to only contain failed entries *)
          (fun w => (Ok tt, with_syncQueue failedEntries w)) ;;
          ret (SyncDone syncedCount (Some (Z.of_nat (length failedEntries))))) w)
    (fun error =>
       console_error "Sync pending entries error:" None error ;;
       ret (SyncFailed (message error))).

Inductive ClearResult :=
| Cleared
| ClearFailed (error : string).

Definition clearTrackingData : M ClearResult :=
  try_catch
    (masterList <- getMasterTrackingList ;;
     ids <- iterate masterList ;;
     for_of ids (fun _ entryId => AsyncStorage_removeItem ("tracking_" +:+ entryId)) tt ;;
     AsyncStorage_removeItem "tracking_master_list" ;;
     (fun w => (Ok tt, with_syncQueue [] (with_trackingCache (fun _ => ∅) w))) ;;
     ret Cleared)
    (fun error =>
       console_error "Clear tracking data error:" None error ;;
       ret (ClearFailed (message error))).

(** **** TrackingService: the other capture, query and transfer operations *)

Definition cache_set (entry : TrackingEntry) : M unit :=
  fun w => (Ok tt, with_trackingCache (fun c => <[entry_id entry := entry]> c) w).

Definition queue_push (entry : TrackingEntry) : M unit :=
  fun w => (Ok tt, with_syncQueue (syncQueue w ++ [entry]) w).

Definition trackInspection (inspectionData : InspectionCapture) : M (option TrackingEntry) :=
  try_catch
    (id <- generateTrackingId ;;
     now <- Date_now ;;
     let trackingEntry :=
       mkEntry id (capture_fittingId inspectionData) now (capture_inspector inspectionData)
         "inspected"
         (InspectionDetails (capture_id inspectionData)
            (str_or_null (capture_location inspectionData))
            (capture_condition inspectionData) (capture_notes inspectionData)
            (str_or (capture_type inspectionData) "visual")
            (default 0 (capture_duration inspectionData))
            (match capture_photos inspectionData with
             | Some photos => length photos
             | None => 0%nat
             end)) in
     cache_set trackingEntry ;;
     storeTrackingEntry trackingEntry ;;
     queue_push trackingEntry ;;
     ret (Some trackingEntry))
    (fun error => console_error "Tracking inspection error:" None error ;; ret None).

Definition trackMovement (movementData : MovementData) : M (option TrackingEntry) :=
  try_catch
    (id <- generateTrackingId ;;
     now <- Date_now ;;
     let trackingEntry :=
       mkEntry id (move_fittingId movementData) now (move_userId movementData) "moved"
         (MovementDetails (move_from movementData) (move_to movementData)
            (str_or (move_reason movementData) "relocation")
            (str_or (move_transportMethod movementData) "manual")
            (str_or_null (move_approvalId movementData))
            (default 0 (move_estimatedDuration movementData))) in
     cache_set trackingEntry ;;
     storeTrackingEntry trackingEntry ;;
     queue_push trackingEntry ;;
     ret (Some trackingEntry))
    (fun error => console_error "Tracking movement error:" None error ;; ret None).

Definition getTrackingHistory (fitting : string) (limit : Z) : M (list TrackingEntry) :=
  try_catch
    (allEntries <- getAllTrackingEntries ;;
     ret (slice0 limit
            (js_sort newest_first (filter (fun entry => fittingId entry = fitting) allEntries))))
    (fun error => console_error "Get tracking history error:" None error ;; ret []).

(** The default of the [limit] parameter. *)
Definition getTrackingHistory_default_limit : Z := 50.

Section Activity.

Variable calendar : Calendar.

(** [allEntries.filter(e => e.status === s).length] *)
Definition with_status (s : string) (entries : list TrackingEntry) : Z :=
  Z.of_nat (length (filter (fun e => status e = s) entries)).

Definition getActivityStats (timeframe : string) : M ActivityStats :=
  try_catch
    (allEntries <- getAllTrackingEntries ;;
     now <- Date_now ;;
     startDate <- Date_now ;;
     let startDate :=
       if String.eqb timeframe "day" then setDate calendar startDate (getDate calendar now - 1)
       else if String.eqb timeframe "week" then setDate calendar startDate (getDate calendar now - 7)
       else if String.eqb timeframe "month"
            then setMonth calendar startDate (getMonth calendar now - 1)
       else setDate calendar startDate (getDate calendar now - 7) in
     let filteredEntries := filter (fun entry => startDate <= timestamp entry) allEntries in
     ret (mkStats (Z.of_nat (length filteredEntries))
            (with_status "scanned" filteredEntries)
            (with_status "inspected" filteredEntries)
            (with_status "moved" filteredEntries)
            timeframe (Some (startDate, now))))
    (fun error => console_error "Get activity stats error:" None error ;;
                  ret (mkStats 0 0 0 0 timeframe None)).

End Activity.

(** The body of the loop of [importTrackingData]. *)
Definition import_entry (importedCount : Z) (entry : TrackingEntry) : M Z :=
  try_catch
    (storeTrackingEntry entry ;;
     cache_set entry ;;
     ret (importedCount + 1))
    (fun error => console_warn "Failed to import entry:" (Some (entry_id entry)) error ;;
                  ret importedCount).

(** [importData] is [None] when it, or its [entries], is missing. *)
Definition importTrackingData (importData : option (list TrackingEntry)) : M ImportResult :=
  try_catch
    (match importData with
     | None => throw (mkExn PlainError "Invalid import data format")
     | Some entries =>
         importedCount <- for_of entries import_entry 0 ;;
         ret (Imported importedCount (Z.of_nat (length entries)))
     end)
    (fun error => console_error "Import tracking data error:" None error ;;
                  ret (ImportFailed (message error))).

(** *** InspectionService *)

Definition baseURL : string := "https://api.ireps.gov.in/v1/inspections".
Definition tmsBaseURL : string := "https://api.irecept.gov.in/v1/inspections".

(** [Object.values(visualCheck).filter(v => v).length] *)
Definition visualDefects (visualCheck : list (string * bool)) : Z :=
  Z.of_nat (length (filter (fun kv => Is_true kv.2) visualCheck)).

(** [visualCheck.name || false] *)
Definition flag (name : string) (visualCheck : list (string * bool)) : bool :=
  match list_find (fun kv => kv.1 = name) visualCheck with
  | Some (_, (_, b)) => b
  | None => false
  end.

Definition is_digit (c : ascii) : bool :=
  let n := nat_of_ascii c in ((48 <=? n) && (n <=? 57))%nat.

(** A [\w] character: a letter, a digit or the underscore. *)
Definition is_word_char (c : ascii) : bool :=
  let n := nat_of_ascii c in
  (((48 <=? n) && (n <=? 57)) || ((65 <=? n) && (n <=? 90))
   || ((97 <=? n) && (n <=? 122)) || (n =? 95))%nat.

(** [s.split(sep)] for a one-character separator; [cur] is the field
    being read. *)
Fixpoint split_from (sep : ascii) (cur : string) (s : string) : list string :=
  match s with
  | EmptyString => [cur]
  | String c rest =>
      if Ascii.eqb c sep then cur :: split_from sep "" rest
      else split_from sep (cur +:+ String c EmptyString) rest
  end.

Definition split_on (sep : ascii) (s : string) : list string := split_from sep "" s.

(** [s.split('-')] *)
Definition split_dash (s : string) : list string := split_on "-"%char s.

Definition all_chars (p : ascii -> bool) (s : string) : bool :=
  forallb p (list_ascii_of_string s).

Definition is_type_code (s : string) : bool :=
  String.eqb s "RC" || String.eqb s "LN" || String.eqb s "RP" || String.eqb s "SL".

(** [/^(RC|LN|RP|SL)-\w+-\d{8}-VND\d{3}-\d{5}$/.test(qrCode)].  No class
    of the pattern matches a dash, so a match is exactly five dash-separated
    fields of these shapes. *)
Definition isValidQRCode (qrCode : string) : bool :=
  match split_dash qrCode with
  | [type; lot; date; vendor; serial] =>
      is_type_code type
      && (negb (String.eqb lot "") && all_chars is_word_char lot)
      && ((String.length date =? 8)%nat && all_chars is_digit date)
      && (String.eqb (substring 0 3 vendor) "VND" && (String.length vendor =? 6)%nat
          && all_chars is_digit (substring 3 3 vendor))
      && ((String.length serial =? 5)%nat && all_chars is_digit serial)
  | _ => false
  end.

Definition nonempty (s : string) : bool := negb (String.eqb s "").

Definition validateInspectionData (data : InspectionData) : bool * list string :=
  let errors := [] in
  let errors := if nonempty (qrCode data) then errors else errors ++ ["QR Code is required"] in
  let errors := if nonempty (inspectorName data) then errors
                else errors ++ ["Inspector name is required"] in
  let errors := if nonempty (inspectionType data) then errors
                else errors ++ ["Inspection type is required"] in
  let errors := if nonempty (qrCode data) && negb (isValidQRCode (qrCode data))
                then errors ++ ["Invalid QR code format"] else errors in
  let d := dimensionalCheck data in
  let errors := if nonempty (dim_length d) && isNaN env (dim_length d)
                then errors ++ ["Invalid length measurement"] else errors in
  let errors := if nonempty (dim_width d) && isNaN env (dim_width d)
                then errors ++ ["Invalid width measurement"] else errors in
  let errors := if nonempty (hardness (materialCheck data)) && isNaN env (hardness (materialCheck data))
                then errors ++ ["Invalid hardness value"] else errors in
  ((length errors =? 0)%nat, errors).

Definition calculateVisualCondition (visualCheck : list (string * bool)) : string :=
  let defects := visualDefects visualCheck in
  if defects =? 0 then "Excellent"
  else if defects <=? 1 then "Good"
  else if defects <=? 2 then "Fair"
  else "Poor".

Definition calculateDimensionalAccuracy (d : DimensionalCheck) : string :=
  if String.eqb (tolerance d) "within" then "High"
  else if String.eqb (tolerance d) "marginal" then "Medium"
  else "Low".

Definition determineMaterialGrade (m : MaterialCheck) : string :=
  if String.eqb (tensileStrength m) "pass" && String.eqb (chemicalComposition m) "pass" then "A"
  else if String.eqb (tensileStrength m) "pass" || String.eqb (chemicalComposition m) "pass" then "B"
  else "C".

Definition assessOperationalStatus (f : FunctionalCheck) : string :=
  if String.eqb (fitment f) "good" && String.eqb (performance f) "satisfactory" then "Operational"
  else if String.eqb (fitment f) "fair" || String.eqb (performance f) "acceptable" then "Conditional"
  else "Non-Operational".

Definition determinePassStatus (data : InspectionData) : bool :=
  let defects := visualDefects (visualCheck data) in
  let dimensionalPass := String.eqb (tolerance (dimensionalCheck data)) "within" in
  let materialPass := String.eqb (tensileStrength (materialCheck data)) "pass" in
  (defects =? 0) && dimensionalPass && materialPass.

Definition assessRiskLevel (data : InspectionData) : string :=
  let defects := visualDefects (visualCheck data) in
  let dimensionalPass := String.eqb (tolerance (dimensionalCheck data)) "within" in
  let materialPass := String.eqb (tensileStrength (materialCheck data)) "pass" in
  if (2 <? defects) || negb dimensionalPass || negb materialPass then "High"
  else if (0 <? defects) || String.eqb (tolerance (dimensionalCheck data)) "marginal" then "Medium"
  else "Low".

Definition monthsToAdd (data : InspectionData) : Z :=
  let months := if String.eqb (overallGrade data) "C" then 3
                else if String.eqb (overallGrade data) "A" then 12 else 6 in
  if String.eqb (inspectionType data) "emergency" then 1 else months.

Definition calculateNextInspectionDate (data : InspectionData) : M string :=
  now <- Date_now ;;
  ret (iso_date_plus_months env now (monthsToAdd data)).

Definition generateInspectorSignature (name : string) : M string :=
  timestamp <- Date_now ;;
  match btoa env (name +:+ "-" +:+ pretty timestamp) with
  | inr signature => ret signature
  | inl e => throw e
  end.

Definition calculateQualityScore (data : InspectionData) : Z :=
  let score := 100 in
  let score := score - visualDefects (visualCheck data) * 10 in
  let score := if String.eqb (tolerance (dimensionalCheck data)) "marginal" then score - 5
               else if String.eqb (tolerance (dimensionalCheck data)) "outside" then score - 15
               else score in
  let score := if String.eqb (tensileStrength (materialCheck data)) "fail" then score - 20
               else score in
  let score := if String.eqb (chemicalComposition (materialCheck data)) "fail" then score - 15
               else score in
  let score := if String.eqb (performance (functionalCheck data)) "poor" then score - 25
               else if String.eqb (performance (functionalCheck data)) "acceptable" then score - 10
               else score in
  Z.max 0 (Z.min 100 score).

Definition generateInspectionId : M string :=
  timestamp <- Date_now ;;
  r <- Math_random ;;
  let random := floor_times_1000 r in
  ret ("INS-" +:+ pretty timestamp +:+ "-" +:+ pretty random).

(** [parseFloat(s) || null]: NaN and zero are both falsy. *)
Definition parseFloat_or_null (s : string) : option Q :=
  match parseFloat env s with
  | Some q => if Qeq_bool q 0 then None else Some q
  | None => None
  end.

Definition prepareInspectionPayload (data : InspectionData) : M InspectionPayload :=
  id <- generateInspectionId ;;
  timestamp <- Date_now ;;
  nextDate <- calculateNextInspectionDate data ;;
  signature <- generateInspectorSignature (inspectorName data) ;;
  let v := visualCheck data in
  let d := dimensionalCheck data in
  let m := materialCheck data in
  let f := functionalCheck data in
  ret (mkPayload id (qrCode data) (inspectorName data) (inspectionType data) timestamp
         (str_or (location data) "Unknown")
         (mkVisualInspection (flag "cracks" v) (flag "corrosion" v) (flag "deformation" v)
            (flag "surfaceDamage" v) (calculateVisualCondition v))
         (mkDimensionalMeasurements (parseFloat_or_null (dim_length d))
            (parseFloat_or_null (dim_width d)) (parseFloat_or_null (dim_height d))
            (tolerance d) (calculateDimensionalAccuracy d))
         (mkMaterialProperties (parseFloat_or_null (hardness m)) (tensileStrength m)
            (chemicalComposition m) (determineMaterialGrade m))
         (mkFunctionalAssessment (fitment f) (performance f) (assessOperationalStatus f))
         (mkOverallAssessment (overallGrade data) (determinePassStatus data)
            (assessRiskLevel data) nextDate)
         (remarks data) (recommendations data) (photos data) signature
         (calculateQualityScore data) false).

(** [{ success: true, data }] or [{ success: false, error }] *)
Inductive SubmitResult :=
| Submitted (data : jsval)
| NotSubmitted (error : string).

Definition success (r : SubmitResult) : bool :=
  match r with Submitted _ => true | NotSubmitted _ => false end.

Definition submitToUDM (payload : InspectionPayload) : M SubmitResult :=
  try_catch
    (token <- AsyncStorage_getItem "authToken" ;;
     data <- axios_post (baseURL +:+ "/submit") payload ;;
     ret (Submitted data))
    (fun error => console_warn "UDM submission error:" None error ;;
                  ret (NotSubmitted (message error))).

Definition submitToTMS (payload : InspectionPayload) : M SubmitResult :=
  try_catch
    (token <- AsyncStorage_getItem "authToken" ;;
     data <- axios_post (tmsBaseURL +:+ "/submit") payload ;;
     ret (Submitted data))
    (fun error => console_warn "TMS submission error:" None error ;;
                  ret (NotSubmitted (message error))).

(** [item ? JSON.parse(item) : []] *)
Definition parsed_or_empty (empty : stored) (item : option stored) : M stored :=
  match present item with
  | Some v => JSON_parse v
  | None => ret empty
  end.

(** The parsed value used as an array of inspections ([push], [filter])
    or of reports. *)
Definition as_inspections (v : stored) : M (list InspectionPayload) :=
  match v with
  | SInspections l => ret l
  | _ => throw (mkExn TypeError "not an array of inspections")
  end.

Definition as_reports (v : stored) : M (list InspectionReport) :=
  match v with
  | SReports l => ret l
  | _ => throw (mkExn TypeError "not an array of reports")
  end.

Definition storeInspectionLocally (payload : InspectionPayload) : M unit :=
  try_catch
    (existingInspections <- AsyncStorage_getItem "localInspections" ;;
     inspections <- parsed_or_empty (SInspections []) existingInspections ;;
     inspections <- as_inspections inspections ;;
     let inspections := inspections ++ [payload] in
     (* Keep only last 100 inspections *)
     let inspections := keep_last 100 inspections in
     AsyncStorage_setItem "localInspections" (SInspections inspections))
    (fun error => console_error "Local storage error:" None error).

Definition getLocalInspections : M stored :=
  try_catch
    (data <- AsyncStorage_getItem "localInspections" ;;
     parsed_or_empty (SInspections []) data)
    (fun error => console_error "Local retrieval error:" None error ;;
                  ret (SInspections [])).

Definition storeReportLocally (report : InspectionReport) : M unit :=
  try_catch
    (existingReports <- AsyncStorage_getItem "inspectionReports" ;;
     reports <- parsed_or_empty (SReports []) existingReports ;;
     reports <- as_reports reports ;;
     let reports := reports ++ [report] in
     (* Keep only last 50 reports *)
     let reports := keep_last 50 reports in
     AsyncStorage_setItem "inspectionReports" (SReports reports))
    (fun error => console_error "Report storage error:" None error).

Definition extractKeyFindings (data : InspectionData) : list string :=
  let findings := [] in
  let defects := map fst (filter (fun kv => Is_true kv.2) (visualCheck data)) in
  let findings := if (0 <? length defects)%nat
                  then findings ++ ["Visual defects found: " +:+ String.concat ", " defects]
                  else findings in
  let findings := if negb (String.eqb (tolerance (dimensionalCheck data)) "within")
                  then findings ++ ["Dimensional tolerance: " +:+ tolerance (dimensionalCheck data)]
                  else findings in
  let findings := if String.eqb (tensileStrength (materialCheck data)) "fail"
                  then findings ++ ["Tensile strength test failed"] else findings in
  if (length findings =? 0)%nat
  then findings ++ ["All inspection parameters within acceptable limits"]
  else findings.

Definition generateReportSummary (data : InspectionData) : ReportSummary :=
  mkSummary (if determinePassStatus data then "PASSED" else "FAILED") (overallGrade data)
    (assessRiskLevel data) (calculateQualityScore data) (extractKeyFindings data).

Definition generateNextActions (data : InspectionData) : M (list NextAction) :=
  let actions := [] in
  let actions := if negb (determinePassStatus data)
                 then actions ++ [mkAction "Immediate remedial measures required" "High"
                                    "Within 24 hours" "Maintenance Team"]
                 else actions in
  let actions := if String.eqb (assessRiskLevel data) "High"
                 then actions ++ [mkAction "Increase monitoring frequency" "High"
                                    "Immediate" "Quality Team"]
                 else actions in
  nextDate <- calculateNextInspectionDate data ;;
  ret (actions ++ [mkAction ("Next inspection due: " +:+ nextDate) "Medium"
                     "As scheduled" "Inspection Team"]).

Definition checkCompliance (data : InspectionData) : Compliance :=
  let visual := (0 <? length (visualCheck data))%nat in
  let dimensional := true in
  let material := true in
  let documentation := nonempty (inspectorName data) && nonempty (qrCode data) in
  mkCompliance
    (if visual && dimensional && material && documentation then "Compliant" else "Non-Compliant")
    visual dimensional material documentation.

Definition generateInspectionReport (inspectionData : InspectionData) : M (option string) :=
  try_catch
    (now <- Date_now ;;
     let reportId := "RPT-" +:+ pretty now in
     generatedAt <- Date_now ;;
     actions <- generateNextActions inspectionData ;;
     let report :=
       mkReport reportId generatedAt (qrCode inspectionData) (inspectorName inspectionData)
         (inspectionType inspectionData) (generateReportSummary inspectionData)
         (recommendations inspectionData) actions (checkCompliance inspectionData) in
     storeReportLocally report ;;
     ret (Some reportId))
    (fun error => console_error "Report generation error:" None error ;; ret None).

Inductive SubmissionResult :=
| SubmissionOk (inspectionId : string) (reportId : option string)
    (udmStatus tmsStatus : bool) (message : string)     (* success: true *)
| SubmissionFailed (error : string).                    (* success: false *)

Definition submitInspection (inspectionData : InspectionData) : M SubmissionResult :=
  try_catch
    (let validation := validateInspectionData inspectionData in
     if negb validation.1 then ret (SubmissionFailed (String.concat ", " validation.2))
     else
       payload <- prepareInspectionPayload inspectionData ;;
       udmResult <- submitToUDM payload ;;
       tmsResult <- submitToTMS payload ;;
       storeInspectionLocally payload ;;
       reportId <- generateInspectionReport inspectionData ;;
       ret (SubmissionOk (inspectionId payload) reportId (success udmResult) (success tmsResult)
              "Inspection submitted successfully"))
    (fun error => console_error "Inspection submission error:" None error ;;
                  ret (SubmissionFailed "Failed to submit inspection")).

Definition mark_synced (p : InspectionPayload) : InspectionPayload :=
  mkPayload (inspectionId p) (p_qrCode p) (p_inspectorName p) (p_inspectionType p)
    (p_timestamp p) (p_location p) (visualInspection p) (dimensionalMeasurements p)
    (materialProperties p) (functionalAssessment p) (overallAssessment p) (p_remarks p)
    (p_recommendations p) (p_photos p) (inspectorSignature p) (qualityScore p) true.

Inductive InspectionSyncResult :=
| InspectionSyncDone (synced failed total : Z)   (* success: true *)
| InspectionSyncFailed (error : string).         (* success: false *)

(** Loop-carried state of [syncPendingInspections]: the objects of
    [localInspections] visited so far and the two counters. *)
Record SyncPass := mkPass {
  visited : list InspectionPayload;
  successCount : Z;
  failCount : Z }.

(** [pendingSync] holds the very objects of [localInspections] that are not
    synced, in order, so [inspection.synced = true] changes the object that
    [localInspections] is written back from.  The loop over [pendingSync]
    is thus a pass over [localInspections] that leaves the synced ones
    alone; [sync_inspection] is its body. *)
Definition sync_inspection (pass : SyncPass) (inspection : InspectionPayload) : M SyncPass :=
  if synced inspection
  then ret (mkPass (visited pass ++ [inspection]) (successCount pass) (failCount pass))
  else
    udmResult <- submitToUDM inspection ;;
    tmsResult <- submitToTMS inspection ;;
    if success udmResult || success tmsResult
    then ret (mkPass (visited pass ++ [mark_synced inspection])
                (successCount pass + 1) (failCount pass))
    else ret (mkPass (visited pass ++ [inspection])
                (successCount pass) (failCount pass + 1)).

Definition syncPendingInspections : M InspectionSyncResult :=
  try_catch
    (localInspections <- getLocalInspections ;;
     localInspections <- as_inspections localInspections ;;
     let pendingSync := filter (fun i => Is_true (negb (synced i))) localInspections in
     pass <- for_of localInspections sync_inspection (mkPass [] 0 0) ;;
     (* Update local storage *)
     AsyncStorage_setItem "localInspections" (SInspections (visited pass)) ;;
     ret (InspectionSyncDone (successCount pass) (failCount pass)
            (Z.of_nat (length pendingSync))))
    (fun error => console_error "Sync error:" None error ;;
                  ret (InspectionSyncFailed (message error))).

(** [(a, b) => new Date(b.timestamp) - new Date(a.timestamp)] on inspections *)
Definition latest_first (a b : InspectionPayload) : Z := p_timestamp b - p_timestamp a.

Definition getInspectionHistory (code : string) : M (list InspectionPayload) :=
  try_catch
    (localInspections <- getLocalInspections ;;
     localInspections <- as_inspections localInspections ;;
     let history := filter (fun inspection => p_qrCode inspection = code) localInspections in
     ret (js_sort latest_first history))
    (fun error => console_error "History retrieval error:" None error ;; ret []).

(** *** QRService *)

Definition QR_baseURL : string := "https://api.ireps.gov.in/v1".

Definition getFittingTypeName (code : string) : string :=
  if String.eqb code "RC" then "Elastic Rail Clip"
  else if String.eqb code "LN" then "Liner"
  else if String.eqb code "RP" then "Rail Pad"
  else if String.eqb code "SL" then "Sleeper"
  else "Unknown".

(** A destructured array element that may be undefined, interpolated. *)
Definition interpolate (o : option string) : string := default "undefined" o.

(** [vendors[code] || `Vendor ${code}`], for a code that names no
    property an object inherits ([constructor], [toString], ...), as the
    codes of well-formed QR codes (VND and three digits) are. *)
Definition getVendorName (code : option string) : string :=
  match code with
  | Some "VND001" => "Bharat Steel Industries"
  | Some "VND002" => "Railway Track Components Ltd"
  | Some "VND003" => "Indian Rail Fittings Corp"
  | Some "VND004" => "Steel Authority of India"
  | Some "VND005" => "Tata Steel Railway Division"
  | _ => "Vendor " +:+ interpolate code
  end.

Definition getSpecifications (type : string) : jsval :=
  if String.eqb type "RC" then
    JObj [("material", JStr "Spring Steel"); ("grade", JStr "Grade 60");
          ("tensileStrength", JStr "1800-2000 MPa"); ("hardness", JStr "52-58 HRC");
          ("coating", JStr "Zinc Plated")]
  else if String.eqb type "LN" then
    JObj [("material", JStr "Cast Iron"); ("grade", JStr "Grade 250");
          ("dimensions", JStr "165x135x13 mm"); ("weight", JStr "0.8 kg");
          ("finish", JStr "Shot Blasted")]
  else if String.eqb type "RP" then
    JObj [("material", JStr "EPDM Rubber"); ("hardness", JStr "70±5 Shore A");
          ("dimensions", JStr "165x135x6 mm"); ("density", JStr "1.4 g/cm³");
          ("temperature", JStr "-40°C to +70°C")]
  else if String.eqb type "SL" then
    JObj [("material", JStr "Concrete"); ("grade", JStr "M40");
          ("dimensions", JStr "2600x240x200 mm"); ("weight", JStr "280 kg");
          ("reinforcement", JStr "PSC")]
  else JObj [].

Definition getUnitPrice (type : string) : Q :=
  if String.eqb type "RC" then 4550 # 100
  else if String.eqb type "LN" then 3225 # 100
  else if String.eqb type "RP" then 2875 # 100
  else if String.eqb type "SL" then 1450 # 1
  else 0.

Definition getMockInspectionHistory : jsval :=
  JArr [JObj [("date", JStr "2024-09-20"); ("type", JStr "Manufacturing Quality Check");
              ("inspector", JStr "QC Team A"); ("result", JStr "Passed"); ("grade", JStr "A");
              ("remarks", JStr "All parameters within specification")];
        JObj [("date", JStr "2024-09-21"); ("type", JStr "Pre-dispatch Inspection");
              ("inspector", JStr "QA Inspector"); ("result", JStr "Passed"); ("grade", JStr "A");
              ("remarks", JStr "Ready for dispatch")]].

(** YYYYMMDD to DD/MM/YYYY.  Length and positions are counted in bytes,
    which are JavaScript's on an ASCII [dateStr]. *)
Definition formatDate (dateStr : string) : string :=
  if (String.length dateStr =? 8)%nat then
    let year := substring 0 4 dateStr in
    let month := substring 4 2 dateStr in
    let day := substring 6 2 dateStr in
    day +:+ "/" +:+ month +:+ "/" +:+ year
  else dateStr.

(** [getMockFittingDetails]: [date.length] throws when the code has fewer
    than three fields. *)
Definition getMockFittingDetails (qrCode : string) : M jsval :=
  let parts := split_dash qrCode in
  let type := default "" (parts !! 0%nat) in
  let vendor := parts !! 3%nat in
  match parts !! 2%nat with
  | None => throw (mkExn TypeError "Cannot read properties of undefined (reading 'length')")
  | Some date =>
      r <- Math_random ;;
      now <- Date_now ;;
      ret (JObj [("vendorName", JStr (getVendorName vendor));
                 ("specifications", getSpecifications type);
                 ("warrantyPeriod", JStr "24 months");
                 ("supplyDate", JStr (formatDate date));
                 ("inspectionHistory", getMockInspectionHistory);
                 ("qualityGrade", JStr "A");
                 ("location", JStr "Warehouse-A-Block-3");
                 ("quantity", JNum (inject_Z (floor_times_1000 r + 100)));
                 ("unitPrice", JNum (getUnitPrice type));
                 ("totalValue", JNum 0);
                 ("status", JStr "Good");
                 ("lastInspected", JStr "20/09/2025");
                 ("id", JStr (pretty now))])
  end.

Definition getFittingDetails (qrCode : string) : M jsval :=
  try_catch
    (token <- AsyncStorage_getItem "authToken" ;;
     axios_get (QR_baseURL +:+ "/fittings/" +:+ qrCode))
    (fun error => console_warn "UDM API error:" None error ;;
                  (* Return mock data for offline/demo mode *)
                  getMockFittingDetails qrCode).

Inductive ParseResult :=
| Parsed (data : gmap string jsval)   (* success: true *)
| ParseFailed (error : string).       (* success: false *)

Definition parseQRCode (qrData : string) : M ParseResult :=
  try_catch
    (let parts := split_dash qrData in
     if (length parts <? 5)%nat then ret (ParseFailed "Invalid QR code format")
     else
       let type := default "" (parts !! 0%nat) in
       let lot := default "" (parts !! 1%nat) in
       let date := default "" (parts !! 2%nat) in
       let vendor := default "" (parts !! 3%nat) in
       let serial := default "" (parts !! 4%nat) in
       if negb (is_type_code type) then ret (ParseFailed "Invalid fitting type")
       else
         fittingDetails <- getFittingDetails qrData ;;
         ret (Parsed (obj_of_props
                        ([("qrCode", JStr qrData);
                          ("type", JStr (getFittingTypeName type));
                          ("typeCode", JStr type);
                          ("lotNumber", JStr lot);
                          ("manufactureDate", JStr date);
                          ("vendorCode", JStr vendor);
                          ("serialNumber", JStr serial)]
                         ++ own_props fittingDetails))))
    (fun error => console_error "QR parsing error:" None error ;;
                  ret (ParseFailed "QR code parsing failed")).

(** *** AIService *)

Record HistoryItem := mkHistoryItem {
  h_date : string;
  h_type : string;
  h_inspector : string;
  h_result : string;
  h_grade : string;
  h_remarks : string }.

(** The fields of a fitting that [calculateBaseScore] reads. *)
Record FittingData := mkFittingData {
  supplyDate : string;
  qualityGrade : string;
  inspectionHistory : option (list HistoryItem) }.

(** Age in days; [None] is NaN (the supply date did not parse). *)
Definition calculateAge (supplyDate : string) : M (option Z) :=
  let supply := date_parse env (String.concat "-" (rev (split_on "/"%char supplyDate))) in
  now <- Date_now ;;
  ret (match supply with
       | Some t => Some ((now - t) / (1000 * 60 * 60 * 24))
       | None => None
       end).

(** [age > n], false on NaN. *)
Definition older_than (age : option Z) (n : Z) : bool :=
  match age with Some a => n <? a | None => false end.

(** [Math.round] *)
Definition Math_round (q : Q) : Z := Qfloor (q + (1 # 2)).

(** The score is computed on rationals; the doubles of the JavaScript
    carry a rounding error that [Math.round] may or may not absorb. *)
Definition calculateBaseScore (fittingData : FittingData) : M Z :=
  let score := 85%Q in
  ageInDays <- calculateAge (supplyDate fittingData) ;;
  let score := if older_than ageInDays 365 then (score - 5)%Q else score in
  let score := if older_than ageInDays 730 then (score - 10)%Q else score in
  let score := if String.eqb (qualityGrade fittingData) "A" then (score + 10)%Q
               else if String.eqb (qualityGrade fittingData) "B" then (score + 5)%Q
               else if String.eqb (qualityGrade fittingData) "C" then (score - 5)%Q
               else score in
  let score :=
    match inspectionHistory fittingData with
    | Some history =>
        let passedInspections :=
          length (filter (fun i => h_result i = "Passed") history) in
        let totalInspections := length history in
        if (0 <? totalInspections)%nat then
          let passRate :=
            ((inject_Z (Z.of_nat passedInspections) / inject_Z (Z.of_nat totalInspections))
             * 100)%Q in
          (score + (passRate - 80) * (2 # 10))%Q
        else score
    | None => score
    end in
  ret (Z.max 0 (Z.min 100 (Math_round score))).

(** **** AIService: risk factors, risk level and risk matrix *)

(** A fitting as the other methods read it: the scored fields and two more. *)
Record AnalysedFitting := mkAnalysedFitting {
  scored : FittingData;
  vendorCode : string;
  typeCode : string }.

(** [Math.round(ageInDays / 30)], interpolated. *)
Definition months_old (ageInDays : option Z) : string :=
  match ageInDays with
  | Some a => pretty (Math_round (inject_Z a / 30))
  | None => "NaN"
  end.

Definition identifyRiskFactors (fittingData : AnalysedFitting) : M (list RiskFactor) :=
  let factors := [] in
  ageInDays <- calculateAge (supplyDate (scored fittingData)) ;;
  let factors :=
    if older_than ageInDays 365
    then factors ++ [mkRiskFactor "Aging Components"
                       (if older_than ageInDays 730 then "High" else "Medium")
                       ("Item is " +:+ months_old ageInDays +:+ " months old")
                       "Increased wear and potential failure risk"]
    else factors in
  let factors :=
    if String.eqb (qualityGrade (scored fittingData)) "C"
    then factors ++ [mkRiskFactor "Quality Concerns" "High"
                       "Low quality grade requires frequent monitoring"
                       "Higher failure probability and maintenance costs"]
    else factors in
  let factors :=
    if String.eqb (vendorCode fittingData) "VND003"
    then factors ++ [mkRiskFactor "Vendor Performance" "Medium"
                       "Historical quality issues with this vendor"
                       "May require additional quality checks"]
    else factors in
  let factors :=
    if String.eqb (typeCode fittingData) "RP"
    then factors ++ [mkRiskFactor "Environmental Degradation" "Medium"
                       "Rubber components susceptible to weather"
                       "UV and temperature exposure may accelerate aging"]
    else factors in
  ret (factors ++ [mkRiskFactor "High Traffic Load" "Medium"
                     "Heavy freight traffic increases stress"
                     "Accelerated wear patterns and fatigue"]).

(** [riskFactors.some(f => f.severity === s)] *)
Definition some_severity (s : string) (riskFactors : list RiskFactor) : bool :=
  existsb (fun f => String.eqb (severity f) s) riskFactors.

Definition determineRiskLevel (score : Z) (riskFactors : list RiskFactor) : string :=
  if (score <? 60) || some_severity "High" riskFactors then "High"
  else if (score <? 80) || some_severity "Medium" riskFactors then "Medium"
  else "Low".

(** [scores[factor.severity]]: a number for the three keys of [scores],
    undefined for another severity (taken not to name a property that
    objects inherit), which turns the total into NaN. *)
Definition severity_score (s : string) : option Z :=
  if String.eqb s "High" then Some 3
  else if String.eqb s "Medium" then Some 2
  else if String.eqb s "Low" then Some 1
  else None.

(** [n.filter(f => f.severity === s).length] *)
Definition count_severity (s : string) (riskFactors : list RiskFactor) : Z :=
  Z.of_nat (length (filter (fun f => severity f = s) riskFactors)).

(** [generateRiskMatrix], of [analysis.riskFactors]. *)
Definition generateRiskMatrix (riskFactors : list RiskFactor) : RiskMatrix :=
  mkRiskMatrix (count_severity "High" riskFactors) (count_severity "Medium" riskFactors)
    (count_severity "Low" riskFactors)
    (foldl (fun total f =>
              match total, severity_score (severity f) with
              | Some t, Some s => Some (t + s)
              | _, _ => None
              end) (Some 0) riskFactors).

(** *** DashboardService *)

Record CacheConfig := mkCacheConfig {
  cacheKey : string;
  cacheExpiry : Z }.

(** The fields the constructor sets. *)
Definition dashboardService : CacheConfig :=
  mkCacheConfig "dashboard_data" (5 * 60 * 1000).

(** [alerts.filter(a => a.severity === s && a.status === 'Active').length] *)
Definition active_alerts (s : string) (alerts : list Alert) : Z :=
  Z.of_nat (length (filter (fun a => alert_severity a = s /\ alert_status a = "Active") alerts)).

(** [passRate < n] *)
Definition below (passRate : Q) (n : Q) : bool := negb (Qle_bool n passRate).

(** [qualityMetrics] enters through [qualityMetrics.current.passRate]. *)
Definition getHealthRecommendations (healthScore : Z) (passRate : Q) (alerts : list Alert)
    : list string :=
  let recommendations := [] in
  let recommendations :=
    if healthScore <? 75
    then recommendations ++ ["Review and address active high-priority alerts"]
    else recommendations in
  let recommendations :=
    if below passRate 85
    then recommendations ++ ["Investigate quality process improvements"]
    else recommendations in
  let activeHighAlerts := active_alerts "High" alerts in
  let recommendations :=
    if 0 <? activeHighAlerts
    then recommendations ++ ["Address " +:+ pretty activeHighAlerts +:+ " critical system alerts"]
    else recommendations in
  if (length recommendations =? 0)%nat
  then recommendations ++ ["System operating within normal parameters"]
  else recommendations.

Definition calculateSystemHealth (passRate : Q) (alerts : list Alert) : SystemHealth :=
  let healthScore := 100 in
  let healthScore := if below passRate 85 then healthScore - 15
                     else if below passRate 90 then healthScore - 5
                     else healthScore in
  let highAlerts := active_alerts "High" alerts in
  let mediumAlerts := active_alerts "Medium" alerts in
  let healthScore := healthScore - (highAlerts * 10 + mediumAlerts * 5) in
  mkSystemHealth (Z.max 0 (Z.min 100 healthScore))
    (if 90 <=? healthScore then "Excellent"
     else if 75 <=? healthScore then "Good"
     else if 60 <=? healthScore then "Fair"
     else "Poor")
    (getHealthRecommendations healthScore passRate alerts).

Section Dashboard.

Variable this : CacheConfig.

(** The generators of dashboard contents (mock data drawn from the clock
    and [Math.random]) are left open: any computation will do.  Their data
    is given as the JSON value it is serialised to, which is what the cache
    holds of it: a [Date] object in the data and the string it is written
    as are not told apart here. *)
Variable generateDashboardData : M jsval.
Variable getFallbackData : M jsval.

Definition getCachedData : M (option jsval) :=
  try_catch
    (cached <- AsyncStorage_getItem (cacheKey this) ;;
     match present cached with
     | Some v =>
         parsed <- JSON_parse v ;;
         now <- Date_now ;;
         match parsed with
         | SCache data timestamp =>
             if now - timestamp <? cacheExpiry this then ret (Some data) else ret None
         | _ =>
             (* [data] and [timestamp] are undefined; the comparison with NaN is false *)
             ret None
         end
     | None => ret None
     end)
    (fun error => console_error "Cache retrieval error:" None error ;; ret None).

Definition cacheData (data : jsval) : M unit :=
  try_catch
    (timestamp <- Date_now ;;
     AsyncStorage_setItem (cacheKey this) (SCache data timestamp))
    (fun error => console_error "Cache storage error:" None error).

Definition getDashboardData : M jsval :=
  try_catch
    (cachedData <- getCachedData ;;
     match cachedData with
     | Some data =>
         if js_truthy data then ret data
         else
           dashboardData <- generateDashboardData ;;
           cacheData dashboardData ;;
           ret dashboardData
     | None =>
         dashboardData <- generateDashboardData ;;
         cacheData dashboardData ;;
         ret dashboardData
     end)
    (fun error => console_error "Dashboard data error:" None error ;; getFallbackData).

Definition clearCache : M unit :=
  try_catch
    (AsyncStorage_removeItem (cacheKey this))
    (fun error => console_error "Cache clear error:" None error).

Definition refreshData : M jsval :=
  clearCache ;;
  getDashboardData.

End Dashboard.

End Services.

(** * Sample data

    Concrete environments, worlds and inputs on which the theorems below
    are instantiated. *)

(** A quiet environment: the clock advances one millisecond per reading,
    [Math.random] is 0.5, storage never fails, every request is answered
    with [null]. *)
Definition quiet_env : Env :=
  mkEnv (fun k => 1000 + Z.of_nat k) (fun _ => 1 # 2) (fun _ => None)
    (fun _ _ => inr JNull) None (fun _ => "0.i") (fun _ => false) (fun _ => None)
    (fun s => inr s) (fun _ => None) (fun _ _ => "2026-01-01").

Definition with_replies (reply : nat -> request -> exn + jsval) (e : Env) : Env :=
  mkEnv (date_now e) (math_random e) (storage_fault e) reply (navigator e)
    (number_toString36 e) (isNaN e) (parseFloat e) (btoa e) (date_parse e)
    (iso_date_plus_months e).

Definition with_faults (fault : nat -> option exn) (e : Env) : Env :=
  mkEnv (date_now e) (math_random e) fault (axios_reply e) (navigator e)
    (number_toString36 e) (isNaN e) (parseFloat e) (btoa e) (date_parse e)
    (iso_date_plus_months e).

Definition with_random (random : nat -> Q) (e : Env) : Env :=
  mkEnv (date_now e) random (storage_fault e) (axios_reply e) (navigator e)
    (number_toString36 e) (isNaN e) (parseFloat e) (btoa e) (date_parse e)
    (iso_date_plus_months e).

Definition with_clock (clock : nat -> Z) (e : Env) : Env :=
  mkEnv clock (math_random e) (storage_fault e) (axios_reply e) (navigator e)
    (number_toString36 e) (isNaN e) (parseFloat e) (btoa e) (date_parse e)
    (iso_date_plus_months e).

(** The same, a quarter of an hour later. *)
Definition later_env : Env := with_clock (fun k => 901000 + Z.of_nat k) quiet_env.

Definition empty_world : World := mkWorld 0 0 0 0 ∅ [] [] ∅ [].

Definition sample_qr : string := "RC-L1-20240101-VND001-00001".

(** Storage that never rejects. *)
Definition healthy_storage (env : Env) : Prop :=
  forall k, storage_fault env k = None.

(** The keys under which [parseQRCode] reports the five fields of a code,
    in the order of the fields. *)
Definition parsed_keys : list string :=
  ["typeCode"; "lotNumber"; "manufactureDate"; "vendorCode"; "serialNumber"].

(** Field fidelity as the specification words it: the five reported
    fields of an accepted code are its first five parts. *)
Definition reports_the_parts (env : Env) (w : World) (qrData : string) : Prop :=
  forall data (i : nat) k,
    fst (parseQRCode env qrData w) = Ok (Parsed data) ->
    parsed_keys !! i = Some k ->
    data !! k = JStr <$> (split_dash qrData !! i).

(** A portal whose fitting record carries its own lot number. *)
Definition portal_with_lot_env : Env :=
  with_replies (fun _ _ => inr (JObj [("lotNumber", JStr "LOT-77"); ("status", JStr "Good")]))
    quiet_env.

(** The entries the master list [ids] leads to in a store [s], in the
    order of the list. *)
Definition listed_entries (s : gmap string stored) (ids : list string) : list TrackingEntry :=
  omap (fun id => match s !! ("tracking_" +:+ id) with
                  | Some (SEntry e) => Some e
                  | _ => None
                  end) ids.

(** What the key of a listed id may hold for the listing to be a listing
    of entries: an entry record, text that does not parse, or nothing. *)
Definition is_entry_record (item : option stored) : bool :=
  match item with
  | Some (SEntry _) | Some (SText _) | None => true
  | Some _ => false
  end.

(** Every id of the list leads to an entry record.  A list that names
    [master_list] does not qualify: that id leads to the master list
    itself. *)
Definition entry_records (s : gmap string stored) (ids : list string) : bool :=
  forallb (fun id => is_entry_record (s !! ("tracking_" +:+ id))) ids.

(** Most recent first. *)
Definition newest_first_sorted (l : list TrackingEntry) : Prop :=
  StronglySorted (fun a b => timestamp b <= timestamp a) l.

(** Listing as the specification words it: the listing returns every
    stored entry, most recent first. *)
Definition lists_all_newest_first (listing : M (list TrackingEntry)) (w : World) : Prop :=
  exists l, fst (listing w) = Ok l /\
            newest_first_sorted l /\
            forall k e, storage w !! k = Some (SEntry e) -> e ∈ l.

Definition sample_scan : ScanData := mkScanData "scan-1" "RC-0001" None "inspector-7" None.

(** The world after [n] scans have been tracked, one after the other. *)
Fixpoint after_scans (n : nat) : World :=
  match n with
  | O => empty_world
  | S n' => snd (trackScan quiet_env sample_scan (after_scans n'))
  end.

(** An inspection as kept under [localInspections], not yet synced. *)
Definition sample_inspection (n : nat) : InspectionPayload :=
  mkPayload ("INS-" +:+ pretty n) sample_qr "A. Kumar" "routine" (1000 + Z.of_nat n) "Unknown"
    (mkVisualInspection false false false false "Excellent")
    (mkDimensionalMeasurements None None None "within" "High")
    (mkMaterialProperties None "pass" "pass" "A")
    (mkFunctionalAssessment "good" "satisfactory" "Operational")
    (mkOverallAssessment "A" true "Low" "2026-01-01")
    "" [] [] "sig" 100 false.

Definition world_with_inspections (l : list InspectionPayload) : World :=
  mkWorld 0 0 0 0 {["localInspections" := SInspections l]} [] [] ∅ [].

Definition hundred_unsynced : list InspectionPayload := map sample_inspection (seq 0 100).

(** Retention as the specification words it: persisting a new inspection
    discards no inspection persisted before that is not yet synced. *)
Definition persisting_keeps_unsynced (env : Env) (w : World) (p : InspectionPayload) : Prop :=
  forall old q,
    storage w !! "localInspections" = Some (SInspections old) ->
    q ∈ old -> synced q = false ->
    exists new,
      storage (snd (storeInspectionLocally env p w)) !! "localInspections"
        = Some (SInspections new) /\ q ∈ new.

Definition sample_report : InspectionReport :=
  mkReport "RPT-1000" 1000 sample_qr "A. Kumar" "routine"
    (mkSummary "PASSED" "A" "Low" 100 ["All inspection parameters within acceptable limits"])
    [] [mkAction "Next inspection due: 2026-01-01" "Medium" "As scheduled" "Inspection Team"]
    (mkCompliance "Compliant" true true true true).

Definition sample_entry : TrackingEntry :=
  mkEntry "track_1000_i" "RC-0001" 1001 "inspector-7" "scanned"
    (ScanDetails "scan-1" None "qr_code" (mkDeviceInfo "web" 1002 "unknown")
       (mkNetworkStatus true "unknown")).

(** A store holding one inspection, one report and an empty master list. *)
Definition small_world : World :=
  mkWorld 0 0 0 0
    (<["localInspections" := SInspections [sample_inspection 0]]>
       (<["inspectionReports" := SReports [sample_report]]>
          {["tracking_master_list" := SIds []]}))
    [] [] ∅ [].

(** The list a key holds; a key that holds nothing counts as holding the
    empty list, which is what the services read from it. *)
Definition keeps {A} (wrap : list A -> stored) (item : option stored) (l : list A) : Prop :=
  item = Some (wrap l) \/ (item = None /\ l = []).

(** A [setItem] of [storeTrackingEntry] rejects with [error]: the write of
    the entry itself, or the write of the master list once the entry is
    written and the list read back. *)
Definition set_fails_while_storing (env : Env) (w : World) (error : exn) : Prop :=
  storage_fault env (storage_ops w) = Some error \/
  (storage_fault env (storage_ops w) = None /\
   storage_fault env (S (storage_ops w)) = None /\
   (storage w !! "tracking_master_list" = None \/
    exists ids, storage w !! "tracking_master_list" = Some (SIds ids)) /\
   storage_fault env (S (S (storage_ops w))) = Some error).

(** Storage whose every operation rejects. *)
Definition broken_storage_env : Env :=
  with_faults (fun _ => Some (mkExn StorageError "disk full")) quiet_env.

(** Idempotence as the specification words it: once [e] has been stored
    twice, the master list holds exactly one reference to it. *)
Definition stored_once (env : Env) (w : World) (e : TrackingEntry) : Prop :=
  exists ids,
    storage (snd (storeTrackingEntry env e (snd (storeTrackingEntry env e w))))
      !! "tracking_master_list" = Some (SIds ids) /\
    length (filter (fun i => i = entry_id e) ids) = 1%nat.

(** The two requests [submitToUDM] and [submitToTMS] make for a payload. *)
Definition udm_request (p : InspectionPayload) : request :=
  mkRequest "POST" (baseURL +:+ "/submit") (Some p).

Definition tms_request (p : InspectionPayload) : request :=
  mkRequest "POST" (tmsBaseURL +:+ "/submit") (Some p).

(** The request was answered with a 2xx response. *)
Definition accepted (reply : exn + jsval) : bool :=
  match reply with inr _ => true | inl _ => false end.

(** A network whose answer depends on the request alone. *)
Definition answers (env : Env) (net : request -> exn + jsval) : Prop :=
  forall k r, axios_reply env k r = net r.

(** At least one of the two portals accepts the inspection. *)
Definition uploaded (net : request -> exn + jsval) (p : InspectionPayload) : bool :=
  accepted (net (udm_request p)) || accepted (net (tms_request p)).

(** What one sync cycle makes of a stored inspection, on such a network. *)
Definition settle (net : request -> exn + jsval) (p : InspectionPayload) : InspectionPayload :=
  if synced p then p
  else if uploaded net p then mark_synced p
  else p.

(** How many elements of [l] satisfy [f]. *)
Fixpoint count_where {A} (f : A -> bool) (l : list A) : Z :=
  match l with
  | [] => 0
  | x :: rest => (if f x then 1 else 0) + count_where f rest
  end.

(** The pending-set rule as the specification words it: a sync cycle marks
    a pending inspection synced if and only if both portals accepted it. *)
Definition marks_iff_both (env : Env) (net : request -> exn + jsval) (w : World) : Prop :=
  forall l l' (i : nat) p p',
    storage w !! "localInspections" = Some (SInspections l) ->
    storage (snd (syncPendingInspections env w)) !! "localInspections"
      = Some (SInspections l') ->
    l !! i = Some p -> l' !! i = Some p' -> synced p = false ->
    (synced p' = true <->
     accepted (net (udm_request p)) = true /\ accepted (net (tms_request p)) = true).

(** UDM accepts, TMS times out. *)
Definition udm_only_net (r : request) : exn + jsval :=
  if String.eqb (url r) (baseURL +:+ "/submit")
  then inr JNull
  else inl (mkExn NetworkError "timeout of 10000ms exceeded").

Definition udm_only_env : Env := with_replies (fun _ => udm_only_net) quiet_env.

(** TMS accepts, UDM is unreachable. *)
Definition tms_only_net (r : request) : exn + jsval :=
  if String.eqb (url r) (tmsBaseURL +:+ "/submit")
  then inr JNull
  else inl (mkExn NetworkError "Network Error").

Definition tms_only_env : Env := with_replies (fun _ => tms_only_net) quiet_env.

(** The inspection form as the screen first shows it, filled in. *)
Definition sample_form : InspectionData :=
  mkInspectionData sample_qr "A. Kumar" "routine" None
    [("cracks", false); ("corrosion", false); ("deformation", false); ("surfaceDamage", false)]
    (mkDimensionalCheck "" "" "" "within")
    (mkMaterialCheck "" "pass" "pass")
    (mkFunctionalCheck "good" "satisfactory")
    "A" "" [] [].

Definition sample_payload : InspectionPayload :=
  match fst (prepareInspectionPayload tms_only_env sample_form empty_world) with
  | Ok p => p
  | Throw _ => sample_inspection 0
  end.

(** The entries of [queue] whose simulated upload times out when the
    first of them draws the [k]-th random number. *)
Fixpoint timed_out (env : Env) (k : nat) (queue : list TrackingEntry) : list TrackingEntry :=
  match queue with
  | [] => []
  | entry :: rest =>
      if negb (Qle_bool (math_random env k) double_0_9)
      then entry :: timed_out env (S k) rest
      else timed_out env (S k) rest
  end.

(** Both portals answer 400 Bad Request. *)
Definition rejecting_net (r : request) : exn + jsval :=
  inl (mkExn (HttpError 400) "Request failed with status code 400").

Definition rejecting_env : Env :=
  with_replies (fun _ _ => inl (mkExn (HttpError 400) "Request failed with status code 400"))
    quiet_env.

(** Both portals time out. *)
Definition unreachable_env : Env :=
  with_replies (fun _ _ => inl (mkExn NetworkError "timeout of 10000ms exceeded")) quiet_env.

(** The failure policy as the specification words it.  A transient error
    is retried: within the cycle some request for the pending inspection is
    made again.  A rejection is terminal: the next cycle makes no further
    request for it. *)
Definition transient_is_retried (env : Env) (w : World) : Prop :=
  (2 < length (requests (snd (syncPendingInspections env w))))%nat.

(** The same for the queue of tracking entries: a cycle in which uploads
    time out makes more attempts than there are entries. *)
Definition timeout_is_retried (env : Env) (w : World) : Prop :=
  (random_draws w + length (syncQueue w)
   < random_draws (snd (syncPendingEntries env w)))%nat.

(** Every simulated upload times out. *)
Definition always_timeout_env : Env := with_random (fun _ => 61 # 64) quiet_env.

Definition rejection_is_terminal (env : Env) (w : World) : Prop :=
  requests (snd (syncPendingInspections env (snd (syncPendingInspections env w))))
  = requests (snd (syncPendingInspections env w)).

(** The cache entry [getDashboardData] leaves behind after a miss. *)
Definition sample_dashboard : jsval :=
  JObj [("lastUpdated", JStr "2026-01-01T00:00:00.000Z"); ("scansToday", JNum 1247)].

Definition sample_generator (d : jsval) : M jsval := fun w => (Ok d, w).

Definition world_with_cache (data : jsval) (storedAt : Z) : World :=
  mkWorld 0 0 0 0 {["dashboard_data" := SCache data storedAt]} [] [] ∅ [].

(** Storage whose [k]-th operation alone rejects. *)
Definition fault_at (k : nat) : Env :=
  with_faults (fun i => if (i =? k)%nat then Some (mkExn StorageError "read failed") else None)
    quiet_env.

(** A runtime whose [btoa] rejects every string (a name outside Latin-1). *)
Definition no_btoa_env : Env :=
  mkEnv (date_now quiet_env) (math_random quiet_env) (storage_fault quiet_env)
    (axios_reply quiet_env) (navigator quiet_env) (number_toString36 quiet_env)
    (isNaN quiet_env) (parseFloat quiet_env)
    (fun _ => inl (mkExn PlainError "InvalidCharacterError"))
    (date_parse quiet_env) (iso_date_plus_months quiet_env).

(** The filled-in form with a marginal dimensional tolerance. *)
Definition marginal_form : InspectionData :=
  mkInspectionData sample_qr "A. Kumar" "routine" None
    [("cracks", false); ("corrosion", false); ("deformation", false); ("surfaceDamage", false)]
    (mkDimensionalCheck "" "" "" "marginal")
    (mkMaterialCheck "" "pass" "pass")
    (mkFunctionalCheck "good" "satisfactory")
    "A" "" [] [].

(** A grade C rail pad of vendor VND003. *)
Definition sample_fitting : AnalysedFitting :=
  mkAnalysedFitting (mkFittingData "01/01/2024" "C" None) "VND003" "RP".

(** A generator of dashboard contents that fails. *)
Definition failing_generator : M jsval :=
  fun w => (Throw (mkExn PlainError "generation failed"), w).

(** The requests a sync cycle makes for a list of stored inspections. *)
Definition cycle_requests (l : list InspectionPayload) : list request :=
  flat_map (fun p => if synced p then [] else [udm_request p; tms_request p]) l.

(** * Properties *)

(** ** Reasoning about computations in [M] *)

Ltac run :=
  repeat (progress (unfold bind, ret, throw, try_catch,
                      console_log, console_warn, console_error;
                    cbn beta iota)).

Ltac world_simpl :=
  cbn [clock_reads random_draws storage_ops net_calls storage console requests
       trackingCache syncQueue tick_clock tick_random with_storage with_console
       with_request with_trackingCache with_syncQueue] in *.

Ltac case_faults env :=
  repeat (run; world_simpl;
          cbn [array_push iterate parsed_entry present JSON_parse parsed_or_empty
               as_inspections as_reports];
          try match goal with
              | |- context [match storage_fault env ?k with _ => _ end] =>
                  destruct (storage_fault env k) eqn:?
              end).

(** ** Scores (InspectionService.calculateQualityScore, AIService.calculateBaseScore) *)

Lemma calculateBaseScore_returns env fittingData w :
  exists n, calculateBaseScore env fittingData w = (Ok n, tick_clock w) /\ 0 <= n <= 100.
Proof.
  unfold calculateBaseScore, calculateAge, Date_now. run.
  eexists. split; [reflexivity | lia].
Qed.

(** C10: the quality score of an inspection is an integer between 0 and
    100 whatever deductions apply, and computing the AI base score of a
    fitting always returns an integer between 0 and 100. *)
Theorem scores_are_clamped env (data : InspectionData) (fittingData : FittingData) (w : World) :
  0 <= calculateQualityScore data <= 100 /\
  exists n, fst (calculateBaseScore env fittingData w) = Ok n /\ 0 <= n <= 100.
Proof.
  split.
  - unfold calculateQualityScore. lia.
  - destruct (calculateBaseScore_returns env fittingData w) as (n & Hrun & Hn).
    exists n. rewrite Hrun. auto.
Qed.

(** ** QR parsing (QRService.parseQRCode) *)

Lemma foldl_insert_lookup (l : list (string * jsval)) (acc : gmap string jsval) k :
  foldl (fun o kv => <[kv.1 := kv.2]> o) acc l !! k =
  match obj_of_props l !! k with Some v => Some v | None => acc !! k end.
Proof.
  revert acc. induction l as [|[k' v] l IH]; intros acc.
  - reflexivity.
  - unfold obj_of_props. cbn [foldl]. rewrite !IH.
    destruct (obj_of_props l !! k); [reflexivity|].
    destruct (decide (k' = k)) as [->|Hne]; cbn [fst snd].
    + by rewrite !lookup_insert_eq.
    + by rewrite !lookup_insert_ne.
Qed.

Lemma obj_of_props_app (l1 l2 : list (string * jsval)) k :
  obj_of_props (l1 ++ l2) !! k =
  match obj_of_props l2 !! k with Some v => Some v | None => obj_of_props l1 !! k end.
Proof. unfold obj_of_props at 1. rewrite foldl_app. apply foldl_insert_lookup. Qed.

Lemma obj_of_props_cons k' v (l : list (string * jsval)) k :
  obj_of_props ((k', v) :: l) !! k =
  match obj_of_props l !! k with
  | Some v' => Some v'
  | None => if decide (k' = k) then Some v else None
  end.
Proof.
  change ((k', v) :: l) with ([(k', v)] ++ l). rewrite obj_of_props_app.
  destruct (obj_of_props l !! k); [reflexivity|].
  unfold obj_of_props. cbn. case_decide; subst.
  - by rewrite lookup_insert_eq.
  - by rewrite lookup_insert_ne.
Qed.

Lemma obj_of_props_absent (l : list (string * jsval)) k :
  k ∉ l.*1 -> obj_of_props l !! k = None.
Proof.
  induction l as [|[k' v] l IH]; intros Hk; [reflexivity|].
  rewrite fmap_cons, not_elem_of_cons in Hk. destruct Hk as [Hne Hk].
  rewrite obj_of_props_cons, IH by assumption.
  cbn in Hne. case_decide; congruence.
Qed.

Lemma is_type_code_spec s :
  is_type_code s = true <-> s ∈ ["RC"; "LN"; "RP"; "SL"].
Proof.
  unfold is_type_code. rewrite !orb_true_iff, !String.eqb_eq.
  rewrite !elem_of_cons, elem_of_nil. tauto.
Qed.

Lemma parsed_keys_cases (i : nat) k :
  parsed_keys !! i = Some k ->
  ((i = 0 /\ k = "typeCode") \/ (i = 1 /\ k = "lotNumber") \/ (i = 2 /\ k = "manufactureDate")
  \/ (i = 3 /\ k = "vendorCode") \/ (i = 4 /\ k = "serialNumber"))%nat.
Proof.
  unfold parsed_keys. intros H.
  do 5 (destruct i as [|i]; [cbn in H; injection H as <-; tauto|]).
  cbn in H. discriminate.
Qed.

Lemma getFittingDetails_returns env qrData w type lot date rest :
  split_dash qrData = type :: lot :: date :: rest ->
  exists details w',
    getFittingDetails env qrData w = (Ok details, w') /\
    ((storage_fault env (storage_ops w) = None /\
      axios_reply env (net_calls w) (mkRequest "GET" (QR_baseURL +:+ "/fittings/" +:+ qrData) None)
        = inr details)
     \/ (forall k, k ∈ parsed_keys -> obj_of_props (own_props details) !! k = None)).
Proof.
  intros Hparts.
  assert (Hmock : forall e w0, exists details w',
             (console_warn "UDM API error:" None e ;; getMockFittingDetails env qrData) w0
               = (Ok details, w') /\
             forall k, k ∈ parsed_keys -> obj_of_props (own_props details) !! k = None).
  { intros e w0. unfold getMockFittingDetails, console_warn, Math_random, Date_now.
    rewrite Hparts. run. do 2 eexists. split; [reflexivity|].
    intros k Hk. apply obj_of_props_absent. cbn [own_props fmap list_fmap fst].
    unfold parsed_keys in Hk. rewrite !elem_of_cons, elem_of_nil in Hk.
    rewrite !not_elem_of_cons. 
    repeat split; try apply not_elem_of_nil;
      intros ->; repeat (destruct Hk as [Hk|Hk]; [discriminate|]); exact Hk. }
  unfold getFittingDetails, AsyncStorage_getItem, storage_call, axios_get, axios_send.
  unfold try_catch at 1. unfold bind at 1.
  destruct (storage_fault env (storage_ops w)) as [e|] eqn:Hfault.
  - destruct (Hmock e (with_storage (fun s => s) w)) as (details & w' & Hrun & Hkeys).
    exists details, w'. split; [exact Hrun | right; exact Hkeys].
  - cbn [net_calls with_storage].
    destruct (axios_reply env (net_calls w) _) as [e|details] eqn:Hreply.
    + destruct (Hmock e (with_request (mkRequest "GET" (QR_baseURL +:+ "/fittings/" +:+ qrData) None)
                           (with_storage (fun s => s) w)))
        as (details & w' & Hrun & Hkeys).
      exists details, w'. split; [exact Hrun | right; exact Hkeys].
    + do 2 eexists. split; [reflexivity | left; split; reflexivity].
Qed.

Lemma parseQRCode_accepted env qrData w details w' :
  (length (split_dash qrData) <? 5)%nat = false ->
  is_type_code (default "" (split_dash qrData !! 0%nat)) = true ->
  getFittingDetails env qrData w = (Ok details, w') ->
  parseQRCode env qrData w =
  (Ok (Parsed (obj_of_props
                 ([("qrCode", JStr qrData);
                   ("type", JStr (getFittingTypeName (default "" (split_dash qrData !! 0%nat))));
                   ("typeCode", JStr (default "" (split_dash qrData !! 0%nat)));
                   ("lotNumber", JStr (default "" (split_dash qrData !! 1%nat)));
                   ("manufactureDate", JStr (default "" (split_dash qrData !! 2%nat)));
                   ("vendorCode", JStr (default "" (split_dash qrData !! 3%nat)));
                   ("serialNumber", JStr (default "" (split_dash qrData !! 4%nat)))]
                  ++ own_props details))), w').
Proof.
  intros Hlen Hty Hrun. unfold parseQRCode, try_catch. rewrite Hlen, Hty. cbn [negb].
  unfold bind. rewrite Hrun. reflexivity.
Qed.

(** C9: a code with fewer than five dash-separated parts, or whose first
    part is not one of RC, LN, RP, SL, is refused with an error message and
    the world is left untouched (no lookup is made).  An accepted code is
    looked up and reported: each of typeCode, lotNumber, manufactureDate,
    vendorCode and serialNumber is the part of that position, unless the
    fetched fitting details carry a property of that name, which then takes
    its place (the details are spread last); details that did not come from
    the portal (the offline mock) carry none of them. *)
Theorem parseQRCode_rejects_or_reports env (w : World) (qrData : string) :
  ((length (split_dash qrData) < 5)%nat \/
   default "" (split_dash qrData !! 0%nat) ∉ ["RC"; "LN"; "RP"; "SL"] ->
   exists error, parseQRCode env qrData w = (Ok (ParseFailed error), w)) /\
  ((5 <= length (split_dash qrData))%nat ->
   default "" (split_dash qrData !! 0%nat) ∈ ["RC"; "LN"; "RP"; "SL"] ->
   exists details data w',
     getFittingDetails env qrData w = (Ok details, w') /\
     parseQRCode env qrData w = (Ok (Parsed data), w') /\
     (forall (i : nat) k, parsed_keys !! i = Some k ->
        data !! k = match obj_of_props (own_props details) !! k with
                    | Some v => Some v
                    | None => JStr <$> (split_dash qrData !! i)
                    end) /\
     ((storage_fault env (storage_ops w) = None /\
       axios_reply env (net_calls w) (mkRequest "GET" (QR_baseURL +:+ "/fittings/" +:+ qrData) None)
         = inr details)
      \/ (forall k, k ∈ parsed_keys -> obj_of_props (own_props details) !! k = None))).
Proof.
  split.
  - intros Hbad. unfold parseQRCode, try_catch.
    destruct (length (split_dash qrData) <? 5)%nat eqn:Hlen.
    + eexists. reflexivity.
    + apply Nat.ltb_ge in Hlen. destruct Hbad as [Hlt|Hty]; [lia|].
      rewrite <- is_type_code_spec in Hty. apply not_true_is_false in Hty.
      rewrite Hty. cbn. eexists. reflexivity.
  - intros Hlen Hty.
    assert (Hl : (length (split_dash qrData) <? 5)%nat = false) by (apply Nat.ltb_ge; lia).
    apply is_type_code_spec in Hty.
    assert (Hshape : exists type lot date rest, split_dash qrData = type :: lot :: date :: rest).
    { destruct (split_dash qrData) as [|type [|lot [|date rest]]]; cbn in Hlen; try lia. eauto. }
    destruct Hshape as (type & lot & date & rest & Hparts).
    destruct (getFittingDetails_returns env qrData w type lot date rest Hparts)
      as (details & w' & Hrun & Horigin).
    exists details. eexists. exists w'. split; [exact Hrun|].
    split; [exact (parseQRCode_accepted env qrData w details w' Hl Hty Hrun)|].
    split; [|exact Horigin].
    intros i k Hk. rewrite obj_of_props_app.
    destruct (obj_of_props (own_props details) !! k); [reflexivity|].
    apply parsed_keys_cases in Hk.
    destruct (split_dash qrData) as [|p0 [|p1 [|p2 [|p3 [|p4 ps]]]]]; cbn in Hlen; try lia.
    destruct Hk as [[-> ->]|[[-> ->]|[[-> ->]|[[-> ->]|[-> ->]]]]]; reflexivity.
Qed.

Lemma parseQRCode_rejects_or_reports_witness :
  (exists error,
     parseQRCode quiet_env "RC-L1" empty_world = (Ok (ParseFailed error), empty_world)) /\
  (exists data w',
     parseQRCode quiet_env sample_qr empty_world = (Ok (Parsed data), w') /\
     data !! "lotNumber" = Some (JStr "L1")).
Proof.
  split.
  - apply (proj1 (parseQRCode_rejects_or_reports quiet_env empty_world "RC-L1")).
    left. vm_compute. lia.
  - destruct (proj2 (parseQRCode_rejects_or_reports quiet_env empty_world sample_qr))
      as (details & data & w' & Hdetails & Hparse & Hfields & _).
    + vm_compute. lia.
    + apply is_type_code_spec. reflexivity.
    + exists data, w'. split; [exact Hparse|].
      rewrite (Hfields 1%nat "lotNumber" eq_refl).
      vm_compute in Hdetails. injection Hdetails as <- _. reflexivity.
Defined.

(** C9, as worded, fails: a portal record that has a lot number of its own
    replaces the one parsed from the code. *)
Lemma portal_lot_replaces_parsed_lot :
  ~ reports_the_parts portal_with_lot_env empty_world sample_qr.
Proof.
  intros Hclaim.
  assert (Hrun : exists data,
             fst (parseQRCode portal_with_lot_env sample_qr empty_world) = Ok (Parsed data) /\
             data !! "lotNumber" = Some (JStr "LOT-77")).
  { eexists. split; vm_compute; reflexivity. }
  destruct Hrun as (data & Hparse & Hlot).
  specialize (Hclaim data 1%nat "lotNumber" Hparse eq_refl).
  rewrite Hlot in Hclaim. vm_compute in Hclaim. discriminate.
Qed.

(** ** Listing tracked entries (TrackingService.getAllTrackingEntries, getRecentActivity) *)

Lemma sort_insert_perm {A} (cmp : A -> A -> Z) x l : sort_insert cmp x l ≡ₚ x :: l.
Proof.
  induction l as [|y l IH]; cbn; [reflexivity|].
  destruct (cmp x y <=? 0); [reflexivity|].
  rewrite IH. apply Permutation_swap.
Qed.

Lemma js_sort_perm {A} (cmp : A -> A -> Z) l : js_sort cmp l ≡ₚ l.
Proof.
  induction l as [|x l IH]; cbn; [reflexivity|].
  rewrite sort_insert_perm. by rewrite IH.
Qed.

Lemma sort_insert_newest_first x l :
  newest_first_sorted l -> newest_first_sorted (sort_insert newest_first x l).
Proof.
  unfold newest_first_sorted. induction 1 as [|y l Hsorted IH Hy]; cbn.
  - repeat constructor.
  - unfold newest_first at 1. destruct (Z.leb_spec (timestamp y - timestamp x) 0) as [Hle|Hgt].
    + constructor; [by constructor|]. constructor; [lia|].
      eapply Forall_impl; [exact Hy|]. cbn. intros z Hz. lia.
    + constructor; [exact IH|].
      rewrite sort_insert_perm. constructor; [lia | exact Hy].
Qed.

Lemma js_sort_newest_first l : newest_first_sorted (js_sort newest_first l).
Proof.
  induction l as [|x l IH]; cbn; [constructor|]. by apply sort_insert_newest_first.
Qed.

Lemma take_newest_first n l : newest_first_sorted l -> newest_first_sorted (take n l).
Proof.
  unfold newest_first_sorted. intros H. revert n.
  induction H as [|y l Hsorted IH Hy]; intros [|n]; cbn; try constructor.
  - apply IH.
  - apply Forall_take. exact Hy.
Qed.

Lemma slice0_is_take {A} n (l : list A) : exists m, slice0 n l = take m l.
Proof. unfold slice0. destruct (n <? 0); eauto. Qed.

Lemma slice0_all {A} n (l : list A) : Z.of_nat (length l) <= n -> slice0 n l = l.
Proof.
  intros H. unfold slice0. destruct (Z.ltb_spec n 0); [lia|].
  apply take_ge. lia.
Qed.

Lemma load_entries env (Hs : healthy_storage env) ids :
  forall acc w, exists w',
    for_of ids (load_entry env) acc w = (Ok (acc ++ listed_entries (storage w) ids), w') /\
    storage w' = storage w.
Proof.
  induction ids as [|entryId ids IH]; intros acc w.
  - exists w. cbn. rewrite app_nil_r. auto.
  - cbn [for_of]. unfold bind at 1.
    unfold load_entry at 1, try_catch, bind at 1, AsyncStorage_getItem, storage_call.
    rewrite Hs. unfold listed_entries. cbn [omap list_omap].
    fold (listed_entries (storage w) ids).
    destruct (storage w !! ("tracking_" +:+ entryId)) as [[[|c s]|e|l|l|l|d t]|] eqn:Hread;
      cbn [present JSON_parse parsed_entry]; run; cbn [parsed_entry]; run;
      match goal with
      | |- context [for_of ids (load_entry env) ?acc' ?w1] =>
          destruct (IH acc' w1) as (w' & Hrun & Hst)
      end;
      exists w'; rewrite Hrun, Hst; cbn [storage with_storage with_console];
      split; try reflexivity.
    by rewrite <- app_assoc.
Qed.

Lemma getAllTrackingEntries_listed env (Hs : healthy_storage env) w ids :
  storage w !! "tracking_master_list" = Some (SIds ids) ->
  exists w', getAllTrackingEntries env w = (Ok (listed_entries (storage w) ids), w') /\
             storage w' = storage w.
Proof.
  intros Hlist.
  unfold getAllTrackingEntries, getMasterTrackingList, AsyncStorage_getItem, storage_call.
  unfold try_catch at 1. unfold bind at 1. unfold try_catch at 1. unfold bind at 1.
  rewrite Hs, Hlist. cbn [present JSON_parse ret iterate]. unfold bind at 1. cbn [ret].
  destruct (load_entries env Hs ids [] (with_storage (fun s => s) w)) as (w' & Hrun & Hst).
  exists w'. rewrite Hrun. auto.
Qed.

Lemma entry_records_not_master_list (s : gmap string stored) ids :
  s !! "tracking_master_list" = Some (SIds ids) ->
  entry_records s ids = true ->
  "master_list" ∉ ids.
Proof.
  intros Hlist Hrecords Hin. unfold entry_records in Hrecords.
  rewrite forallb_forall in Hrecords.
  specialize (Hrecords "master_list" (proj1 (list_elem_of_In _ _) Hin)).
  change ("tracking_" +:+ "master_list") with "tracking_master_list" in Hrecords.
  rewrite Hlist in Hrecords. discriminate.
Qed.

(** C8: with storage in working order and a master list whose ids lead to
    entry records (so not to the master list itself, which the id
    [master_list] would lead to), [getAllTrackingEntries] returns the
    entries of the master list in the order of the list, which is the
    order they were stored in, not sorted; it is [getRecentActivity] that
    sorts, most recent first, and it returns only the first [limit] of
    them: a sorted selection of the listed entries, all of them when
    [limit] is not smaller than their number. *)
Theorem listing_order env (w : World) (ids : list string) (limit : Z) :
  healthy_storage env ->
  storage w !! "tracking_master_list" = Some (SIds ids) ->
  entry_records (storage w) ids = true ->
  fst (getAllTrackingEntries env w) = Ok (listed_entries (storage w) ids) /\
  exists recent,
    fst (getRecentActivity env limit w) = Ok recent /\
    recent = slice0 limit (js_sort newest_first (listed_entries (storage w) ids)) /\
    newest_first_sorted recent /\
    recent ⊆ listed_entries (storage w) ids /\
    (Z.of_nat (length (listed_entries (storage w) ids)) <= limit ->
     recent ≡ₚ listed_entries (storage w) ids).
Proof.
  intros Hs Hlist _.
  destruct (getAllTrackingEntries_listed env Hs w ids Hlist) as (w' & Hrun & _).
  split; [by rewrite Hrun|].
  eexists. split; [|split; [reflexivity|]].
  - unfold getRecentActivity, try_catch, bind. rewrite Hrun. reflexivity.
  - split; [|split].
    + destruct (slice0_is_take limit (js_sort newest_first (listed_entries (storage w) ids)))
        as [m ->].
      apply take_newest_first, js_sort_newest_first.
    + destruct (slice0_is_take limit (js_sort newest_first (listed_entries (storage w) ids)))
        as [m ->].
      intros e He. apply (subseteq_take m) in He.
      by rewrite js_sort_perm in He.
    + intros Hlen. rewrite slice0_all; [apply js_sort_perm|].
      by rewrite js_sort_perm.
Qed.

Lemma quiet_env_healthy : healthy_storage quiet_env.
Proof. intros k. reflexivity. Qed.

Lemma listing_order_witness :
  fst (getAllTrackingEntries quiet_env (after_scans 2))
  = Ok (listed_entries (storage (after_scans 2)) ["track_1000_i"; "track_1003_i"]).
Proof.
  refine (proj1 (listing_order quiet_env (after_scans 2) ["track_1000_i"; "track_1003_i"] 20
                   _ _ _)).
  - intros k. reflexivity.
  - vm_compute. reflexivity.
  - vm_compute. reflexivity.
Defined.

(** C8, as worded, fails: two scans tracked one after the other are listed
    oldest first by [getAllTrackingEntries], and after twenty-one scans
    [getRecentActivity], with its default limit, no longer returns the
    first of them. *)
Lemma listing_is_neither_sorted_nor_complete :
  ~ lists_all_newest_first (getAllTrackingEntries quiet_env) (after_scans 2) /\
  ~ lists_all_newest_first (getRecentActivity quiet_env getRecentActivity_default_limit)
      (after_scans 21).
Proof.
  split.
  - intros (l & Hl & Hsorted & _).
    vm_compute in Hl. injection Hl as <-.
    inversion Hsorted as [|? ? _ Hall]. inversion Hall as [|? ? Hle _].
    cbn in Hle. lia.
  - intros (l & Hl & _ & Hall).
    assert (Hfirst : exists e,
               storage (after_scans 21) !! "tracking_track_1000_i" = Some (SEntry e) /\
               timestamp e = 1001).
    { eexists. split; vm_compute; reflexivity. }
    destruct Hfirst as (e & He & Hts).
    apply Hall in He. apply (list_elem_of_fmap_2 timestamp) in He. rewrite Hts in He.
    vm_compute in Hl. injection Hl as <-. cbn in He.
    rewrite !elem_of_cons, elem_of_nil in He. lia.
Qed.

(** ** Retention of persisted records (storeInspectionLocally, storeReportLocally,
       storeTrackingEntry, clearTrackingData) *)

Lemma keep_last_drop {A} n (l : list A) : keep_last n l = drop (length l - n) l.
Proof.
  unfold keep_last. destruct (Nat.ltb_spec n (length l)); [reflexivity|].
  replace (length l - n)%nat with 0%nat by lia. reflexivity.
Qed.

Lemma keep_last_all {A} n (l : list A) : (length l <= n)%nat -> keep_last n l = l.
Proof.
  intros H. unfold keep_last. destruct (Nat.ltb_spec n (length l)); [lia | reflexivity].
Qed.

Lemma storeInspectionLocally_healthy env w old p :
  healthy_storage env ->
  storage w !! "localInspections" = old ->
  (old = None \/ exists l, old = Some (SInspections l)) ->
  let l := match old with Some (SInspections l) => l | _ => [] end in
  exists w', storeInspectionLocally env p w = (Ok tt, w') /\
             storage w' = <["localInspections" := SInspections (keep_last 100 (l ++ [p]))]> (storage w).
Proof.
  intros Hs Hold Hshape.
  unfold storeInspectionLocally, AsyncStorage_getItem, AsyncStorage_setItem, storage_call.
  run. rewrite Hs, Hold.
  destruct Hshape as [->|[l ->]]; cbn [parsed_or_empty present JSON_parse as_inspections];
    run; cbn [as_inspections]; run; world_simpl; rewrite Hs; eexists; split; reflexivity.
Qed.

Lemma storeReportLocally_healthy env w old r :
  healthy_storage env ->
  storage w !! "inspectionReports" = old ->
  (old = None \/ exists l, old = Some (SReports l)) ->
  let l := match old with Some (SReports l) => l | _ => [] end in
  exists w', storeReportLocally env r w = (Ok tt, w') /\
             storage w' = <["inspectionReports" := SReports (keep_last 50 (l ++ [r]))]> (storage w).
Proof.
  intros Hs Hold Hshape.
  unfold storeReportLocally, AsyncStorage_getItem, AsyncStorage_setItem, storage_call.
  run. rewrite Hs, Hold.
  destruct Hshape as [->|[l ->]]; cbn [parsed_or_empty present JSON_parse as_reports];
    run; cbn [as_reports]; run; world_simpl; rewrite Hs; eexists; split; reflexivity.
Qed.

Lemma storeTrackingEntry_total env e w :
  exists w', storeTrackingEntry env e w = (Ok tt, w') /\
             trackingCache w' = trackingCache w /\ syncQueue w' = syncQueue w /\
             requests w' = requests w /\
             (forall k, is_Some (storage w !! k) -> is_Some (storage w' !! k)).
Proof.
  assert (Hkeep : forall k v v' (s : gmap string stored) k',
             is_Some (s !! k') -> is_Some (<[k := v]> (<["tracking_" +:+ entry_id e := v']> s) !! k')).
  { intros k v v' s k' Hk. rewrite !lookup_insert_is_Some.
    destruct (decide (k = k')); destruct (decide ("tracking_" +:+ entry_id e = k')); auto. }
  assert (Hkeep1 : forall v' (s : gmap string stored) k',
             is_Some (s !! k') -> is_Some (<["tracking_" +:+ entry_id e := v']> s !! k')).
  { intros v' s k' Hk. rewrite !lookup_insert_is_Some.
    destruct (decide ("tracking_" +:+ entry_id e = k')); auto. }
  unfold storeTrackingEntry, getMasterTrackingList, AsyncStorage_getItem,
    AsyncStorage_setItem, storage_call.
  case_faults env;
    try (destruct (<["tracking_" +:+ entry_id e := SEntry e]> (storage w) !! "tracking_master_list")
           as [[[|c s]|e'|ids|l|l|d t]|]);
    case_faults env;
    eexists; (split; [reflexivity|]); world_simpl; repeat split; auto.
Qed.

Lemma remove_entries env (Hs : healthy_storage env) ids :
  forall w, exists w',
    for_of ids (fun _ entryId => AsyncStorage_removeItem env ("tracking_" +:+ entryId)) tt w
      = (Ok tt, w') /\
    trackingCache w' = trackingCache w /\ syncQueue w' = syncQueue w /\
    forall k, storage w' !! k = if decide (k ∈ (fun id => "tracking_" +:+ id) <$> ids)
                                then None else storage w !! k.
Proof.
  induction ids as [|entryId ids IH]; intros w.
  - exists w. cbn. repeat split; auto. 
  - cbn [for_of]. unfold bind at 1, AsyncStorage_removeItem at 1, storage_call. rewrite Hs.
    destruct (IH (with_storage (fun s => delete ("tracking_" +:+ entryId) s) w))
      as (w' & Hrun & Hc & Hq & Hst).
    exists w'. rewrite Hrun. world_simpl. repeat split; auto.
    intros k. rewrite Hst, fmap_cons.
    destruct (decide (k ∈ (fun id => "tracking_" +:+ id) <$> ids)) as [Hin|Hnin].
    + rewrite decide_True by (by right). reflexivity.
    + destruct (decide (k = "tracking_" +:+ entryId)) as [->|Hne].
      * rewrite lookup_delete_eq, decide_True by left. reflexivity.
      * rewrite lookup_delete_ne by congruence.
        rewrite decide_False; [reflexivity|]. rewrite elem_of_cons. tauto.
Qed.

Lemma clearTrackingData_healthy env w ids :
  healthy_storage env ->
  storage w !! "tracking_master_list" = Some (SIds ids) ->
  exists w', clearTrackingData env w = (Ok Cleared, w') /\
             (forall id, id ∈ ids -> storage w' !! ("tracking_" +:+ id) = None) /\
             storage w' !! "tracking_master_list" = None /\
             trackingCache w' = ∅ /\ syncQueue w' = [].
Proof.
  intros Hs Hlist.
  unfold clearTrackingData, getMasterTrackingList, AsyncStorage_getItem, storage_call.
  unfold try_catch at 1. unfold bind at 1. unfold try_catch at 1. unfold bind at 1.
  rewrite Hs, Hlist. cbn [present JSON_parse ret iterate]. unfold bind at 1. cbn [ret].
  unfold bind at 1.
  destruct (remove_entries env Hs ids (with_storage (fun s => s) w)) as (w1 & Hrun & _ & _ & Hst).
  rewrite Hrun. unfold AsyncStorage_removeItem, storage_call. run. rewrite Hs. world_simpl.
  eexists. split; [reflexivity|]. world_simpl. repeat split.
  - intros id Hid. destruct (decide ("tracking_" +:+ id = "tracking_master_list")) as [->|Hne].
    + apply lookup_delete_eq.
    + rewrite lookup_delete_ne by congruence. rewrite Hst.
      rewrite decide_True; [reflexivity|]. by apply list_elem_of_fmap_2.
  - apply lookup_delete_eq.
Qed.

Lemma tracking_key_inj a b : "tracking_" +:+ a = "tracking_" +:+ b -> a = b.
Proof. cbn. intros H. by injection H. Qed.

Lemma storeTrackingEntry_other_keys env e w k :
  k <> "tracking_" +:+ entry_id e ->
  k <> "tracking_master_list" ->
  storage (snd (storeTrackingEntry env e w)) !! k = storage w !! k.
Proof.
  intros Hentry Hlist.
  unfold storeTrackingEntry, getMasterTrackingList, AsyncStorage_getItem,
    AsyncStorage_setItem, storage_call.
  case_faults env;
    try (destruct (<["tracking_" +:+ entry_id e := SEntry e]> (storage w) !! "tracking_master_list")
           as [[[|c s]|e'|ids|l|l|d t]|]);
    case_faults env; cbn [snd]; world_simpl;
    rewrite ?lookup_insert_ne by congruence; reflexivity.
Qed.

Lemma storeTrackingEntry_kept env e w ids :
  healthy_storage env ->
  entry_id e <> "master_list" ->
  keeps SIds (storage w !! "tracking_master_list") ids ->
  exists w', storeTrackingEntry env e w = (Ok tt, w') /\
             storage w' = <["tracking_master_list" := SIds (ids ++ [entry_id e])]>
                            (<["tracking_" +:+ entry_id e := SEntry e]> (storage w)).
Proof.
  intros Hs Hid Hlist.
  assert (Hkey : "tracking_" +:+ entry_id e <> "tracking_master_list").
  { intros H. apply Hid. by apply tracking_key_inj. }
  unfold storeTrackingEntry, getMasterTrackingList, AsyncStorage_getItem,
    AsyncStorage_setItem, storage_call.
  run. rewrite Hs. run. world_simpl. rewrite Hs. run. world_simpl.
  rewrite lookup_insert_ne by exact Hkey.
  destruct Hlist as [->|[-> ->]]; cbn [present JSON_parse array_push]; run;
    cbn [array_push]; run; world_simpl; rewrite Hs; eexists; split; reflexivity.
Qed.

Lemma clearTrackingData_kept env w ids :
  healthy_storage env ->
  keeps SIds (storage w !! "tracking_master_list") ids ->
  exists w', clearTrackingData env w = (Ok Cleared, w') /\
             (forall id, id ∈ ids -> storage w' !! ("tracking_" +:+ id) = None) /\
             storage w' !! "tracking_master_list" = None /\
             trackingCache w' = ∅ /\ syncQueue w' = [].
Proof.
  intros Hs [Hlist|[Hnone ->]]; [by apply clearTrackingData_healthy|].
  unfold clearTrackingData, getMasterTrackingList, AsyncStorage_getItem,
    AsyncStorage_removeItem, storage_call.
  run. rewrite Hs, Hnone. cbn [present iterate]. run. cbn [for_of]. run. world_simpl.
  rewrite Hs. eexists. split; [reflexivity|]. world_simpl. repeat split.
  - intros id Hid. inversion Hid.
  - apply lookup_delete_eq.
Qed.

(** C7: persisting a record does not remove what was persisted before,
    but for the retention cap of its list and the record of the same id.
    With storage in working order, [storeInspectionLocally] leaves the last
    100 of the old inspections followed by the new one, and
    [storeReportLocally] the last 50 of the reports: nothing is dropped
    while fewer than 100 (50) were stored, and beyond that the oldest go
    whatever their [synced] flag.  [storeTrackingEntry], faults or not,
    leaves every key as it was but the entry's own and the master list's,
    and removes no key; with storage in working order the entry's key then
    holds the new entry, in place of an entry stored there under the same
    id, and the master list holds what it held followed by the id.
    Tracked entries go when [clearTrackingData] is called, which removes
    every listed entry, the master list, the cache and the sync queue.  (A
    key that holds nothing yet counts as the empty list.) *)
Theorem persisting_keeps_the_latest env (w : World)
    (inspections : list InspectionPayload) (reports : list InspectionReport)
    (ids : list string) (p : InspectionPayload) (r : InspectionReport) (e : TrackingEntry) :
  healthy_storage env ->
  keeps SInspections (storage w !! "localInspections") inspections ->
  keeps SReports (storage w !! "inspectionReports") reports ->
  keeps SIds (storage w !! "tracking_master_list") ids ->
  (storage (snd (storeInspectionLocally env p w)) !! "localInspections"
     = Some (SInspections (drop (length inspections + 1 - 100) (inspections ++ [p]))) /\
   ((length inspections < 100)%nat ->
    storage (snd (storeInspectionLocally env p w)) !! "localInspections"
      = Some (SInspections (inspections ++ [p])))) /\
  (storage (snd (storeReportLocally env r w)) !! "inspectionReports"
     = Some (SReports (drop (length reports + 1 - 50) (reports ++ [r]))) /\
   ((length reports < 50)%nat ->
    storage (snd (storeReportLocally env r w)) !! "inspectionReports"
      = Some (SReports (reports ++ [r])))) /\
  ((forall env' w' k,
      k <> "tracking_" +:+ entry_id e -> k <> "tracking_master_list" ->
      storage (snd (storeTrackingEntry env' e w')) !! k = storage w' !! k) /\
   (forall env' w' k,
      is_Some (storage w' !! k) -> is_Some (storage (snd (storeTrackingEntry env' e w')) !! k)) /\
   (entry_id e <> "master_list" ->
    storage (snd (storeTrackingEntry env e w)) !! ("tracking_" +:+ entry_id e)
      = Some (SEntry e) /\
    storage (snd (storeTrackingEntry env e w)) !! "tracking_master_list"
      = Some (SIds (ids ++ [entry_id e])))) /\
  (fst (clearTrackingData env w) = Ok Cleared /\
   (forall id, id ∈ ids ->
               storage (snd (clearTrackingData env w)) !! ("tracking_" +:+ id) = None) /\
   storage (snd (clearTrackingData env w)) !! "tracking_master_list" = None /\
   trackingCache (snd (clearTrackingData env w)) = ∅ /\
   syncQueue (snd (clearTrackingData env w)) = []).
Proof.
  intros Hs Hinsp Hrep Hlist.
  assert (Hinsp' : exists w',
             storeInspectionLocally env p w = (Ok tt, w') /\
             storage w' = <["localInspections" := SInspections (keep_last 100 (inspections ++ [p]))]>
                            (storage w)).
  { destruct Hinsp as [Hold|[Hold ->]].
    - destruct (storeInspectionLocally_healthy env w _ p Hs Hold) as (w' & Hrun & Hst); eauto.
    - destruct (storeInspectionLocally_healthy env w _ p Hs Hold) as (w' & Hrun & Hst); eauto. }
  assert (Hrep' : exists w',
             storeReportLocally env r w = (Ok tt, w') /\
             storage w' = <["inspectionReports" := SReports (keep_last 50 (reports ++ [r]))]>
                            (storage w)).
  { destruct Hrep as [Hold|[Hold ->]].
    - destruct (storeReportLocally_healthy env w _ r Hs Hold) as (w' & Hrun & Hst); eauto.
    - destruct (storeReportLocally_healthy env w _ r Hs Hold) as (w' & Hrun & Hst); eauto. }
  destruct Hinsp' as (wi & Hruni & Hsti). destruct Hrep' as (wr & Hrunr & Hstr).
  destruct (clearTrackingData_kept env w ids Hs Hlist) as (wc & Hrunc & Hgone & Hnolist & Hc & Hq).
  rewrite Hruni, Hrunr, Hrunc. cbn [fst snd]. repeat apply conj.
  - rewrite Hsti, lookup_insert_eq, keep_last_drop, length_app. reflexivity.
  - intros Hlen. rewrite Hsti, lookup_insert_eq, keep_last_all; [reflexivity|].
    rewrite length_app. cbn. lia.
  - rewrite Hstr, lookup_insert_eq, keep_last_drop, length_app. reflexivity.
  - intros Hlen. rewrite Hstr, lookup_insert_eq, keep_last_all; [reflexivity|].
    rewrite length_app. cbn. lia.
  - intros env' w' k. apply storeTrackingEntry_other_keys.
  - intros env' w' k.
    destruct (storeTrackingEntry_total env' e w') as (w'' & -> & _ & _ & _ & Hkeep). apply Hkeep.
  - intros Hid.
    destruct (storeTrackingEntry_kept env e w ids Hs Hid Hlist) as (w' & -> & Hst).
    cbn [snd]. rewrite Hst. split.
    + rewrite lookup_insert_ne, lookup_insert_eq; [reflexivity|].
      intros H. apply Hid. symmetry. by apply tracking_key_inj.
    + apply lookup_insert_eq.
  - reflexivity.
  - exact Hgone.
  - exact Hnolist.
  - exact Hc.
  - exact Hq.
Qed.

Lemma persisting_keeps_the_latest_witness :
  storage (snd (storeInspectionLocally quiet_env (sample_inspection 1) small_world))
    !! "localInspections"
  = Some (SInspections (drop (1 + 1 - 100) ([sample_inspection 0] ++ [sample_inspection 1]))).
Proof.
  refine (proj1 (proj1 (persisting_keeps_the_latest quiet_env small_world
                          [sample_inspection 0] [sample_report] []
                          (sample_inspection 1) sample_report sample_entry _ _ _ _))).
  - intros k. reflexivity.
  - left. vm_compute. reflexivity.
  - left. vm_compute. reflexivity.
  - left. vm_compute. reflexivity.
Defined.

(** C7, as worded, fails: with a hundred inspections stored, none of them
    synced, persisting one more discards the oldest. *)
Lemma hundred_and_first_inspection_evicts_unsynced :
  ~ persisting_keeps_unsynced quiet_env (world_with_inspections hundred_unsynced)
      (sample_inspection 100).
Proof.
  intros Hclaim.
  destruct (Hclaim hundred_unsynced (sample_inspection 0)) as (new & Hnew & Hin).
  - vm_compute. reflexivity.
  - unfold hundred_unsynced. apply list_elem_of_fmap. exists 0%nat.
    split; [reflexivity|]. apply elem_of_seq. lia.
  - reflexivity.
  - vm_compute in Hnew. injection Hnew as <-.
    apply list_elem_of_In in Hin.
    eapply (proj1 (forallb_forall
                     (fun q => negb (String.eqb (inspectionId q) "INS-0")) _)) in Hin.
    + vm_compute in Hin. discriminate.
    + vm_compute. reflexivity.
Qed.

(** ** Capture (TrackingService.trackScan, storeTrackingEntry) *)

Lemma storeTrackingEntry_set_fault env e w error :
  entry_id e <> "master_list" ->
  set_fails_while_storing env w error ->
  exists w', storeTrackingEntry env e w = (Ok tt, w') /\
             console w' = console w ++ [mkLine LError "Store tracking entry error:" None (Some error)] /\
             trackingCache w' = trackingCache w /\ syncQueue w' = syncQueue w.
Proof.
  intros Hid Hfault.
  assert (Hkey : "tracking_" +:+ entry_id e <> "tracking_master_list").
  { intros H. apply Hid. by apply tracking_key_inj. }
  unfold storeTrackingEntry, getMasterTrackingList, AsyncStorage_getItem,
    AsyncStorage_setItem, storage_call.
  destruct Hfault as [H0|(H0 & H1 & Hlist & H2)].
  - run. rewrite H0. run. eexists. split; [reflexivity|]. world_simpl. auto.
  - run. rewrite H0. run. world_simpl. rewrite H1. run. world_simpl.
    rewrite lookup_insert_ne by exact Hkey.
    destruct Hlist as [->|[ids ->]]; cbn [present JSON_parse array_push]; run;
      cbn [array_push]; run; world_simpl; rewrite H2; run;
      eexists; (split; [reflexivity|]); world_simpl; auto.
Qed.

Lemma trackScan_enqueues env scanData w :
  exists entry w',
    trackScan env scanData w = (Ok (Some entry), w') /\
    trackingCache w' !! entry_id entry = Some entry /\
    syncQueue w' = syncQueue w ++ [entry] /\
    exists random, entry_id entry = "track_" +:+ random.
Proof.
  unfold trackScan, generateTrackingId, getDeviceInfo, getNetworkStatus, Date_now, Math_random.
  run.
  match goal with
  | |- context [storeTrackingEntry env ?E ?W] =>
      destruct (storeTrackingEntry_total env E W) as (w1 & Hrun & Hc & Hq & _)
  end.
  rewrite Hrun. run. do 2 eexists. split; [reflexivity|]. world_simpl.
  rewrite Hc, Hq. world_simpl. cbn [entry_id]. rewrite lookup_insert_eq. eauto.
Qed.

(** C6: when a [setItem] of the durable store rejects while [trackScan]
    stores the entry, [trackScan] still returns the entry it created, the
    entry is in the in-memory cache and at the end of the sync queue, and
    the fault is one line on the console, not an exception. *)
Theorem trackScan_survives_set_fault env (w : World) (scanData : ScanData) (error : exn) :
  set_fails_while_storing env w error ->
  exists entry w',
    trackScan env scanData w = (Ok (Some entry), w') /\
    trackingCache w' !! entry_id entry = Some entry /\
    syncQueue w' = syncQueue w ++ [entry] /\
    console w' = console w ++ [mkLine LError "Store tracking entry error:" None (Some error)].
Proof.
  intros Hfault.
  unfold trackScan, generateTrackingId, getDeviceInfo, getNetworkStatus, Date_now, Math_random.
  run.
  match goal with
  | |- context [storeTrackingEntry env ?E ?W] =>
      destruct (storeTrackingEntry_set_fault env E W error) as (w1 & Hrun & Hlog & Hc & Hq)
  end.
  - cbn. discriminate.
  - exact Hfault.
  - rewrite Hrun. run. do 2 eexists. split; [reflexivity|]. world_simpl.
    rewrite Hc, Hq, Hlog. world_simpl. cbn [entry_id]. rewrite lookup_insert_eq. auto.
Qed.

Lemma trackScan_survives_set_fault_witness :
  exists entry w',
    trackScan broken_storage_env sample_scan empty_world = (Ok (Some entry), w') /\
    trackingCache w' !! entry_id entry = Some entry /\
    syncQueue w' = syncQueue empty_world ++ [entry] /\
    console w' = console empty_world
                 ++ [mkLine LError "Store tracking entry error:" None
                       (Some (mkExn StorageError "disk full"))].
Proof.
  apply (trackScan_survives_set_fault broken_storage_env empty_world sample_scan
           (mkExn StorageError "disk full")).
  left. reflexivity.
Defined.

Lemma storeTrackingEntry_healthy env e w ids :
  healthy_storage env ->
  entry_id e <> "master_list" ->
  storage w !! "tracking_master_list" = Some (SIds ids) ->
  exists w', storeTrackingEntry env e w = (Ok tt, w') /\
             storage w' = <["tracking_master_list" := SIds (ids ++ [entry_id e])]>
                            (<["tracking_" +:+ entry_id e := SEntry e]> (storage w)).
Proof.
  intros Hs Hid Hlist.
  assert (Hkey : "tracking_" +:+ entry_id e <> "tracking_master_list").
  { intros H. apply Hid. by apply tracking_key_inj. }
  unfold storeTrackingEntry, getMasterTrackingList, AsyncStorage_getItem,
    AsyncStorage_setItem, storage_call.
  run. rewrite Hs. run. world_simpl. rewrite Hs. run. world_simpl.
  rewrite lookup_insert_ne, Hlist by exact Hkey. cbn [present JSON_parse array_push]. run.
  cbn [array_push]. run. world_simpl. rewrite Hs. eexists. split; reflexivity.
Qed.

(** C2: enqueuing appends, it does not deduplicate.  With storage in
    working order, storing the same entry twice leaves two more references
    to its id at the end of the master list, while its own record is held
    once under its key; and every [trackScan] puts one newly created entry
    at the end of the sync queue.  (The entry's id is not the literal
    [master_list], whose key would be the master list's own.) *)
Theorem enqueue_appends env (w : World) (e : TrackingEntry) (ids : list string)
    (scanData : ScanData) :
  healthy_storage env ->
  entry_id e <> "master_list" ->
  storage w !! "tracking_master_list" = Some (SIds ids) ->
  storage (snd (storeTrackingEntry env e (snd (storeTrackingEntry env e w))))
    !! "tracking_master_list" = Some (SIds (ids ++ [entry_id e; entry_id e])) /\
  storage (snd (storeTrackingEntry env e (snd (storeTrackingEntry env e w))))
    !! ("tracking_" +:+ entry_id e) = Some (SEntry e) /\
  exists entry w',
    trackScan env scanData w = (Ok (Some entry), w') /\
    syncQueue w' = syncQueue w ++ [entry].
Proof.
  intros Hs Hid Hlist.
  assert (Hkey : "tracking_" +:+ entry_id e <> "tracking_master_list").
  { intros H. apply Hid. by apply tracking_key_inj. }
  destruct (storeTrackingEntry_healthy env e w ids Hs Hid Hlist) as (w1 & Hrun1 & Hst1).
  assert (Hlist1 : storage w1 !! "tracking_master_list" = Some (SIds (ids ++ [entry_id e]))).
  { rewrite Hst1. apply lookup_insert_eq. }
  destruct (storeTrackingEntry_healthy env e w1 _ Hs Hid Hlist1) as (w2 & Hrun2 & Hst2).
  rewrite Hrun1. cbn [snd]. rewrite Hrun2. cbn [snd]. rewrite Hst2.
  split; [|split].
  - rewrite lookup_insert_eq, <- app_assoc. reflexivity.
  - rewrite lookup_insert_ne by congruence. apply lookup_insert_eq.
  - destruct (trackScan_enqueues env scanData w) as (entry & w' & Hrun & _ & Hq & _).
    eauto.
Qed.

Lemma enqueue_appends_witness :
  storage (snd (storeTrackingEntry quiet_env sample_entry
                  (snd (storeTrackingEntry quiet_env sample_entry small_world))))
    !! "tracking_master_list" = Some (SIds ([] ++ ["track_1000_i"; "track_1000_i"])).
Proof.
  refine (proj1 (enqueue_appends quiet_env small_world sample_entry [] sample_scan _ _ _)).
  - intros k. reflexivity.
  - discriminate.
  - vm_compute. reflexivity.
Defined.

(** C2, as worded, fails: stored twice, an entry is referenced twice by
    the master list. *)
Lemma second_store_adds_a_reference :
  ~ stored_once quiet_env empty_world sample_entry.
Proof.
  intros (ids & Hlist & Hcount).
  vm_compute in Hlist. injection Hlist as <-.
  vm_compute in Hcount. discriminate.
Qed.

(** ** Uploads (InspectionService.submitToUDM, submitToTMS, submitInspection,
       syncPendingInspections) *)

Lemma submitToUDM_run env p w :
  storage_fault env (storage_ops w) = None ->
  exists w',
    submitToUDM env p w
    = (Ok (match axios_reply env (net_calls w) (udm_request p) with
           | inr data => Submitted data
           | inl e => NotSubmitted (message e)
           end), w') /\
    requests w' = requests w ++ [udm_request p] /\
    net_calls w' = S (net_calls w) /\ storage_ops w' = S (storage_ops w) /\
    storage w' = storage w /\
    console w' = console w ++ match axios_reply env (net_calls w) (udm_request p) with
                              | inr _ => []
                              | inl e => [mkLine LWarn "UDM submission error:" None (Some e)]
                              end.
Proof.
  intros Hs.
  unfold submitToUDM, AsyncStorage_getItem, storage_call, axios_post, axios_send.
  unfold udm_request. run. rewrite Hs. world_simpl.
  destruct (axios_reply env (net_calls w) _); run;
    eexists; (split; [reflexivity|]); world_simpl; rewrite ?app_nil_r; auto.
Qed.

Lemma submitToTMS_run env p w :
  storage_fault env (storage_ops w) = None ->
  exists w',
    submitToTMS env p w
    = (Ok (match axios_reply env (net_calls w) (tms_request p) with
           | inr data => Submitted data
           | inl e => NotSubmitted (message e)
           end), w') /\
    requests w' = requests w ++ [tms_request p] /\
    net_calls w' = S (net_calls w) /\ storage_ops w' = S (storage_ops w) /\
    storage w' = storage w /\
    console w' = console w ++ match axios_reply env (net_calls w) (tms_request p) with
                              | inr _ => []
                              | inl e => [mkLine LWarn "TMS submission error:" None (Some e)]
                              end.
Proof.
  intros Hs.
  unfold submitToTMS, AsyncStorage_getItem, storage_call, axios_post, axios_send.
  unfold tms_request. run. rewrite Hs. world_simpl.
  destruct (axios_reply env (net_calls w) _); run;
    eexists; (split; [reflexivity|]); world_simpl; rewrite ?app_nil_r; auto.
Qed.

Lemma success_accepted (reply : exn + jsval) :
  success (match reply with
           | inr data => Submitted data
           | inl e => NotSubmitted (message e)
           end) = accepted reply.
Proof. by destruct reply. Qed.

Lemma sync_inspections env net (Hs : healthy_storage env) (Hnet : answers env net) l :
  forall pass w, exists pass' w',
    for_of l (sync_inspection env) pass w = (Ok pass', w') /\
    visited pass' = visited pass ++ map (settle net) l /\
    successCount pass'
      = successCount pass + count_where (fun p => negb (synced p) && uploaded net p) l /\
    failCount pass'
      = failCount pass + count_where (fun p => negb (synced p) && negb (uploaded net p)) l /\
    storage w' = storage w.
Proof.
  induction l as [|p l IH]; intros pass w.
  - exists pass, w. cbn. rewrite app_nil_r, !Z.add_0_r. auto.
  - cbn [for_of map count_where]. unfold bind at 1, sync_inspection at 1.
    destruct (synced p) eqn:Hp.
    + assert (Hsp : settle net p = p) by (unfold settle; by rewrite Hp).
      rewrite Hsp. cbn [ret].
      destruct (IH (mkPass (visited pass ++ [p]) (successCount pass) (failCount pass)) w)
        as (pass' & w' & Hrun & Hv & Hsc & Hfc & Hst).
      exists pass', w'. rewrite Hrun, Hv, Hsc, Hfc. cbn [visited successCount failCount negb andb].
      rewrite <- app_assoc. repeat split; auto.
    + assert (Hsp : settle net p = if uploaded net p then mark_synced p else p)
        by (unfold settle; by rewrite Hp).
      rewrite Hsp. unfold bind at 1.
      destruct (submitToUDM_run env p w (Hs _)) as (w1 & -> & _ & _ & _ & Hst1 & _).
      unfold bind at 1.
      destruct (submitToTMS_run env p w1 (Hs _)) as (w2 & -> & _ & _ & _ & Hst2 & _).
      rewrite !success_accepted, !Hnet. fold (uploaded net p).
      destruct (uploaded net p); cbn [ret];
        match goal with
        | |- context [for_of l (sync_inspection env) ?pass1 w2] =>
            destruct (IH pass1 w2) as (pass' & w' & Hrun & Hv & Hsc & Hfc & Hst)
        end;
        exists pass', w'; rewrite Hrun, Hv, Hsc, Hfc, Hst, Hst2, Hst1;
        cbn [visited successCount failCount negb andb];
        rewrite <- app_assoc; repeat split; auto; lia.
Qed.

Lemma count_pending (l : list InspectionPayload) :
  Z.of_nat (length (filter (fun i => Is_true (negb (synced i))) l))
  = count_where (fun p => negb (synced p)) l.
Proof.
  induction l as [|p l IH]; [reflexivity|].
  rewrite filter_cons. cbn [count_where]. rewrite <- IH.
  destruct (synced p); cbn [negb]; case_decide; cbn in *; try tauto; cbn [length]; lia.
Qed.

(** C1: on a network whose answers depend on the request alone and with
    storage in working order, a sync cycle rewrites the stored inspections
    in place: one already synced is left alone, and a pending one is
    marked synced if and only if at least one of the two portals, UDM or
    TMS, accepted it.  Acceptance by one portal is enough; an inspection
    stays pending only when both uploads failed.  The cycle reports how
    many pending inspections it marked, how many it left and how many
    there were. *)
Theorem sync_marks_on_any_success env (net : request -> exn + jsval) (w : World)
    (l : list InspectionPayload) :
  healthy_storage env ->
  answers env net ->
  storage w !! "localInspections" = Some (SInspections l) ->
  fst (syncPendingInspections env w)
    = Ok (InspectionSyncDone
            (count_where (fun p => negb (synced p) && uploaded net p) l)
            (count_where (fun p => negb (synced p) && negb (uploaded net p)) l)
            (count_where (fun p => negb (synced p)) l)) /\
  storage (snd (syncPendingInspections env w)) !! "localInspections"
    = Some (SInspections (map (settle net) l)) /\
  forall p, p ∈ l -> synced p = false ->
    (synced (settle net p) = true <->
     accepted (net (udm_request p)) = true \/ accepted (net (tms_request p)) = true).
Proof.
  intros Hs Hnet Hlist.
  assert (Hrun : exists w',
             syncPendingInspections env w
             = (Ok (InspectionSyncDone
                      (count_where (fun p => negb (synced p) && uploaded net p) l)
                      (count_where (fun p => negb (synced p) && negb (uploaded net p)) l)
                      (count_where (fun p => negb (synced p)) l)), w') /\
             storage w' !! "localInspections" = Some (SInspections (map (settle net) l))).
  { unfold syncPendingInspections, getLocalInspections, AsyncStorage_getItem,
      AsyncStorage_setItem, storage_call.
    unfold try_catch at 1. unfold bind at 1. unfold try_catch at 1. unfold bind at 1.
    rewrite Hs, Hlist. cbn [parsed_or_empty present JSON_parse ret].
    unfold bind at 1. cbn [as_inspections ret]. unfold bind at 1.
    destruct (sync_inspections env net Hs Hnet l (mkPass [] 0 0) (with_storage (fun s => s) w))
      as (pass' & w' & Hloop & Hv & Hsc & Hfc & Hst).
    rewrite Hloop. run. rewrite Hs. eexists. split.
    - rewrite Hsc, Hfc, count_pending. cbn [successCount failCount]. rewrite !Z.add_0_l.
      reflexivity.
    - world_simpl. rewrite Hv. apply lookup_insert_eq. }
  destruct Hrun as (w' & Hrun & Hst).
  rewrite Hrun. cbn [fst snd]. split; [reflexivity|]. split; [exact Hst|].
  intros p _ Hp. unfold settle, uploaded. rewrite Hp.
  destruct (accepted (net (udm_request p))), (accepted (net (tms_request p)));
    cbn; rewrite ?Hp; intuition congruence.
Qed.

Lemma sync_marks_on_any_success_witness :
  storage (snd (syncPendingInspections udm_only_env
                  (world_with_inspections [sample_inspection 0]))) !! "localInspections"
  = Some (SInspections (map (settle udm_only_net) [sample_inspection 0])).
Proof.
  refine (proj1 (proj2 (sync_marks_on_any_success udm_only_env udm_only_net
                          (world_with_inspections [sample_inspection 0])
                          [sample_inspection 0] _ _ _))).
  - intros k. reflexivity.
  - intros k r. reflexivity.
  - vm_compute. reflexivity.
Defined.

(** C1, as worded, fails: an inspection that UDM accepts and TMS does not
    is marked synced by the cycle. *)
Lemma one_portal_is_enough :
  ~ marks_iff_both udm_only_env udm_only_net (world_with_inspections [sample_inspection 0]).
Proof.
  intros Hclaim.
  pose proof (Hclaim [sample_inspection 0] [mark_synced (sample_inspection 0)] 0%nat
                (sample_inspection 0) (mark_synced (sample_inspection 0))) as H.
  destruct H as [Hboth _].
  - vm_compute. reflexivity.
  - vm_compute. reflexivity.
  - reflexivity.
  - reflexivity.
  - reflexivity.
  - destruct (Hboth eq_refl) as [_ Htms]. vm_compute in Htms. discriminate.
Qed.

Lemma prepareInspectionPayload_local env data w r w1 :
  prepareInspectionPayload env data w = (r, w1) ->
  requests w1 = requests w /\ net_calls w1 = net_calls w /\
  storage_ops w1 = storage_ops w /\ storage w1 = storage w.
Proof.
  unfold prepareInspectionPayload, generateInspectionId, calculateNextInspectionDate,
    generateInspectorSignature, Date_now, Math_random.
  run. destruct (btoa env _); run; intros [= <- <-]; world_simpl; auto.
Qed.

Lemma storeInspectionLocally_total env p w :
  exists w', storeInspectionLocally env p w = (Ok tt, w') /\ requests w' = requests w.
Proof.
  unfold storeInspectionLocally, AsyncStorage_getItem, AsyncStorage_setItem, storage_call.
  case_faults env; try destruct (storage w !! "localInspections") as [[[|c s]|e'|ids|l|l|d t]|];
    case_faults env; eexists; split; reflexivity.
Qed.

Lemma storeReportLocally_total env r w :
  exists w', storeReportLocally env r w = (Ok tt, w') /\ requests w' = requests w.
Proof.
  unfold storeReportLocally, AsyncStorage_getItem, AsyncStorage_setItem, storage_call.
  case_faults env; try destruct (storage w !! "inspectionReports") as [[[|c s]|e'|ids|l|l|d t]|];
    case_faults env; eexists; split; reflexivity.
Qed.

Lemma generateInspectionReport_total env data w :
  exists reportId w',
    generateInspectionReport env data w = (Ok reportId, w') /\ requests w' = requests w.
Proof.
  unfold generateInspectionReport, generateNextActions, calculateNextInspectionDate, Date_now.
  run.
  match goal with
  | |- context [storeReportLocally env ?R ?W] =>
      destruct (storeReportLocally_total env R W) as (w1 & Hrun & Hreq)
  end.
  rewrite Hrun. do 2 eexists. split; [reflexivity|]. rewrite Hreq. reflexivity.
Qed.

(** C5: once an inspection has passed validation and its payload is
    built, [submitInspection] posts it to UDM and then to TMS whatever UDM
    answered: both requests are issued, in that order and nothing else, and
    the result reports each portal's own outcome, [udmStatus] that of the
    UDM request and [tmsStatus] that of the TMS request.  (The reads of
    the auth token that precede each request are taken not to fail.) *)
Theorem uploads_are_independent env (w : World) (data : InspectionData)
    (payload : InspectionPayload) (w1 : World) :
  (validateInspectionData env data).1 = true ->
  prepareInspectionPayload env data w = (Ok payload, w1) ->
  storage_fault env (storage_ops w) = None ->
  storage_fault env (S (storage_ops w)) = None ->
  exists reportId w',
    submitInspection env data w
    = (Ok (SubmissionOk (inspectionId payload) reportId
             (accepted (axios_reply env (net_calls w) (udm_request payload)))
             (accepted (axios_reply env (S (net_calls w)) (tms_request payload)))
             "Inspection submitted successfully"), w') /\
    requests w' = requests w ++ [udm_request payload; tms_request payload].
Proof.
  intros Hvalid Hprep Hs0 Hs1.
  destruct (prepareInspectionPayload_local env data w _ w1 Hprep) as (Hreq & Hnet & Hops & _).
  rewrite <- Hops in Hs0, Hs1. rewrite <- Hnet.
  destruct (submitToUDM_run env payload w1 Hs0) as (w2 & Hudm & Hreq2 & Hnet2 & Hops2 & _).
  rewrite <- Hops2 in Hs1.
  destruct (submitToTMS_run env payload w2 Hs1) as (w3 & Htms & Hreq3 & _).
  destruct (storeInspectionLocally_total env payload w3) as (w4 & Hstore & Hreq4).
  destruct (generateInspectionReport_total env data w4) as (reportId & w5 & Hreport & Hreq5).
  exists reportId, w5. split.
  - unfold submitInspection. unfold try_catch. rewrite Hvalid. cbn [negb].
    unfold bind at 1. rewrite Hprep.
    unfold bind at 1. rewrite Hudm.
    unfold bind at 1. rewrite Htms.
    unfold bind at 1. rewrite Hstore.
    unfold bind at 1. rewrite Hreport.
    unfold ret. rewrite !success_accepted, Hnet2. reflexivity.
  - rewrite Hreq5, Hreq4, Hreq3, Hreq2, Hreq, <- app_assoc. reflexivity.
Qed.

Lemma uploads_are_independent_witness :
  exists reportId w',
    submitInspection tms_only_env sample_form empty_world
    = (Ok (SubmissionOk (inspectionId sample_payload) reportId
             (accepted (axios_reply tms_only_env (net_calls empty_world)
                          (udm_request sample_payload)))
             (accepted (axios_reply tms_only_env (S (net_calls empty_world))
                          (tms_request sample_payload)))
             "Inspection submitted successfully"), w') /\
    requests w' = requests empty_world ++ [udm_request sample_payload; tms_request sample_payload].
Proof.
  apply (uploads_are_independent tms_only_env empty_world sample_form sample_payload
           (snd (prepareInspectionPayload tms_only_env sample_form empty_world))).
  - vm_compute. reflexivity.
  - vm_compute. reflexivity.
  - reflexivity.
  - reflexivity.
Defined.

(** ** Failed uploads (TrackingService.syncPendingEntries, InspectionService.submitToUDM) *)

Lemma sync_entries env queue :
  forall syncedCount failedEntries w, exists n w',
    for_of queue (sync_entry env) (syncedCount, failedEntries) w
    = (Ok (syncedCount + n, failedEntries ++ timed_out env (random_draws w) queue), w') /\
    random_draws w' = (random_draws w + length queue)%nat /\
    syncQueue w' = syncQueue w /\
    n = Z.of_nat (length queue) - Z.of_nat (length (timed_out env (random_draws w) queue)).
Proof.
  induction queue as [|entry queue IH]; intros syncedCount failedEntries w.
  - exists 0, w. cbn. rewrite app_nil_r, Z.add_0_r. repeat split; auto; lia.
  - cbn [for_of timed_out]. unfold bind at 1, sync_entry at 1, simulateServerSync, Math_random.
    run. destruct (negb (Qle_bool (math_random env (random_draws w)) double_0_9)); run.
    + destruct (IH syncedCount (failedEntries ++ [entry])
                  (with_console (mkLine LWarn "Failed to sync entry:" (Some (entry_id entry))
                                   (Some (mkExn PlainError "Network timeout")))
                     (tick_random w)))
        as (n & w' & Hrun & Hdraws & Hq & Hn).
      world_simpl. exists n, w'. rewrite Hrun, <- app_assoc. cbn [length].
      repeat split; auto; lia.
    + destruct (IH (syncedCount + 1) failedEntries
                  (with_console (mkLine LLog "Synced tracking entry:" (Some (entry_id entry)) None)
                     (tick_random w)))
        as (n & w' & Hrun & Hdraws & Hq & Hn).
      world_simpl. exists (1 + n), w'. rewrite Hrun, Z.add_assoc. cbn [length].
      repeat split; auto; lia.
Qed.

Lemma sync_inspections_requests env (Hs : healthy_storage env) l :
  forall pass w, exists pass' w',
    for_of l (sync_inspection env) pass w = (Ok pass', w') /\
    requests w' = requests w ++ cycle_requests l /\
    storage w' = storage w.
Proof.
  induction l as [|p l IH]; intros pass w.
  - exists pass, w. cbn. rewrite app_nil_r. auto.
  - cbn [for_of]. unfold cycle_requests. cbn [flat_map]. fold (cycle_requests l).
    unfold bind at 1, sync_inspection at 1.
    destruct (synced p) eqn:Hp.
    + cbn [ret app]. apply IH.
    + unfold bind at 1.
      destruct (submitToUDM_run env p w (Hs _)) as (w1 & -> & Hr1 & _ & _ & Hst1 & _).
      unfold bind at 1.
      destruct (submitToTMS_run env p w1 (Hs _)) as (w2 & -> & Hr2 & _ & _ & Hst2 & _).
      match goal with
      | |- context [if ?b then _ else _] => destruct b
      end; cbn [ret];
        match goal with
        | |- context [for_of l (sync_inspection env) ?pass1 w2] =>
            destruct (IH pass1 w2) as (pass' & w' & Hrun & Hr & Hst)
        end;
        exists pass', w'; rewrite Hrun, Hr, Hr2, Hr1, Hst, Hst2, Hst1;
        rewrite <- !app_assoc; auto.
Qed.

Lemma syncPendingInspections_cycle env net w l :
  healthy_storage env ->
  answers env net ->
  storage w !! "localInspections" = Some (SInspections l) ->
  exists result w',
    syncPendingInspections env w = (Ok result, w') /\
    storage w' = <["localInspections" := SInspections (map (settle net) l)]> (storage w) /\
    requests w' = requests w ++ cycle_requests l.
Proof.
  intros Hs Hnet Hlist.
  unfold syncPendingInspections, getLocalInspections, AsyncStorage_getItem,
    AsyncStorage_setItem, storage_call.
  unfold try_catch at 1. unfold bind at 1. unfold try_catch at 1. unfold bind at 1.
  rewrite Hs, Hlist. cbn [parsed_or_empty present JSON_parse ret].
  unfold bind at 1. cbn [as_inspections ret]. unfold bind at 1.
  destruct (sync_inspections env net Hs Hnet l (mkPass [] 0 0) (with_storage (fun s => s) w))
    as (pass' & w' & Hloop & Hv & _ & _ & Hst).
  destruct (sync_inspections_requests env Hs l (mkPass [] 0 0) (with_storage (fun s => s) w))
    as (pass'' & w'' & Hloop' & Hr & _).
  rewrite Hloop in Hloop'. injection Hloop' as <- <-.
  rewrite Hloop. run. rewrite Hs. do 2 eexists. split; [reflexivity|].
  world_simpl. rewrite Hv, Hst. split; [reflexivity | exact Hr].
Qed.

(** C4: a failed upload is neither retried within the cycle nor given up
    on because of its kind.  [syncPendingEntries] attempts every queued
    entry exactly once (one random draw each) and leaves in the queue, in
    order, precisely the entries whose attempt failed, so they are attempted
    again by the next cycle and no sooner; there is no backoff.
    [submitToUDM] makes its one request and turns any rejection of it,
    network failure and HTTP error status alike, into the same shape of
    result, [success: false] with the error's message, after logging the
    error itself as a warning.  For the stored inspections, on a network
    whose answers depend on the request alone and with storage in working
    order: a cycle posts each pending inspection once to each portal; an
    inspection that neither portal accepted, whatever the two errors (a
    timeout, a 4xx status), stays stored as it was, not synced, and the
    next cycle posts it to both portals again; an inspection that one
    portal accepted is marked synced whatever the other portal answered,
    and the next cycle makes no request for it.  So a rejection is not
    terminal when both portals fail, and a failure of either kind is left
    behind for good when the other portal accepts. *)
Theorem failures_wait_for_the_next_cycle env (w : World) :
  (exists w',
     syncPendingEntries env w
     = (Ok (match syncQueue w with
            | [] => SyncDone 0 None
            | _ => SyncDone (Z.of_nat (length (syncQueue w))
                             - Z.of_nat (length (timed_out env (random_draws w) (syncQueue w))))
                     (Some (Z.of_nat (length (timed_out env (random_draws w) (syncQueue w)))))
            end), w') /\
     syncQueue w' = timed_out env (random_draws w) (syncQueue w) /\
     random_draws w' = (random_draws w + length (syncQueue w))%nat) /\
  (forall p error,
     storage_fault env (storage_ops w) = None ->
     axios_reply env (net_calls w) (udm_request p) = inl error ->
     exists w',
       submitToUDM env p w = (Ok (NotSubmitted (message error)), w') /\
       requests w' = requests w ++ [udm_request p] /\
       console w' = console w ++ [mkLine LWarn "UDM submission error:" None (Some error)]) /\
  (forall net l,
     healthy_storage env ->
     answers env net ->
     storage w !! "localInspections" = Some (SInspections l) ->
     let w1 := snd (syncPendingInspections env w) in
     requests w1 = requests w ++ cycle_requests l /\
     storage w1 !! "localInspections" = Some (SInspections (map (settle net) l)) /\
     requests (snd (syncPendingInspections env w1))
     = requests w1 ++ cycle_requests (map (settle net) l) /\
     forall p, p ∈ l -> synced p = false ->
       (forall udmError tmsError,
          net (udm_request p) = inl udmError ->
          net (tms_request p) = inl tmsError ->
          settle net p = p /\
          udm_request p ∈ cycle_requests (map (settle net) l) /\
          tms_request p ∈ cycle_requests (map (settle net) l)) /\
       (uploaded net p = true ->
        synced (settle net p) = true /\ cycle_requests [settle net p] = [])).
Proof.
  split; [|split].
  - unfold syncPendingEntries, try_catch.
    destruct (syncQueue w) as [|entry queue] eqn:Hqueue.
    + exists w. cbn. rewrite Hqueue. auto.
    + destruct (sync_entries env (entry :: queue) 0 [] w) as (n & w' & Hrun & Hdraws & Hq & Hn).
      remember (timed_out env (random_draws w) (entry :: queue)) as failedEntries.
      exists (with_syncQueue failedEntries w').
      cbn [length Nat.eqb]. unfold bind at 1. rewrite Hrun.
      unfold bind, ret. cbn beta iota. world_simpl.
      rewrite Z.add_0_l, Hn. cbn [length app]. auto.
  - intros p error Hs Hreply.
    destruct (submitToUDM_run env p w Hs) as (w' & Hrun & Hreq & _ & _ & _ & Hlog).
    rewrite Hreply in Hrun, Hlog. eauto.
  - intros net l Hs Hnet Hlist.
    destruct (syncPendingInspections_cycle env net w l Hs Hnet Hlist)
      as (result1 & w1 & Hrun1 & Hst1 & Hr1).
    rewrite Hrun1. cbn [snd]. cbn zeta.
    destruct (syncPendingInspections_cycle env net w1 (map (settle net) l) Hs Hnet)
      as (result2 & w2 & Hrun2 & _ & Hr2).
    { rewrite Hst1. apply lookup_insert_eq. }
    split; [exact Hr1|]. split; [rewrite Hst1; apply lookup_insert_eq|].
    split; [rewrite Hrun2; exact Hr2|].
    intros p Hin Hpending. split.
    + intros udmError tmsError Hudm Htms.
      assert (Hsame : settle net p = p).
      { unfold settle, uploaded. rewrite Hpending, Hudm, Htms. reflexivity. }
      split; [exact Hsame|].
      split; apply list_elem_of_In, in_flat_map; exists p;
        (split; [apply in_map_iff; exists p; split; [exact Hsame | by apply list_elem_of_In]|]);
        rewrite Hpending; cbn; auto.
    + intros Huploaded. unfold cycle_requests, settle. rewrite Hpending, Huploaded.
      split; reflexivity.
Qed.

Lemma failures_wait_for_the_next_cycle_witness :
  (exists w',
     submitToUDM rejecting_env (sample_inspection 0) empty_world
     = (Ok (NotSubmitted (message (mkExn (HttpError 400) "Request failed with status code 400"))),
        w') /\
     requests w' = requests empty_world ++ [udm_request (sample_inspection 0)] /\
     console w' = console empty_world
                  ++ [mkLine LWarn "UDM submission error:" None
                        (Some (mkExn (HttpError 400) "Request failed with status code 400"))]) /\
  udm_request (sample_inspection 0)
    ∈ cycle_requests (map (settle rejecting_net) [sample_inspection 0]).
Proof.
  split.
  - apply (proj1 (proj2 (failures_wait_for_the_next_cycle rejecting_env empty_world))).
    + reflexivity.
    + reflexivity.
  - destruct (proj2 (proj2 (failures_wait_for_the_next_cycle rejecting_env
                              (world_with_inspections [sample_inspection 0])))
                rejecting_net [sample_inspection 0]) as (_ & _ & _ & Hpending).
    + intros k. reflexivity.
    + intros k r. reflexivity.
    + vm_compute. reflexivity.
    + destruct (Hpending (sample_inspection 0)) as [Hrejected _].
      * apply list_elem_of_here.
      * reflexivity.
      * destruct (Hrejected (mkExn (HttpError 400) "Request failed with status code 400")
                    (mkExn (HttpError 400) "Request failed with status code 400"))
          as (_ & Hagain & _).
        -- reflexivity.
        -- reflexivity.
        -- exact Hagain.
Defined.

(** C4, as worded, fails: a tracked scan whose upload times out is
    attempted once by the cycle; when both portals time out, a cycle makes
    its two requests for the pending inspection and no more; and an
    inspection both portals rejected with status 400 is posted again by the
    next cycle. *)
Lemma no_retry_within_a_cycle_and_no_terminal_state :
  ~ timeout_is_retried always_timeout_env (after_scans 1) /\
  ~ transient_is_retried unreachable_env (world_with_inspections [sample_inspection 0]) /\
  ~ rejection_is_terminal rejecting_env (world_with_inspections [sample_inspection 0]).
Proof.
  split; [|split].
  - unfold timeout_is_retried. intros H. vm_compute in H. lia.
  - unfold transient_is_retried. intros H. vm_compute in H. lia.
  - unfold rejection_is_terminal. intros H. apply (f_equal length) in H.
    vm_compute in H. discriminate.
Qed.

(** ** The dashboard cache (DashboardService.getCachedData, getDashboardData) *)

(** C3: a value cached at [storedAt] is returned by a read at [now]
    exactly when [now - storedAt < cacheExpiry]: then the read returns it
    without running the generator or touching the store.  From
    [storedAt + cacheExpiry] on the read is a miss: the generator is run,
    its result is returned and stored under the key with the time read
    when storing as its new timestamp.  (The store is taken to answer the
    read and the write; a cached value is a dashboard object, hence
    truthy.) *)
Theorem cache_hit_until_expiry env (this : CacheConfig)
    (generateDashboardData getFallbackData : M jsval)
    (w : World) (data : jsval) (storedAt : Z) :
  storage_fault env (storage_ops w) = None ->
  storage w !! cacheKey this = Some (SCache data storedAt) ->
  js_truthy data = true ->
  let now := date_now env (clock_reads w) in
  let w1 := tick_clock (with_storage (fun s => s) w) in
  (now - storedAt < cacheExpiry this ->
   getCachedData env this w = (Ok (Some data), w1) /\
   getDashboardData env this generateDashboardData getFallbackData w = (Ok data, w1)) /\
  (cacheExpiry this <= now - storedAt ->
   getCachedData env this w = (Ok None, w1) /\
   forall fresh w2,
     generateDashboardData w1 = (Ok fresh, w2) ->
     storage_fault env (storage_ops w2) = None ->
     exists w3,
       getDashboardData env this generateDashboardData getFallbackData w = (Ok fresh, w3) /\
       storage w3 = <[cacheKey this := SCache fresh (date_now env (clock_reads w2))]> (storage w2)).
Proof.
  intros Hs Hcached Htruthy now w1.
  assert (Hread : getCachedData env this w
                  = (Ok (if now - storedAt <? cacheExpiry this then Some data else None), w1)).
  { unfold getCachedData, AsyncStorage_getItem, storage_call, Date_now.
    run. rewrite Hs, Hcached. cbn [present JSON_parse]. run. world_simpl. fold now.
    destruct (now - storedAt <? cacheExpiry this); reflexivity. }
  split.
  - intros Hfresh. apply Z.ltb_lt in Hfresh. rewrite Hfresh in Hread.
    split; [exact Hread|].
    unfold getDashboardData, try_catch, bind. rewrite Hread, Htruthy. reflexivity.
  - intros Hstale. apply Z.ltb_ge in Hstale. rewrite Hstale in Hread.
    split; [exact Hread|].
    intros fresh w2 Hgen Hs2.
    unfold getDashboardData. unfold try_catch at 1. unfold bind at 1. rewrite Hread.
    unfold bind at 1. rewrite Hgen.
    unfold cacheData, AsyncStorage_setItem, storage_call, Date_now. run. world_simpl.
    rewrite Hs2. eexists. split; reflexivity.
Qed.

Lemma cache_hit_until_expiry_witness :
  (getCachedData quiet_env dashboardService (world_with_cache sample_dashboard 900)
   = (Ok (Some sample_dashboard),
      tick_clock (with_storage (fun s => s) (world_with_cache sample_dashboard 900))) /\
   getDashboardData quiet_env dashboardService (sample_generator JNull) (sample_generator JNull)
     (world_with_cache sample_dashboard 900)
   = (Ok sample_dashboard,
      tick_clock (with_storage (fun s => s) (world_with_cache sample_dashboard 900)))) /\
  (exists w3,
     getDashboardData later_env dashboardService (sample_generator (JObj []))
       (sample_generator JNull) (world_with_cache sample_dashboard 900) = (Ok (JObj []), w3) /\
     storage w3 !! "dashboard_data" = Some (SCache (JObj []) 901001)).
Proof.
  split.
  - refine (proj1 (cache_hit_until_expiry quiet_env dashboardService
                     (sample_generator JNull) (sample_generator JNull)
                     (world_with_cache sample_dashboard 900) sample_dashboard 900 _ _ _) _).
    + reflexivity.
    + vm_compute. reflexivity.
    + reflexivity.
    + vm_compute. reflexivity.
  - destruct (proj2 (cache_hit_until_expiry later_env dashboardService
                       (sample_generator (JObj [])) (sample_generator JNull)
                       (world_with_cache sample_dashboard 900) sample_dashboard 900
                       eq_refl eq_refl eq_refl)) as [_ Hmiss].
    + vm_compute. discriminate.
    + destruct (Hmiss (JObj []) _ eq_refl eq_refl) as (w3 & Hrun & Hst).
      exists w3. split; [exact Hrun|]. rewrite Hst. apply lookup_insert_eq.
Defined.

(** * Further properties of the services *)

(** ** TrackingService: capture *)

Lemma trackInspection_enqueues env inspectionData w :
  exists entry w',
    trackInspection env inspectionData w = (Ok (Some entry), w') /\
    status entry = "inspected" /\ fittingId entry = capture_fittingId inspectionData /\
    trackingCache w' !! entry_id entry = Some entry /\
    syncQueue w' = syncQueue w ++ [entry] /\
    requests w' = requests w.
Proof.
  unfold trackInspection, generateTrackingId, Date_now, Math_random, cache_set, queue_push.
  run.
  match goal with
  | |- context [storeTrackingEntry env ?E ?W] =>
      destruct (storeTrackingEntry_total env E W) as (w1 & Hrun & Hc & Hq & Hr & _)
  end.
  rewrite Hrun. run. do 2 eexists. split; [reflexivity|]. world_simpl.
  rewrite Hc, Hq, Hr. world_simpl. cbn [entry_id status fittingId].
  rewrite lookup_insert_eq. auto.
Qed.

Lemma trackMovement_enqueues env movementData w :
  exists entry w',
    trackMovement env movementData w = (Ok (Some entry), w') /\
    status entry = "moved" /\ fittingId entry = move_fittingId movementData /\
    trackingCache w' !! entry_id entry = Some entry /\
    syncQueue w' = syncQueue w ++ [entry] /\
    requests w' = requests w.
Proof.
  unfold trackMovement, generateTrackingId, Date_now, Math_random, cache_set, queue_push.
  run.
  match goal with
  | |- context [storeTrackingEntry env ?E ?W] =>
      destruct (storeTrackingEntry_total env E W) as (w1 & Hrun & Hc & Hq & Hr & _)
  end.
  rewrite Hrun. run. do 2 eexists. split; [reflexivity|]. world_simpl.
  rewrite Hc, Hq, Hr. world_simpl. cbn [entry_id status fittingId].
  rewrite lookup_insert_eq. auto.
Qed.

(** X1: whatever the store does, an inspection or a movement that is
    tracked comes back as the entry created for it, with status
    [inspected] or [moved] and the fitting it is about; the entry is in
    the cache and last in the sync queue, and no request has been made. *)
Theorem captures_enqueue_offline env (w : World)
    (inspectionData : InspectionCapture) (movementData : MovementData) :
  (exists entry w',
     trackInspection env inspectionData w = (Ok (Some entry), w') /\
     status entry = "inspected" /\ fittingId entry = capture_fittingId inspectionData /\
     trackingCache w' !! entry_id entry = Some entry /\
     syncQueue w' = syncQueue w ++ [entry] /\
     requests w' = requests w) /\
  (exists entry w',
     trackMovement env movementData w = (Ok (Some entry), w') /\
     status entry = "moved" /\ fittingId entry = move_fittingId movementData /\
     trackingCache w' !! entry_id entry = Some entry /\
     syncQueue w' = syncQueue w ++ [entry] /\
     requests w' = requests w).
Proof.
  split; [apply trackInspection_enqueues | apply trackMovement_enqueues].
Qed.

(** ** TrackingService: what is stored is what is listed *)

Lemma listed_entries_app s ids1 ids2 :
  listed_entries s (ids1 ++ ids2) = listed_entries s ids1 ++ listed_entries s ids2.
Proof. unfold listed_entries. apply omap_app. Qed.

Lemma listed_entries_after_store (s : gmap string stored) ids e others :
  s !! "tracking_master_list" = Some (SIds others) ->
  entry_id e ∉ ids ->
  forall ids',
    listed_entries (<["tracking_master_list" := SIds ids']>
                      (<["tracking_" +:+ entry_id e := SEntry e]> s)) ids
    = listed_entries s ids.
Proof.
  intros Hlist Hfresh ids'. unfold listed_entries. induction ids as [|id ids IH]; [reflexivity|].
  rewrite not_elem_of_cons in Hfresh. destruct Hfresh as [Hne Hfresh].
  cbn [omap list_omap]. fold (@omap list _ string TrackingEntry). rewrite (IH Hfresh).
  destruct (decide ("tracking_" +:+ id = "tracking_master_list")) as [Heq|Hmaster].
  - rewrite Heq, lookup_insert_eq, Hlist. reflexivity.
  - rewrite lookup_insert_ne by congruence.
    rewrite lookup_insert_ne; [reflexivity|].
    intros H. apply Hne. by apply tracking_key_inj.
Qed.

Lemma trackScan_healthy env scanData w ids :
  healthy_storage env ->
  storage w !! "tracking_master_list" = Some (SIds ids) ->
  exists entry w' random,
    trackScan env scanData w = (Ok (Some entry), w') /\
    entry_id entry = "track_" +:+ random /\
    storage w' = <["tracking_master_list" := SIds (ids ++ [entry_id entry])]>
                   (<["tracking_" +:+ entry_id entry := SEntry entry]> (storage w)).
Proof.
  intros Hs Hlist.
  unfold trackScan, generateTrackingId, getDeviceInfo, getNetworkStatus, Date_now, Math_random.
  run.
  match goal with
  | |- context [storeTrackingEntry env ?E ?W] =>
      destruct (storeTrackingEntry_healthy env E W ids Hs) as (w1 & Hrun & Hst)
  end.
  - cbn. discriminate.
  - exact Hlist.
  - rewrite Hrun. run. do 3 eexists. split; [reflexivity|]. world_simpl.
    split; [reflexivity|]. exact Hst.
Qed.

(** X2: with storage in working order and a master list whose ids lead to
    entry records (so not to the master list itself), a scan that has just
    been tracked is what [getAllTrackingEntries] lists last, after
    everything it listed before (the id generated for the scan being new
    to the master list). *)
Theorem tracked_scan_is_listed_last env (w w' : World) (scanData : ScanData)
    (ids : list string) (entry : TrackingEntry) :
  healthy_storage env ->
  storage w !! "tracking_master_list" = Some (SIds ids) ->
  entry_records (storage w) ids = true ->
  trackScan env scanData w = (Ok (Some entry), w') ->
  entry_id entry ∉ ids ->
  fst (getAllTrackingEntries env w') = Ok (listed_entries (storage w) ids ++ [entry]).
Proof.
  intros Hs Hlist _ Hscan Hfresh.
  destruct (trackScan_healthy env scanData w ids Hs Hlist)
    as (entry' & w1 & random & Hrun & Hid & Hst).
  rewrite Hrun in Hscan. injection Hscan as -> ->.
  assert (Hkey : "tracking_" +:+ entry_id entry <> "tracking_master_list").
  { rewrite Hid. cbn. discriminate. }
  destruct (getAllTrackingEntries_listed env Hs w' (ids ++ [entry_id entry])) as (w2 & Hall & _).
  { rewrite Hst. apply lookup_insert_eq. }
  rewrite Hall. cbn [fst]. f_equal.
  rewrite listed_entries_app, Hst.
  rewrite (listed_entries_after_store _ ids entry ids Hlist Hfresh).
  f_equal. unfold listed_entries. cbn [omap list_omap].
  rewrite lookup_insert_ne by congruence. rewrite lookup_insert_eq. reflexivity.
Qed.

Lemma tracked_scan_is_listed_last_witness :
  fst (getAllTrackingEntries quiet_env (after_scans 2))
  = Ok (listed_entries (storage (after_scans 1)) ["track_1000_i"]
        ++ [default sample_entry
              (match fst (trackScan quiet_env sample_scan (after_scans 1)) with
               | Ok r => r
               | Throw _ => None
               end)]).
Proof.
  apply (tracked_scan_is_listed_last quiet_env (after_scans 1) (after_scans 2) sample_scan
           ["track_1000_i"]).
  - intros k. reflexivity.
  - vm_compute. reflexivity.
  - vm_compute. reflexivity.
  - vm_compute. reflexivity.
  - intros H. vm_compute in H. inversion H as [|? ? ? H']. inversion H'.
Defined.

Lemma load_entries_total env ids :
  forall acc w, exists l w',
    for_of ids (load_entry env) acc w = (Ok l, w') /\
    storage w' = storage w /\ requests w' = requests w /\ syncQueue w' = syncQueue w.
Proof.
  induction ids as [|entryId ids IH]; intros acc w.
  - exists acc, w. cbn. auto.
  - cbn [for_of]. unfold bind at 1.
    assert (Hbody : exists l1 w1, load_entry env acc entryId w = (Ok l1, w1) /\
                      storage w1 = storage w /\ requests w1 = requests w /\
                      syncQueue w1 = syncQueue w).
    { unfold load_entry, AsyncStorage_getItem, storage_call.
      case_faults env;
        try destruct (storage w !! ("tracking_" +:+ entryId)) as [[[|c s]|e|l|l|l|d t]|];
        case_faults env; do 2 eexists; (split; [reflexivity|]); world_simpl; auto. }
    destruct Hbody as (l1 & w1 & -> & Hst1 & Hr1 & Hq1).
    destruct (IH l1 w1) as (l & w' & Hrun & Hst & Hr & Hq).
    exists l, w'. rewrite Hrun, Hst, Hr, Hq. auto.
Qed.

Lemma getAllTrackingEntries_total env w :
  exists l w', getAllTrackingEntries env w = (Ok l, w') /\
               storage w' = storage w /\ requests w' = requests w /\
               syncQueue w' = syncQueue w.
Proof.
  unfold getAllTrackingEntries, getMasterTrackingList, AsyncStorage_getItem, storage_call.
  case_faults env;
    try destruct (storage w !! "tracking_master_list") as [[[|c s]|e|ids|l|l|d t]|];
    case_faults env;
    try match goal with
        | |- context [for_of ?ids (load_entry env) ?acc ?w1] =>
            destruct (load_entries_total env ids acc w1) as (l' & w' & Hrun & Hst & Hr & Hq);
            rewrite Hrun
        end;
    do 2 eexists; (split; [reflexivity|]); world_simpl; auto.
Qed.

Lemma getAllTrackingEntries_empty env w :
  healthy_storage env ->
  storage w !! "tracking_master_list" = None ->
  fst (getAllTrackingEntries env w) = Ok [].
Proof.
  intros Hs Hlist.
  unfold getAllTrackingEntries, getMasterTrackingList, AsyncStorage_getItem, storage_call.
  run. rewrite Hs, Hlist. reflexivity.
Qed.

(** X3: with storage in working order, the history of a fitting is made
    of listed entries of that fitting only, most recent first, and of no
    more than [limit] of them; when the fitting has no more than [limit]
    entries, all of them are in it. *)
Theorem history_is_of_the_fitting env (w : World) (ids : list string)
    (fitting : string) (limit : Z) :
  healthy_storage env ->
  storage w !! "tracking_master_list" = Some (SIds ids) ->
  0 <= limit ->
  exists history,
    fst (getTrackingHistory env fitting limit w) = Ok history /\
    Forall (fun e => fittingId e = fitting /\ e ∈ listed_entries (storage w) ids) history /\
    newest_first_sorted history /\
    Z.of_nat (length history) <= limit /\
    (Z.of_nat (length (filter (fun e => fittingId e = fitting)
                         (listed_entries (storage w) ids))) <= limit ->
     forall e, e ∈ listed_entries (storage w) ids -> fittingId e = fitting -> e ∈ history).
Proof.
  intros Hs Hlist Hlimit.
  destruct (getAllTrackingEntries_listed env Hs w ids Hlist) as (w' & Hrun & _).
  set (all := listed_entries (storage w) ids) in *.
  set (mine := filter (fun e => fittingId e = fitting) all).
  exists (slice0 limit (js_sort newest_first mine)). split; [|split; [|split; [|split]]].
  - unfold getTrackingHistory, try_catch, bind. rewrite Hrun. reflexivity.
  - destruct (slice0_is_take limit (js_sort newest_first mine)) as [m ->].
    apply Forall_take. rewrite js_sort_perm. unfold mine.
    apply Forall_forall. intros e He. apply list_elem_of_filter in He. exact He.
  - destruct (slice0_is_take limit (js_sort newest_first mine)) as [m ->].
    apply take_newest_first, js_sort_newest_first.
  - unfold slice0. destruct (Z.ltb_spec limit 0); [lia|]. rewrite length_take. lia.
  - intros Hfew e He Hf. rewrite slice0_all.
    + rewrite js_sort_perm. unfold mine. apply list_elem_of_filter. auto.
    + rewrite js_sort_perm. exact Hfew.
Qed.

Lemma history_is_of_the_fitting_witness :
  exists history,
    fst (getTrackingHistory quiet_env "RC-0001" getTrackingHistory_default_limit (after_scans 2))
      = Ok history /\
    newest_first_sorted history.
Proof.
  destruct (history_is_of_the_fitting quiet_env (after_scans 2)
              ["track_1000_i"; "track_1003_i"] "RC-0001" getTrackingHistory_default_limit)
    as (history & Hrun & _ & Hsorted & _).
  - intros k. reflexivity.
  - vm_compute. reflexivity.
  - vm_compute. discriminate.
  - exists history. auto.
Defined.

(** X4: with storage in working order, once the tracking data has been
    cleared nothing is listed any more and a sync cycle finds nothing to
    do. *)
Theorem cleared_tracker_is_empty env (w : World) (ids : list string) :
  healthy_storage env ->
  storage w !! "tracking_master_list" = Some (SIds ids) ->
  fst (clearTrackingData env w) = Ok Cleared /\
  fst (getAllTrackingEntries env (snd (clearTrackingData env w))) = Ok [] /\
  fst (syncPendingEntries env (snd (clearTrackingData env w))) = Ok (SyncDone 0 None).
Proof.
  intros Hs Hlist.
  destruct (clearTrackingData_healthy env w ids Hs Hlist)
    as (w' & Hrun & _ & Hmaster & _ & Hqueue).
  rewrite Hrun. cbn [fst snd]. split; [reflexivity|]. split.
  - by apply getAllTrackingEntries_empty.
  - unfold syncPendingEntries, try_catch. rewrite Hqueue. reflexivity.
Qed.

Lemma cleared_tracker_is_empty_witness :
  fst (clearTrackingData quiet_env (after_scans 2)) = Ok Cleared /\
  fst (getAllTrackingEntries quiet_env (snd (clearTrackingData quiet_env (after_scans 2))))
    = Ok [] /\
  fst (syncPendingEntries quiet_env (snd (clearTrackingData quiet_env (after_scans 2))))
    = Ok (SyncDone 0 None).
Proof.
  apply (cleared_tracker_is_empty quiet_env (after_scans 2) ["track_1000_i"; "track_1003_i"]).
  - intros k. reflexivity.
  - vm_compute. reflexivity.
Defined.

(** X5: when the read of the master list fails, [clearTrackingData] does
    not know which entries there are: it logs the failure, removes the
    master list only, empties the cache and the queue and reports
    success, so every entry record is still in the store. *)
Theorem clear_without_the_master_list env (w : World) (error : exn) :
  storage_fault env (storage_ops w) = Some error ->
  storage_fault env (S (storage_ops w)) = None ->
  exists w',
    clearTrackingData env w = (Ok Cleared, w') /\
    storage w' = delete "tracking_master_list" (storage w) /\
    (forall id, id <> "master_list" ->
                storage w' !! ("tracking_" +:+ id) = storage w !! ("tracking_" +:+ id)) /\
    trackingCache w' = ∅ /\ syncQueue w' = [] /\
    console w' = console w ++ [mkLine LError "Get master tracking list error:" None (Some error)].
Proof.
  intros H0 H1.
  unfold clearTrackingData, getMasterTrackingList, AsyncStorage_getItem,
    AsyncStorage_removeItem, storage_call.
  run. rewrite H0. run. cbn [iterate]. run. cbn [for_of]. run. world_simpl. rewrite H1.
  eexists. split; [reflexivity|]. world_simpl. repeat split; auto.
  intros id Hid. apply lookup_delete_ne. intros H. apply Hid.
  symmetry. by apply tracking_key_inj.
Qed.

Lemma clear_without_the_master_list_witness :
  exists w',
    clearTrackingData
      (with_faults (fun k => if (k =? 6)%nat then Some (mkExn StorageError "read failed") else None)
         quiet_env) (after_scans 2) = (Ok Cleared, w') /\
    storage w' !! "tracking_track_1000_i" = storage (after_scans 2) !! "tracking_track_1000_i".
Proof.
  destruct (clear_without_the_master_list
              (with_faults (fun k => if (k =? 6)%nat
                                     then Some (mkExn StorageError "read failed") else None)
                 quiet_env)
              (snd (trackScan quiet_env sample_scan (after_scans 1)))
              (mkExn StorageError "read failed"))
    as (w' & Hrun & _ & Hkeep & _).
  - vm_compute. reflexivity.
  - vm_compute. reflexivity.
  - exists w'. split; [exact Hrun|]. apply (Hkeep "track_1000_i"). discriminate.
Defined.

(** X6: when the read of the master list fails while an entry is being
    stored, and both writes succeed, the entry is written and the master
    list is replaced by a list of that one entry: what the list held
    before is no longer listed. *)
Theorem store_without_the_master_list env (w : World) (entry : TrackingEntry) (error : exn) :
  storage_fault env (storage_ops w) = None ->
  storage_fault env (S (storage_ops w)) = Some error ->
  storage_fault env (S (S (storage_ops w))) = None ->
  exists w',
    storeTrackingEntry env entry w = (Ok tt, w') /\
    storage w' = <["tracking_master_list" := SIds [entry_id entry]]>
                   (<["tracking_" +:+ entry_id entry := SEntry entry]> (storage w)) /\
    console w' = console w ++ [mkLine LError "Get master tracking list error:" None (Some error)].
Proof.
  intros H0 H1 H2.
  unfold storeTrackingEntry, getMasterTrackingList, AsyncStorage_getItem,
    AsyncStorage_setItem, storage_call.
  run. rewrite H0. run. world_simpl. rewrite H1. run. cbn [array_push]. run. world_simpl.
  rewrite H2. eexists. split; [reflexivity|]. world_simpl. auto.
Qed.

Lemma store_without_the_master_list_witness :
  exists w',
    storeTrackingEntry (fault_at 7) sample_entry (after_scans 2) = (Ok tt, w') /\
    storage w' !! "tracking_master_list" = Some (SIds ["track_1000_i"]).
Proof.
  destruct (store_without_the_master_list (fault_at 7) (after_scans 2) sample_entry
              (mkExn StorageError "read failed"))
    as (w' & Hrun & Hst & _).
  - vm_compute. reflexivity.
  - vm_compute. reflexivity.
  - vm_compute. reflexivity.
  - exists w'. split; [exact Hrun|]. rewrite Hst. apply lookup_insert_eq.
Defined.

(** ** TrackingService: import *)

Lemma import_entries env entries :
  forall importedCount w, exists w',
    for_of entries (import_entry env) importedCount w
    = (Ok (importedCount + Z.of_nat (length entries)), w') /\
    syncQueue w' = syncQueue w /\ requests w' = requests w /\
    (forall e, e ∈ entries -> is_Some (trackingCache w' !! entry_id e)) /\
    (forall k, is_Some (trackingCache w !! k) -> is_Some (trackingCache w' !! k)) /\
    ((forall k, storage_fault env k <> None) -> storage w' = storage w).
Proof.
  induction entries as [|e entries IH]; intros importedCount w.
  - exists w. cbn. rewrite Z.add_0_r. repeat split; auto. intros e He. inversion He.
  - cbn [for_of]. unfold bind at 1, import_entry at 1, cache_set. unfold try_catch, bind at 1.
    destruct (storeTrackingEntry_total env e w) as (w1 & Hrun1 & Hc1 & Hq1 & Hr1 & _).
    assert (Hbroken1 : (forall k, storage_fault env k <> None) -> storage w1 = storage w).
    { intros Hb. revert Hrun1.
      unfold storeTrackingEntry, AsyncStorage_setItem, storage_call. run.
      destruct (storage_fault env (storage_ops w)) eqn:Hf; [|by apply Hb in Hf].
      run. intros [= <-]. reflexivity. }
    rewrite Hrun1. run.
    destruct (IH (importedCount + 1)
                (with_trackingCache (fun c => <[entry_id e := e]> c) w1))
      as (w' & Hrun & Hq & Hr & Hin & Hkeep & Hbroken).
    exists w'. rewrite Hrun. world_simpl. cbn [length]. split; [do 2 f_equal; lia|].
    rewrite Hq, Hr, Hq1, Hr1. repeat split; auto.
    + intros e' He'. apply elem_of_cons in He' as [->|He']; [|by apply Hin].
      apply Hkeep. rewrite lookup_insert_eq. eauto.
    + intros k Hk. apply Hkeep. rewrite lookup_insert_is_Some.
      destruct (decide (entry_id e = k)); [by left|right]. split; [assumption|].
      by rewrite Hc1.
    + intros Hb. rewrite (Hbroken Hb). world_simpl. by apply Hbroken1.
Qed.

(** X8: [importTrackingData] counts every entry it is given as imported,
    whatever the store did with it: even when every storage operation
    fails and the store is left as it was, it reports that all were
    imported.  The imported entries are in the cache; none is put on the
    sync queue and no request is made.  Import data without entries is
    refused. *)
Theorem import_counts_every_entry env (w : World) (entries : list TrackingEntry) :
  (exists w',
     importTrackingData env (Some entries) w
     = (Ok (Imported (Z.of_nat (length entries)) (Z.of_nat (length entries))), w') /\
     syncQueue w' = syncQueue w /\ requests w' = requests w /\
     (forall e, e ∈ entries -> is_Some (trackingCache w' !! entry_id e)) /\
     ((forall k, storage_fault env k <> None) -> storage w' = storage w)) /\
  (exists w',
     importTrackingData env None w = (Ok (ImportFailed "Invalid import data format"), w') /\
     storage w' = storage w /\ trackingCache w' = trackingCache w /\
     syncQueue w' = syncQueue w).
Proof.
  split.
  - destruct (import_entries env entries 0 w) as (w' & Hrun & Hq & Hr & Hin & _ & Hbroken).
    exists w'. unfold importTrackingData, try_catch, bind. rewrite Hrun. auto.
  - eexists. unfold importTrackingData. run. split; [reflexivity|]. world_simpl. auto.
Qed.

Lemma import_counts_every_entry_witness :
  exists w',
    importTrackingData broken_storage_env (Some [sample_entry]) empty_world
    = (Ok (Imported 1 1), w') /\
    storage w' = storage empty_world.
Proof.
  destruct (proj1 (import_counts_every_entry broken_storage_env empty_world [sample_entry]))
    as (w' & Hrun & _ & _ & _ & Hbroken).
  exists w'. split; [exact Hrun|]. apply Hbroken. intros k. discriminate.
Defined.

Lemma listed_entries_elem (s : gmap string stored) ids id e :
  id ∈ ids -> s !! ("tracking_" +:+ id) = Some (SEntry e) -> e ∈ listed_entries s ids.
Proof.
  intros Hid Hs. unfold listed_entries. apply list_elem_of_omap.
  exists id. split; [exact Hid|]. by rewrite Hs.
Qed.

Lemma import_entries_healthy env (Hs : healthy_storage env) entries :
  (forall e, e ∈ entries -> entry_id e <> "master_list") ->
  forall importedCount w ids,
    storage w !! "tracking_master_list" = Some (SIds ids) ->
    exists n w',
      for_of entries (import_entry env) importedCount w = (Ok n, w') /\
      storage w' !! "tracking_master_list" = Some (SIds (ids ++ map entry_id entries)) /\
      (forall id, id <> "master_list" -> id ∉ map entry_id entries ->
                  storage w' !! ("tracking_" +:+ id) = storage w !! ("tracking_" +:+ id)) /\
      (forall e, e ∈ entries ->
                 exists e', e' ∈ entries /\ entry_id e' = entry_id e /\
                            storage w' !! ("tracking_" +:+ entry_id e) = Some (SEntry e')).
Proof.
  induction entries as [|e entries IH]; intros Hids importedCount w ids Hlist.
  - exists importedCount, w. cbn. rewrite app_nil_r. repeat split; auto.
    intros e He. inversion He.
  - assert (Hid : entry_id e <> "master_list") by (apply Hids; left).
    assert (Hkey : "tracking_" +:+ entry_id e <> "tracking_master_list").
    { intros H. apply Hid. by apply tracking_key_inj. }
    cbn [for_of]. unfold bind at 1, import_entry at 1, cache_set. unfold try_catch, bind at 1.
    destruct (storeTrackingEntry_healthy env e w ids Hs Hid Hlist) as (w1 & Hrun1 & Hst1).
    rewrite Hrun1. run.
    destruct (IH (fun e' He' => Hids e' (list_elem_of_further _ _ _ He')) (importedCount + 1)
                (with_trackingCache (fun c => <[entry_id e := e]> c) w1)
                (ids ++ [entry_id e]))
      as (n & w' & Hrun & Hmaster & Hother & Hstored).
    { world_simpl. rewrite Hst1. apply lookup_insert_eq. }
    world_simpl.
    exists n, w'. rewrite Hrun. split; [reflexivity|]. split; [|split].
    + rewrite Hmaster, <- app_assoc. reflexivity.
    + intros id Hne Hnin. cbn [map] in Hnin. rewrite not_elem_of_cons in Hnin.
      destruct Hnin as [Hne' Hnin]. rewrite (Hother id Hne Hnin), Hst1.
      rewrite lookup_insert_ne
        by (intros H; apply Hne; symmetry; by apply tracking_key_inj).
      apply lookup_insert_ne. intros H. apply Hne'. symmetry. by apply tracking_key_inj.
    + intros e0 He0.
      destruct (decide (entry_id e0 ∈ map entry_id entries)) as [Hin|Hnin].
      * apply list_elem_of_fmap in Hin. destruct Hin as (e1 & Heq & He1).
        destruct (Hstored e1 He1) as (e' & He' & Hid' & Hst').
        exists e'. split; [by right|]. rewrite Heq. auto.
      * apply elem_of_cons in He0 as [->|He0].
        -- exists e. split; [left|]. split; [reflexivity|].
           rewrite (Hother (entry_id e) Hid Hnin), Hst1.
           rewrite lookup_insert_ne by congruence. apply lookup_insert_eq.
        -- exfalso. apply Hnin. by apply list_elem_of_fmap_2.
Qed.

(** X9: with storage in working order, importing entries appends their
    ids, in order and repeats included, to the master list, and every
    imported entry is listed afterwards: [getAllTrackingEntries] returns an
    imported entry of its id (the last one imported under that id). *)
Theorem imported_entries_are_listed env (w : World) (ids : list string)
    (entries : list TrackingEntry) :
  healthy_storage env ->
  storage w !! "tracking_master_list" = Some (SIds ids) ->
  (forall e, e ∈ entries -> entry_id e <> "master_list") ->
  storage (snd (importTrackingData env (Some entries) w)) !! "tracking_master_list"
    = Some (SIds (ids ++ map entry_id entries)) /\
  exists listing,
    fst (getAllTrackingEntries env (snd (importTrackingData env (Some entries) w))) = Ok listing /\
    forall e, e ∈ entries ->
      exists e', e' ∈ entries /\ entry_id e' = entry_id e /\ e' ∈ listing.
Proof.
  intros Hs Hlist Hids.
  destruct (import_entries_healthy env Hs entries Hids 0 w ids Hlist)
    as (n & w' & Hrun & Hmaster & _ & Hstored).
  assert (Himport : snd (importTrackingData env (Some entries) w) = w').
  { unfold importTrackingData, try_catch, bind. rewrite Hrun. reflexivity. }
  rewrite Himport. split; [exact Hmaster|].
  destruct (getAllTrackingEntries_listed env Hs w' _ Hmaster) as (w2 & Hall & _).
  eexists. split; [by rewrite Hall|].
  intros e He. destruct (Hstored e He) as (e' & He' & Hid & Hst).
  exists e'. split; [exact He'|]. split; [exact Hid|].
  eapply listed_entries_elem; [|exact Hst].
  apply elem_of_app. right. by apply list_elem_of_fmap_2.
Qed.

Lemma imported_entries_are_listed_witness :
  storage (snd (importTrackingData quiet_env (Some [sample_entry; sample_entry]) small_world))
    !! "tracking_master_list"
  = Some (SIds ([] ++ map entry_id [sample_entry; sample_entry])).
Proof.
  refine (proj1 (imported_entries_are_listed quiet_env small_world []
                   [sample_entry; sample_entry] _ _ _)).
  - intros k. reflexivity.
  - vm_compute. reflexivity.
  - intros e He. rewrite !elem_of_cons, elem_of_nil in He.
    destruct He as [->|[->|[]]]; discriminate.
Defined.

(** ** TrackingService: the sync queue and the statistics *)

Lemma timed_out_sublist env k queue : timed_out env k queue `sublist_of` queue.
Proof.
  revert k. induction queue as [|entry queue IH]; intros k; cbn; [constructor|].
  destruct (negb (Qle_bool (math_random env k) double_0_9));
    [by apply sublist_skip | by apply sublist_cons].
Qed.

Lemma sync_entries_world env queue :
  forall acc w r w',
    for_of queue (sync_entry env) acc w = (r, w') ->
    storage w' = storage w /\ requests w' = requests w /\
    trackingCache w' = trackingCache w.
Proof.
  induction queue as [|entry queue IH]; intros [syncedCount failedEntries] w r w'.
  - cbn. intros [= <- <-]. auto.
  - cbn [for_of]. unfold bind at 1, sync_entry at 1, simulateServerSync, Math_random.
    run. destruct (negb (Qle_bool (math_random env (random_draws w)) double_0_9)); run;
      intros Hrun; apply IH in Hrun; world_simpl; exact Hrun.
Qed.

(** X10: a sync cycle of the tracking queue only ever takes entries off
    the queue: what is left is a sub-sequence of what was queued, in the
    same order, and the number reported as synced is the number taken
    off.  The cycle touches neither the durable store nor the cache (a
    synced entry stays stored and listed as it was) and makes no
    request. *)
Theorem sync_cycle_only_dequeues env (w : World) :
  exists synced failed w',
    syncPendingEntries env w = (Ok (SyncDone synced failed), w') /\
    syncQueue w' `sublist_of` syncQueue w /\
    synced + Z.of_nat (length (syncQueue w')) = Z.of_nat (length (syncQueue w)) /\
    storage w' = storage w /\ trackingCache w' = trackingCache w /\
    requests w' = requests w.
Proof.
  unfold syncPendingEntries, try_catch.
  destruct (syncQueue w) as [|entry queue] eqn:Hqueue.
  - exists 0, None, w. cbn. rewrite Hqueue. repeat split; auto.
  - destruct (sync_entries env (entry :: queue) 0 [] w) as (n & w1 & Hrun & _ & _ & Hn).
    destruct (sync_entries_world env _ _ _ _ _ Hrun) as (Hst & Hr & Hc).
    remember (timed_out env (random_draws w) (entry :: queue)) as failedEntries.
    exists (0 + n), (Some (Z.of_nat (length ([] ++ failedEntries)))),
      (with_syncQueue ([] ++ failedEntries) w1).
    cbn [length Nat.eqb]. unfold bind at 1. rewrite Hrun.
    unfold bind, ret. cbn beta iota. world_simpl. split; [reflexivity|].
    cbn [app]. repeat split; auto.
    + subst failedEntries. apply timed_out_sublist.
    + cbn [length] in Hn. cbn [length]. lia.
Qed.

Lemma status_counts (l : list TrackingEntry) :
  with_status "scanned" l + with_status "inspected" l + with_status "moved" l
    <= Z.of_nat (length l) /\
  0 <= with_status "scanned" l /\ 0 <= with_status "inspected" l /\ 0 <= with_status "moved" l.
Proof.
  unfold with_status. split; [|lia].
  induction l as [|e l IH]; [cbn; lia|].
  rewrite !filter_cons. cbn [length].
  repeat case_decide; cbn [length]; try lia; congruence.
Qed.

(** X11: whatever the store does, [getActivityStats] answers for the
    timeframe asked with a period and with counts, never with its all-zero
    fallback: the scans, inspections and movements it counts are disjoint
    parts of the total (they add up to no more than it), and the store is
    left as it was. *)
Theorem activity_counts_are_consistent env (calendar : Calendar) (w : World) (tf : string) :
  exists stats w' start now,
    getActivityStats env calendar tf w = (Ok stats, w') /\
    timeframe stats = tf /\ period stats = Some (start, now) /\
    0 <= scans stats /\ 0 <= inspections stats /\ 0 <= movements stats /\
    scans stats + inspections stats + movements stats <= totalActivities stats /\
    storage w' = storage w.
Proof.
  destruct (getAllTrackingEntries_total env w) as (l & w1 & Hall & Hst & _).
  unfold getActivityStats, Date_now. unfold try_catch, bind at 1. rewrite Hall.
  run. do 4 eexists. split; [reflexivity|]. cbn [timeframe period scans inspections movements
                                                  totalActivities].
  world_simpl. split; [reflexivity|]. split; [reflexivity|].
  match goal with
  | |- context [with_status "scanned" ?f] => pose proof (status_counts f) as Hcounts
  end.
  intuition.
Qed.

(** ** InspectionService: validation and submission *)

(** X12: an inspection is valid exactly when its QR code matches the
    code pattern, the inspector's name and the inspection type are filled
    in, and each of the length, width and hardness boxes is empty or a
    number.  An inspection that is not valid is refused with the list of
    what is wrong, which is not empty, and the world is left untouched:
    nothing is uploaded, stored or logged. *)
Theorem invalid_inspection_is_refused env (w : World) (data : InspectionData) :
  ((validateInspectionData env data).1 = true <->
   isValidQRCode (qrCode data) = true /\
   nonempty (inspectorName data) = true /\
   nonempty (inspectionType data) = true /\
   (nonempty (dim_length (dimensionalCheck data)) = true ->
    isNaN env (dim_length (dimensionalCheck data)) = false) /\
   (nonempty (dim_width (dimensionalCheck data)) = true ->
    isNaN env (dim_width (dimensionalCheck data)) = false) /\
   (nonempty (hardness (materialCheck data)) = true ->
    isNaN env (hardness (materialCheck data)) = false)) /\
  ((validateInspectionData env data).1 = false ->
   (validateInspectionData env data).2 <> [] /\
   submitInspection env data w
   = (Ok (SubmissionFailed (String.concat ", " (validateInspectionData env data).2)), w)).
Proof.
  split.
  - assert (Hqr : nonempty (qrCode data) = false -> isValidQRCode (qrCode data) = false).
    { unfold nonempty. rewrite negb_false_iff, String.eqb_eq. intros ->. reflexivity. }
    unfold validateInspectionData. cbn [fst].
    destruct (nonempty (qrCode data)) eqn:Hq; [clear Hqr | specialize (Hqr eq_refl)];
      destruct (isValidQRCode (qrCode data));
      destruct (nonempty (inspectorName data)), (nonempty (inspectionType data));
      destruct (nonempty (dim_length (dimensionalCheck data))),
               (isNaN env (dim_length (dimensionalCheck data)));
      destruct (nonempty (dim_width (dimensionalCheck data))),
               (isNaN env (dim_width (dimensionalCheck data)));
      destruct (nonempty (hardness (materialCheck data))),
               (isNaN env (hardness (materialCheck data)));
      cbn; try discriminate; intuition congruence.
  - intros Hinvalid. split.
    + revert Hinvalid. unfold validateInspectionData. cbn [fst snd].
      intros H Hnil. rewrite Hnil in H. discriminate.
    + unfold submitInspection, try_catch. rewrite Hinvalid. reflexivity.
Qed.

Lemma invalid_inspection_is_refused_witness :
  (validateInspectionData quiet_env
     (mkInspectionData "RC-L1" "" "routine" None [] (mkDimensionalCheck "" "" "" "within")
        (mkMaterialCheck "" "pass" "pass") (mkFunctionalCheck "good" "satisfactory")
        "A" "" [] [])).2 <> [] /\
  submitInspection quiet_env
    (mkInspectionData "RC-L1" "" "routine" None [] (mkDimensionalCheck "" "" "" "within")
       (mkMaterialCheck "" "pass" "pass") (mkFunctionalCheck "good" "satisfactory")
       "A" "" [] []) empty_world
  = (Ok (SubmissionFailed "Inspector name is required, Invalid QR code format"), empty_world).
Proof.
  apply (proj2 (invalid_inspection_is_refused quiet_env empty_world
                  (mkInspectionData "RC-L1" "" "routine" None []
                     (mkDimensionalCheck "" "" "" "within")
                     (mkMaterialCheck "" "pass" "pass") (mkFunctionalCheck "good" "satisfactory")
                     "A" "" [] []))).
  reflexivity.
Defined.

(** X13: when the inspector's signature cannot be encoded ([btoa]
    throws), a valid inspection is not submitted at all: the caller gets
    the general failure, the error is logged, and nothing has been uploaded
    or stored. *)
Theorem unsignable_inspection_is_not_uploaded env (w : World) (data : InspectionData)
    (error : exn) :
  (validateInspectionData env data).1 = true ->
  btoa env (inspectorName data +:+ "-" +:+ pretty (date_now env (S (S (S (clock_reads w))))))
    = inl error ->
  exists w',
    submitInspection env data w = (Ok (SubmissionFailed "Failed to submit inspection"), w') /\
    requests w' = requests w /\ storage w' = storage w /\
    console w' = console w ++ [mkLine LError "Inspection submission error:" None (Some error)].
Proof.
  intros Hvalid Hbtoa.
  unfold submitInspection. unfold try_catch. rewrite Hvalid. cbn [negb].
  unfold bind at 1.
  unfold prepareInspectionPayload, generateInspectionId, calculateNextInspectionDate,
    generateInspectorSignature, Date_now, Math_random.
  run. world_simpl. rewrite Hbtoa. run.
  eexists. split; [reflexivity|]. world_simpl. auto.
Qed.

Lemma unsignable_inspection_is_not_uploaded_witness :
  exists w',
    submitInspection no_btoa_env sample_form empty_world
    = (Ok (SubmissionFailed "Failed to submit inspection"), w') /\
    requests w' = requests empty_world /\ storage w' = storage empty_world /\
    console w' = console empty_world
                 ++ [mkLine LError "Inspection submission error:" None
                       (Some (mkExn PlainError "InvalidCharacterError"))].
Proof.
  apply (unsignable_inspection_is_not_uploaded no_btoa_env empty_world sample_form).
  - vm_compute. reflexivity.
  - reflexivity.
Defined.

Lemma prepareInspectionPayload_fields env data w payload w1 :
  prepareInspectionPayload env data w = (Ok payload, w1) ->
  synced payload = false /\
  p_qrCode payload = qrCode data /\
  passStatus (overallAssessment payload) = determinePassStatus data /\
  riskLevel (overallAssessment payload) = assessRiskLevel data /\
  qualityScore payload = calculateQualityScore data /\
  overallCondition (visualInspection payload) = calculateVisualCondition (visualCheck data) /\
  accuracy (dimensionalMeasurements payload)
    = calculateDimensionalAccuracy (dimensionalCheck data) /\
  materialGrade (materialProperties payload) = determineMaterialGrade (materialCheck data).
Proof.
  unfold prepareInspectionPayload, generateInspectionId, calculateNextInspectionDate,
    generateInspectorSignature, Date_now, Math_random.
  run. destruct (btoa env _); run; intros [= <- <-]. cbn. auto 10.
Qed.

Lemma storeReportLocally_other_keys env r w k :
  k <> "inspectionReports" ->
  exists w', storeReportLocally env r w = (Ok tt, w') /\ storage w' !! k = storage w !! k.
Proof.
  intros Hk.
  unfold storeReportLocally, AsyncStorage_getItem, AsyncStorage_setItem, storage_call.
  case_faults env; try destruct (storage w !! "inspectionReports") as [[[|c s]|e'|ids|l|l|d t]|];
    case_faults env; eexists; (split; [reflexivity|]); world_simpl;
    rewrite ?lookup_insert_ne by congruence; reflexivity.
Qed.

Lemma generateInspectionReport_other_keys env data w k :
  k <> "inspectionReports" ->
  exists reportId w',
    generateInspectionReport env data w = (Ok reportId, w') /\
    storage w' !! k = storage w !! k.
Proof.
  intros Hk.
  unfold generateInspectionReport, generateNextActions, calculateNextInspectionDate, Date_now.
  run.
  match goal with
  | |- context [storeReportLocally env ?R ?W] =>
      destruct (storeReportLocally_other_keys env R W k Hk) as (w1 & Hrun & Hst)
  end.
  rewrite Hrun. do 2 eexists. split; [reflexivity|]. rewrite Hst. reflexivity.
Qed.

(** X14: with storage in working order, a submitted inspection is kept
    as the last of the local inspections (after the last 99 of those kept
    before), and it is kept as not synced, whatever the two portals
    answered: an inspection both portals accepted at submission is pending
    for the next sync cycle all the same. *)
Theorem submitted_inspection_is_kept_pending env (w w1 : World) (data : InspectionData)
    (payload : InspectionPayload) (kept : list InspectionPayload) :
  healthy_storage env ->
  storage w !! "localInspections" = Some (SInspections kept) ->
  (validateInspectionData env data).1 = true ->
  prepareInspectionPayload env data w = (Ok payload, w1) ->
  synced payload = false /\
  storage (snd (submitInspection env data w)) !! "localInspections"
    = Some (SInspections (keep_last 100 (kept ++ [payload]))) /\
  last (keep_last 100 (kept ++ [payload])) = Some payload.
Proof.
  intros Hs Hkept Hvalid Hprep.
  destruct (prepareInspectionPayload_fields env data w payload w1 Hprep) as (Hsynced & _).
  destruct (prepareInspectionPayload_local env data w _ w1 Hprep) as (_ & _ & _ & Hst1).
  destruct (submitToUDM_run env payload w1 (Hs _)) as (w2 & Hudm & _ & _ & _ & Hst2 & _).
  destruct (submitToTMS_run env payload w2 (Hs _)) as (w3 & Htms & _ & _ & _ & Hst3 & _).
  destruct (storeInspectionLocally_healthy env w3 (Some (SInspections kept)) payload Hs)
    as (w4 & Hstore & Hst4).
  { by rewrite Hst3, Hst2, Hst1. }
  { eauto. }
  destruct (generateInspectionReport_other_keys env data w4 "localInspections")
    as (reportId & w5 & Hreport & Hst5); [discriminate|].
  split; [exact Hsynced|]. split.
  - unfold submitInspection. unfold try_catch. rewrite Hvalid. cbn [negb].
    unfold bind at 1. rewrite Hprep.
    unfold bind at 1. rewrite Hudm.
    unfold bind at 1. rewrite Htms.
    unfold bind at 1. rewrite Hstore.
    unfold bind at 1. rewrite Hreport.
    cbn [ret snd]. rewrite Hst5, Hst4. apply lookup_insert_eq.
  - rewrite keep_last_drop, length_app. cbn [length].
    rewrite drop_app_le by lia. apply last_snoc.
Qed.

Lemma submitted_inspection_is_kept_pending_witness :
  synced sample_payload = false /\
  storage (snd (submitInspection tms_only_env sample_form small_world)) !! "localInspections"
    = Some (SInspections (keep_last 100 ([sample_inspection 0] ++ [sample_payload]))) /\
  last (keep_last 100 ([sample_inspection 0] ++ [sample_payload])) = Some sample_payload.
Proof.
  apply (submitted_inspection_is_kept_pending tms_only_env small_world
           (snd (prepareInspectionPayload tms_only_env sample_form small_world))
           sample_form sample_payload [sample_inspection 0]).
  - intros k. reflexivity.
  - vm_compute. reflexivity.
  - vm_compute. reflexivity.
  - vm_compute. reflexivity.
Defined.

(** ** InspectionService: sync cycles *)

(** X15: with storage in working order and whatever the network answers,
    a sync cycle posts every stored inspection that is not yet synced once
    to UDM and once to TMS, in the order of the list, and makes no other
    request: nothing is posted for an inspection already marked synced. *)
Theorem cycle_posts_each_pending_once env (w : World) (l : list InspectionPayload) :
  healthy_storage env ->
  storage w !! "localInspections" = Some (SInspections l) ->
  requests (snd (syncPendingInspections env w)) = requests w ++ cycle_requests l /\
  (forall p, p ∈ l -> synced p = false ->
             udm_request p ∈ cycle_requests l /\ tms_request p ∈ cycle_requests l) /\
  (Forall (fun p => synced p = true) l -> cycle_requests l = []).
Proof.
  intros Hs Hlist. split; [|split].
  - unfold syncPendingInspections, getLocalInspections, AsyncStorage_getItem,
      AsyncStorage_setItem, storage_call.
    unfold try_catch at 1. unfold bind at 1. unfold try_catch at 1. unfold bind at 1.
    rewrite Hs, Hlist. cbn [parsed_or_empty present JSON_parse ret].
    unfold bind at 1. cbn [as_inspections ret]. unfold bind at 1.
    destruct (sync_inspections_requests env Hs l (mkPass [] 0 0) (with_storage (fun s => s) w))
      as (pass' & w' & Hloop & Hr & _).
    rewrite Hloop. run. rewrite Hs. world_simpl. exact Hr.
  - intros p Hp Hpending. unfold cycle_requests.
    split; apply list_elem_of_In; apply in_flat_map; exists p;
      (split; [by apply list_elem_of_In|]); rewrite Hpending; cbn; auto.
  - intros Hall. clear Hlist. unfold cycle_requests.
    induction Hall as [|p l' Hp _ IH]; [reflexivity|].
    cbn [flat_map]. rewrite Hp, IH. reflexivity.
Qed.

Lemma cycle_posts_each_pending_once_witness :
  requests (snd (syncPendingInspections rejecting_env
                   (world_with_inspections [sample_inspection 0; sample_inspection 1])))
  = requests (world_with_inspections [sample_inspection 0; sample_inspection 1])
    ++ cycle_requests [sample_inspection 0; sample_inspection 1].
Proof.
  refine (proj1 (cycle_posts_each_pending_once rejecting_env
                   (world_with_inspections [sample_inspection 0; sample_inspection 1])
                   [sample_inspection 0; sample_inspection 1] _ _)).
  - intros k. reflexivity.
  - vm_compute. reflexivity.
Defined.

Lemma syncPendingInspections_stores env net w l :
  healthy_storage env ->
  answers env net ->
  storage w !! "localInspections" = Some (SInspections l) ->
  exists w',
    syncPendingInspections env w
    = (Ok (InspectionSyncDone
             (count_where (fun p => negb (synced p) && uploaded net p) l)
             (count_where (fun p => negb (synced p) && negb (uploaded net p)) l)
             (count_where (fun p => negb (synced p)) l)), w') /\
    storage w' = <["localInspections" := SInspections (map (settle net) l)]> (storage w).
Proof.
  intros Hs Hnet Hlist.
  unfold syncPendingInspections, getLocalInspections, AsyncStorage_getItem,
    AsyncStorage_setItem, storage_call.
  unfold try_catch at 1. unfold bind at 1. unfold try_catch at 1. unfold bind at 1.
  rewrite Hs, Hlist. cbn [parsed_or_empty present JSON_parse ret].
  unfold bind at 1. cbn [as_inspections ret]. unfold bind at 1.
  destruct (sync_inspections env net Hs Hnet l (mkPass [] 0 0) (with_storage (fun s => s) w))
    as (pass' & w' & Hloop & Hv & Hsc & Hfc & Hst).
  rewrite Hloop. run. rewrite Hs. eexists. split.
  - rewrite Hsc, Hfc, count_pending. cbn [successCount failCount]. rewrite !Z.add_0_l.
    reflexivity.
  - world_simpl. rewrite Hv, Hst. reflexivity.
Qed.

Lemma settle_idempotent net p : settle net (settle net p) = settle net p.
Proof.
  unfold settle. destruct (synced p) eqn:Hp; [by rewrite Hp|].
  destruct (uploaded net p) eqn:Hu; [reflexivity|]. by rewrite Hp, Hu.
Qed.

Lemma settled_count net l :
  count_where (fun p => negb (synced p) && uploaded net p) (map (settle net) l) = 0.
Proof.
  induction l as [|p l IH]; [reflexivity|].
  cbn [map count_where]. rewrite IH. unfold settle.
  destruct (synced p) eqn:Hp; [by rewrite Hp|].
  destruct (uploaded net p) eqn:Hu; [reflexivity|]. by rewrite Hp, Hu.
Qed.

(** X16: on a network whose answers depend on the request alone and with
    storage in working order, a second sync cycle right after the first
    changes nothing: it marks no further inspection and leaves the store
    exactly as the first cycle left it. *)
Theorem second_cycle_changes_nothing env (net : request -> exn + jsval) (w : World)
    (l : list InspectionPayload) :
  healthy_storage env ->
  answers env net ->
  storage w !! "localInspections" = Some (SInspections l) ->
  (exists failed total,
     fst (syncPendingInspections env (snd (syncPendingInspections env w)))
     = Ok (InspectionSyncDone 0 failed total)) /\
  storage (snd (syncPendingInspections env (snd (syncPendingInspections env w))))
  = storage (snd (syncPendingInspections env w)).
Proof.
  intros Hs Hnet Hlist.
  destruct (syncPendingInspections_stores env net w l Hs Hnet Hlist) as (w1 & Hrun1 & Hst1).
  rewrite Hrun1. cbn [snd].
  destruct (syncPendingInspections_stores env net w1 (map (settle net) l) Hs Hnet)
    as (w2 & Hrun2 & Hst2).
  { rewrite Hst1. apply lookup_insert_eq. }
  rewrite Hrun2. cbn [fst snd]. split.
  - rewrite settled_count. eauto.
  - rewrite Hst2, Hst1, insert_insert_eq. do 2 f_equal.
    rewrite <- list_fmap_compose. apply list_fmap_ext. intros i p _. apply settle_idempotent.
Qed.

Lemma second_cycle_changes_nothing_witness :
  storage (snd (syncPendingInspections udm_only_env
                  (snd (syncPendingInspections udm_only_env
                          (world_with_inspections [sample_inspection 0])))))
  = storage (snd (syncPendingInspections udm_only_env
                    (world_with_inspections [sample_inspection 0]))).
Proof.
  refine (proj2 (second_cycle_changes_nothing udm_only_env udm_only_net
                   (world_with_inspections [sample_inspection 0])
                   [sample_inspection 0] _ _ _)).
  - intros k. reflexivity.
  - intros k r. reflexivity.
  - vm_compute. reflexivity.
Defined.

(** X17: when the read of the local inspections fails at the start of a
    sync cycle and the write at its end succeeds, the cycle takes the list
    to be empty: it makes no request, reports success with nothing pending,
    and writes the empty list over whatever inspections were stored. *)
Theorem failed_read_empties_local_inspections env (w : World) (error : exn) :
  storage_fault env (storage_ops w) = Some error ->
  storage_fault env (S (storage_ops w)) = None ->
  exists w',
    syncPendingInspections env w = (Ok (InspectionSyncDone 0 0 0), w') /\
    storage w' = <["localInspections" := SInspections []]> (storage w) /\
    requests w' = requests w /\
    console w' = console w ++ [mkLine LError "Local retrieval error:" None (Some error)].
Proof.
  intros H0 H1.
  unfold syncPendingInspections, getLocalInspections, AsyncStorage_getItem,
    AsyncStorage_setItem, storage_call.
  run. rewrite H0. run. cbn [as_inspections]. run. cbn [for_of]. run. world_simpl.
  rewrite H1. eexists. split; [reflexivity|]. world_simpl. auto.
Qed.

Lemma failed_read_empties_local_inspections_witness :
  exists w',
    syncPendingInspections (fault_at 0) (world_with_inspections hundred_unsynced)
    = (Ok (InspectionSyncDone 0 0 0), w') /\
    storage w' !! "localInspections" = Some (SInspections []).
Proof.
  destruct (failed_read_empties_local_inspections (fault_at 0)
              (world_with_inspections hundred_unsynced) (mkExn StorageError "read failed")
              eq_refl eq_refl)
    as (w' & Hrun & Hst & _).
  exists w'. split; [exact Hrun|]. rewrite Hst. apply lookup_insert_eq.
Defined.

(** ** InspectionService: assessment *)

Lemma visualDefects_nonneg v : 0 <= visualDefects v.
Proof. unfold visualDefects. lia. Qed.

Lemma pass_is_low_risk_helper (data : InspectionData) :
  (determinePassStatus data = true <-> assessRiskLevel data = "Low") /\
  (determinePassStatus data = true ->
   visualDefects (visualCheck data) = 0 /\
   tolerance (dimensionalCheck data) = "within" /\
   tensileStrength (materialCheck data) = "pass").
Proof.
  pose proof (visualDefects_nonneg (visualCheck data)) as Hd.
  unfold determinePassStatus, assessRiskLevel.
  destruct (String.eqb_spec (tolerance (dimensionalCheck data)) "within") as [Ht|Ht];
    destruct (String.eqb_spec (tensileStrength (materialCheck data)) "pass") as [Hm|Hm];
    destruct (Z.eqb_spec (visualDefects (visualCheck data)) 0) as [H0|H0];
    destruct (Z.ltb_spec 2 (visualDefects (visualCheck data)));
    destruct (Z.ltb_spec 0 (visualDefects (visualCheck data)));
    try rewrite Ht; cbn; repeat split; try (intros; discriminate); try congruence; try lia.
Qed.

(** X18: an inspection passes exactly when its risk is assessed Low.  A
    Medium risk is one or two visual defects on a fitting within tolerance
    whose tensile strength passed: a marginal tolerance is never Medium,
    it is High like any tolerance other than [within]. *)
Theorem pass_is_low_risk (data : InspectionData) :
  (determinePassStatus data = true <-> assessRiskLevel data = "Low") /\
  (assessRiskLevel data = "Medium" ->
   tolerance (dimensionalCheck data) = "within" /\
   tensileStrength (materialCheck data) = "pass" /\
   1 <= visualDefects (visualCheck data) <= 2) /\
  (tolerance (dimensionalCheck data) = "marginal" -> assessRiskLevel data = "High").
Proof.
  pose proof (visualDefects_nonneg (visualCheck data)) as Hd.
  unfold determinePassStatus, assessRiskLevel.
  destruct (String.eqb_spec (tolerance (dimensionalCheck data)) "within") as [Ht|Ht];
    destruct (String.eqb_spec (tensileStrength (materialCheck data)) "pass") as [Hm|Hm];
    destruct (Z.eqb_spec (visualDefects (visualCheck data)) 0) as [H0|H0];
    destruct (Z.ltb_spec 2 (visualDefects (visualCheck data)));
    destruct (Z.ltb_spec 0 (visualDefects (visualCheck data)));
    try rewrite Ht; cbn; repeat split; try (intros; discriminate); try congruence; try lia;
    try (intros ->; cbn; reflexivity).
Qed.

Lemma pass_is_low_risk_witness :
  assessRiskLevel sample_form = "Low" /\ assessRiskLevel marginal_form = "High".
Proof.
  split.
  - apply (proj1 (proj1 (pass_is_low_risk sample_form))). vm_compute. reflexivity.
  - apply (proj2 (proj2 (pass_is_low_risk marginal_form))). reflexivity.
Defined.

(** X19: the actions that follow an inspection always end with the
    scheduling of the next one.  A passed inspection gets that action
    alone; a failed one gets the immediate remedial measures first, and
    two or three actions in all. *)
Theorem next_actions_follow_the_result env (w : World) (data : InspectionData) :
  exists actions nextDate,
    generateNextActions env data w = (Ok actions, tick_clock w) /\
    last actions = Some (mkAction ("Next inspection due: " +:+ nextDate) "Medium"
                           "As scheduled" "Inspection Team") /\
    (determinePassStatus data = true -> length actions = 1%nat) /\
    (determinePassStatus data = false ->
     head actions = Some (mkAction "Immediate remedial measures required" "High"
                            "Within 24 hours" "Maintenance Team") /\
     (2 <= length actions <= 3)%nat).
Proof.
  destruct (pass_is_low_risk_helper data) as [Hlow _].
  unfold generateNextActions, calculateNextInspectionDate, Date_now. run.
  do 2 eexists. split; [reflexivity|].
  destruct (determinePassStatus data) eqn:Hpass; cbn [negb].
  - rewrite (proj1 Hlow eq_refl). cbn. repeat split; try discriminate. 
  - destruct (String.eqb (assessRiskLevel data) "High"); cbn;
      repeat split; try discriminate; lia.
Qed.

Lemma next_actions_follow_the_result_witness :
  exists actions,
    fst (generateNextActions quiet_env sample_form empty_world) = Ok actions /\
    length actions = 1%nat.
Proof.
  destruct (next_actions_follow_the_result quiet_env empty_world sample_form)
    as (actions & nextDate & Hrun & _ & Hone & _).
  exists actions. split.
  - rewrite Hrun. reflexivity.
  - apply Hone. vm_compute. reflexivity.
Defined.

(** X20: the assessment in a prepared payload hangs together.  When the
    payload says the inspection passed, it also says the risk is Low, the
    visual condition Excellent, the dimensional accuracy High and the
    material grade A or B, and its quality score is at least 60: a passed
    inspection loses points only for chemical composition and functional
    performance. *)
Theorem passed_payload_is_consistent env (w w1 : World) (data : InspectionData)
    (payload : InspectionPayload) :
  prepareInspectionPayload env data w = (Ok payload, w1) ->
  passStatus (overallAssessment payload) = true ->
  riskLevel (overallAssessment payload) = "Low" /\
  overallCondition (visualInspection payload) = "Excellent" /\
  accuracy (dimensionalMeasurements payload) = "High" /\
  (materialGrade (materialProperties payload) = "A" \/
   materialGrade (materialProperties payload) = "B") /\
  60 <= qualityScore payload <= 100.
Proof.
  intros Hprep Hpass.
  destruct (prepareInspectionPayload_fields env data w payload w1 Hprep)
    as (_ & _ & Hp & Hrisk & Hscore & Hcond & Hacc & Hgrade).
  rewrite Hp in Hpass. rewrite Hrisk, Hscore, Hcond, Hacc, Hgrade.
  destruct (pass_is_low_risk_helper data) as [Hlow Hparts].
  destruct (Hparts Hpass) as (Hdefects & Htol & Htens).
  split; [by apply Hlow|].
  unfold calculateVisualCondition, calculateDimensionalAccuracy, determineMaterialGrade,
    calculateQualityScore.
  rewrite Hdefects, Htol, Htens. cbn.
  split; [reflexivity|]. split; [reflexivity|]. split.
  - destruct (String.eqb (chemicalComposition (materialCheck data)) "pass"); auto.
  - destruct (String.eqb (chemicalComposition (materialCheck data)) "fail"),
             (String.eqb (performance (functionalCheck data)) "poor"),
             (String.eqb (performance (functionalCheck data)) "acceptable"); lia.
Qed.

Lemma passed_payload_is_consistent_witness :
  riskLevel (overallAssessment sample_payload) = "Low" /\
  overallCondition (visualInspection sample_payload) = "Excellent" /\
  accuracy (dimensionalMeasurements sample_payload) = "High" /\
  (materialGrade (materialProperties sample_payload) = "A" \/
   materialGrade (materialProperties sample_payload) = "B") /\
  60 <= qualityScore sample_payload <= 100.
Proof.
  apply (passed_payload_is_consistent tms_only_env empty_world
           (snd (prepareInspectionPayload tms_only_env sample_form empty_world))
           sample_form sample_payload).
  - vm_compute. reflexivity.
  - vm_compute. reflexivity.
Defined.

(** ** InspectionService: history *)

Lemma sort_insert_by_key {A} (key : A -> Z) x l :
  StronglySorted (fun a b => key b <= key a) l ->
  StronglySorted (fun a b => key b <= key a) (sort_insert (fun a b => key b - key a) x l).
Proof.
  induction 1 as [|y l Hsorted IH Hy]; cbn.
  - repeat constructor.
  - destruct (Z.leb_spec (key y - key x) 0) as [Hle|Hgt].
    + constructor; [by constructor|]. constructor; [lia|].
      eapply Forall_impl; [exact Hy|]. cbn. intros z Hz. lia.
    + constructor; [exact IH|].
      rewrite sort_insert_perm. constructor; [lia | exact Hy].
Qed.

Lemma js_sort_by_key {A} (key : A -> Z) l :
  StronglySorted (fun a b => key b <= key a) (js_sort (fun a b => key b - key a) l).
Proof.
  induction l as [|x l IH]; cbn; [constructor|]. by apply sort_insert_by_key.
Qed.

(** X21: with storage in working order, the inspection history of a QR
    code is exactly the stored inspections of that code, each as often as
    it is stored, arranged most recent first; a code nothing is stored
    for, like a store without inspections, has an empty history. *)
Theorem inspection_history_is_of_the_code env (w : World) (code : string)
    (kept : list InspectionPayload) :
  healthy_storage env ->
  storage w !! "localInspections" = Some (SInspections kept) ->
  exists history,
    fst (getInspectionHistory env code w) = Ok history /\
    history ≡ₚ filter (fun p => p_qrCode p = code) kept /\
    Forall (fun p => p_qrCode p = code) history /\
    StronglySorted (fun a b => p_timestamp b <= p_timestamp a) history /\
    (Forall (fun p => p_qrCode p <> code) kept -> history = []).
Proof.
  intros Hs Hkept.
  exists (js_sort latest_first (filter (fun p => p_qrCode p = code) kept)).
  split; [|split; [|split; [|split]]].
  - unfold getInspectionHistory, getLocalInspections, AsyncStorage_getItem, storage_call.
    run. rewrite Hs, Hkept. reflexivity.
  - apply js_sort_perm.
  - rewrite js_sort_perm. apply Forall_forall. intros p Hp.
    apply list_elem_of_filter in Hp. tauto.
  - apply (js_sort_by_key p_timestamp).
  - intros Hnone. replace (filter (fun p => p_qrCode p = code) kept) with (@nil InspectionPayload);
      [reflexivity|].
    symmetry. clear Hkept. induction Hnone as [|p l Hp _ IH]; [reflexivity|].
    rewrite filter_cons. case_decide; [contradiction | exact IH].
Qed.

Lemma inspection_history_is_of_the_code_witness :
  exists history,
    fst (getInspectionHistory quiet_env sample_qr
           (world_with_inspections [sample_inspection 0; sample_inspection 1])) = Ok history /\
    history ≡ₚ filter (fun p => p_qrCode p = sample_qr) [sample_inspection 0; sample_inspection 1].
Proof.
  destruct (inspection_history_is_of_the_code quiet_env
              (world_with_inspections [sample_inspection 0; sample_inspection 1]) sample_qr
              [sample_inspection 0; sample_inspection 1])
    as (history & Hrun & Hperm & _).
  - intros k. reflexivity.
  - vm_compute. reflexivity.
  - exists history. auto.
Defined.

(** ** QRService and its users *)

(** X22: a QR code that InspectionService accepts as well-formed has
    exactly five dash-separated parts and is always parsed successfully by
    QRService, online or offline. *)
Theorem valid_code_is_parsed env (w : World) (code : string) :
  isValidQRCode code = true ->
  length (split_dash code) = 5%nat /\
  exists data w', parseQRCode env code w = (Ok (Parsed data), w').
Proof.
  unfold isValidQRCode. intros Hvalid.
  destruct (split_dash code) as [|type [|lot [|date [|vendor [|serial [|extra rest]]]]]] eqn:Hparts;
    try discriminate.
  split; [reflexivity|].
  apply andb_prop in Hvalid as [Hvalid _]. apply andb_prop in Hvalid as [Hvalid _].
  apply andb_prop in Hvalid as [Hvalid _]. apply andb_prop in Hvalid as [Htype _].
  destruct (getFittingDetails_returns env code w type lot date [vendor; serial] Hparts)
    as (details & w' & Hrun & _).
  eexists. exists w'.
  apply (parseQRCode_accepted env code w details w'); [| |exact Hrun].
  - rewrite Hparts. reflexivity.
  - rewrite Hparts. exact Htype.
Qed.

Lemma valid_code_is_parsed_witness :
  length (split_dash sample_qr) = 5%nat /\
  exists data w', parseQRCode broken_storage_env sample_qr empty_world = (Ok (Parsed data), w').
Proof.
  apply (valid_code_is_parsed broken_storage_env empty_world sample_qr).
  vm_compute. reflexivity.
Defined.

Lemma digit_is_not_slash c : is_digit c = true -> Ascii.eqb c "/" = false.
Proof.
  intros Hd. destruct (Ascii.eqb_spec c "/"%char) as [->|]; [|reflexivity].
  vm_compute in Hd. discriminate.
Qed.

Lemma split_from_other sep cur c rest :
  Ascii.eqb c sep = false ->
  split_from sep cur (String c rest) = split_from sep (cur +:+ String c EmptyString) rest.
Proof. intros H. cbn. by rewrite H. Qed.

Lemma split_from_sep sep cur rest :
  split_from sep cur (String sep rest) = cur :: split_from sep "" rest.
Proof. cbn. by rewrite Ascii.eqb_refl. Qed.

(** X23: an eight-digit date of a QR code, YYYYMMDD, is shown by
    QRService as DD/MM/YYYY, and AIService, which splits that on the
    slashes and reverses it, reads back the same date in ISO order,
    YYYY-MM-DD: the age of the fitting is counted from the date in the
    code. *)
Theorem formatted_date_reads_back env (w : World) (date : string) :
  String.length date = 8%nat ->
  all_chars is_digit date = true ->
  formatDate date = substring 6 2 date +:+ "/" +:+ substring 4 2 date +:+ "/" +:+ substring 0 4 date /\
  fst (calculateAge env (formatDate date) w)
  = Ok (match date_parse env (substring 0 4 date +:+ "-" +:+ substring 4 2 date +:+ "-"
                              +:+ substring 6 2 date) with
        | Some t => Some ((date_now env (clock_reads w) - t) / (1000 * 60 * 60 * 24))
        | None => None
        end).
Proof.
  intros Hlen Hdigits.
  destruct date as [|c1 [|c2 [|c3 [|c4 [|c5 [|c6 [|c7 [|c8 [|c9 rest]]]]]]]]]; try discriminate.
  unfold all_chars in Hdigits. cbn [list_ascii_of_string forallb] in Hdigits.
  repeat (apply andb_prop in Hdigits as [?%digit_is_not_slash Hdigits]).
  split; [reflexivity|].
  unfold calculateAge, Date_now. run. cbn [fst]. do 2 f_equal.
  cbv [formatDate String.length Nat.eqb substring String.append split_on].
  repeat (first [rewrite split_from_sep | rewrite split_from_other by assumption];
          cbv [String.append]).
  reflexivity.
Qed.

Lemma formatted_date_reads_back_witness :
  formatDate "20240101" = substring 6 2 "20240101" +:+ "/" +:+ substring 4 2 "20240101" +:+ "/"
                          +:+ substring 0 4 "20240101" /\
  fst (calculateAge quiet_env (formatDate "20240101") empty_world)
  = Ok (match date_parse quiet_env (substring 0 4 "20240101" +:+ "-" +:+ substring 4 2 "20240101"
                                    +:+ "-" +:+ substring 6 2 "20240101") with
        | Some t => Some ((date_now quiet_env (clock_reads empty_world) - t) / (1000 * 60 * 60 * 24))
        | None => None
        end).
Proof.
  apply (formatted_date_reads_back quiet_env empty_world "20240101"); reflexivity.
Defined.

Lemma obj_of_props_lookup (l : list (string * jsval)) k v :
  NoDup l.*1 -> (k, v) ∈ l -> obj_of_props l !! k = Some v.
Proof.
  induction l as [|[k' v'] l IH]; intros Hnodup Hin; [inversion Hin|].
  rewrite fmap_cons, NoDup_cons in Hnodup. destruct Hnodup as [Hfresh Hnodup].
  rewrite obj_of_props_cons. apply elem_of_cons in Hin as [[= -> ->]|Hin].
  - rewrite obj_of_props_absent by exact Hfresh. by rewrite decide_True.
  - by rewrite (IH Hnodup Hin).
Qed.

Ltac distinct_keys :=
  cbn [fmap list_fmap fst];
  repeat (apply NoDup_cons; split;
          [rewrite ?not_elem_of_cons; repeat split; try discriminate; apply not_elem_of_nil|]);
  apply NoDup_nil_2.

Ltac find_prop :=
  repeat (first [apply list_elem_of_here | apply list_elem_of_further]).

(** X24: when the portal cannot be asked (the token read fails) or does
    not answer, a well-formed code (one [isValidQRCode] accepts: an ASCII
    code whose date is eight digits and whose vendor is VND and three
    digits) is still parsed successfully, from the code alone: the five
    fields are its parts, the type name and the vendor name are looked up
    from the type and vendor codes, the supply date is the code's date as
    DD/MM/YYYY, the unit price is that of the type, and the total value is
    0. *)
Theorem offline_parse_reads_the_code env (w : World) (code type lot date vendor serial : string)
    (error : exn) :
  isValidQRCode code = true ->
  split_dash code = [type; lot; date; vendor; serial] ->
  (storage_fault env (storage_ops w) = Some error \/
   (storage_fault env (storage_ops w) = None /\
    axios_reply env (net_calls w) (mkRequest "GET" (QR_baseURL +:+ "/fittings/" +:+ code) None)
      = inl error)) ->
  exists data w',
    parseQRCode env code w = (Ok (Parsed data), w') /\
    data !! "qrCode" = Some (JStr code) /\
    data !! "typeCode" = Some (JStr type) /\
    data !! "lotNumber" = Some (JStr lot) /\
    data !! "manufactureDate" = Some (JStr date) /\
    data !! "vendorCode" = Some (JStr vendor) /\
    data !! "serialNumber" = Some (JStr serial) /\
    data !! "type" = Some (JStr (getFittingTypeName type)) /\
    data !! "vendorName" = Some (JStr (getVendorName (Some vendor))) /\
    data !! "supplyDate"
      = Some (JStr (substring 6 2 date +:+ "/" +:+ substring 4 2 date +:+ "/"
                    +:+ substring 0 4 date)) /\
    data !! "unitPrice" = Some (JNum (getUnitPrice type)) /\
    data !! "totalValue" = Some (JNum 0).
Proof.
  intros Hvalid Hparts Hoffline.
  assert (Hshape : is_type_code type = true /\ (String.length date =? 8)%nat = true).
  { unfold isValidQRCode in Hvalid. rewrite Hparts in Hvalid.
    apply andb_prop in Hvalid as [Hvalid _]. apply andb_prop in Hvalid as [Hvalid _].
    apply andb_prop in Hvalid as [Hvalid Hdate]. apply andb_prop in Hvalid as [Htype _].
    apply andb_prop in Hdate as [Hlen _]. auto. }
  destruct Hshape as [Htype Hlen].
  assert (Hfmt : formatDate date
                 = substring 6 2 date +:+ "/" +:+ substring 4 2 date +:+ "/"
                   +:+ substring 0 4 date).
  { unfold formatDate. rewrite Hlen. reflexivity. }
  rewrite <- Hfmt.
  assert (Hmock : forall e w0, exists quantity id w',
             (console_warn "UDM API error:" None e ;; getMockFittingDetails env code) w0
             = (Ok (JObj [("vendorName", JStr (getVendorName (Some vendor)));
                          ("specifications", getSpecifications type);
                          ("warrantyPeriod", JStr "24 months");
                          ("supplyDate", JStr (formatDate date));
                          ("inspectionHistory", getMockInspectionHistory);
                          ("qualityGrade", JStr "A");
                          ("location", JStr "Warehouse-A-Block-3");
                          ("quantity", quantity);
                          ("unitPrice", JNum (getUnitPrice type));
                          ("totalValue", JNum 0);
                          ("status", JStr "Good");
                          ("lastInspected", JStr "20/09/2025");
                          ("id", id)]), w')).
  { intros e w0. unfold getMockFittingDetails, console_warn, Math_random, Date_now.
    rewrite Hparts. run. do 3 eexists. reflexivity. }
  assert (Hdetails : exists quantity id w',
             getFittingDetails env code w
             = (Ok (JObj [("vendorName", JStr (getVendorName (Some vendor)));
                          ("specifications", getSpecifications type);
                          ("warrantyPeriod", JStr "24 months");
                          ("supplyDate", JStr (formatDate date));
                          ("inspectionHistory", getMockInspectionHistory);
                          ("qualityGrade", JStr "A");
                          ("location", JStr "Warehouse-A-Block-3");
                          ("quantity", quantity);
                          ("unitPrice", JNum (getUnitPrice type));
                          ("totalValue", JNum 0);
                          ("status", JStr "Good");
                          ("lastInspected", JStr "20/09/2025");
                          ("id", id)]), w')).
  { unfold getFittingDetails, AsyncStorage_getItem, storage_call, axios_get, axios_send.
    unfold try_catch at 1. unfold bind at 1.
    destruct Hoffline as [Hfault|[Hfault Hreply]]; rewrite Hfault.
    - apply Hmock.
    - cbn [net_calls with_storage]. rewrite Hreply. apply Hmock. }
  destruct Hdetails as (quantity & id & w' & Hrun).
  eexists. exists w'. split.
  - eapply parseQRCode_accepted; [| |exact Hrun].
    + rewrite Hparts. cbn [length]. reflexivity.
    + rewrite Hparts. exact Htype.
  - rewrite Hparts. cbn [own_props lookup list_lookup default app].
    match goal with
    | |- obj_of_props ?l !! _ = _ /\ _ => assert (Hnodup : NoDup l.*1) by distinct_keys
    end.
    repeat split; (apply obj_of_props_lookup; [exact Hnodup | find_prop]).
Qed.

Lemma offline_parse_reads_the_code_witness :
  exists data w',
    parseQRCode broken_storage_env sample_qr empty_world = (Ok (Parsed data), w') /\
    data !! "supplyDate" = Some (JStr "01/01/2024") /\
    data !! "vendorName" = Some (JStr "Bharat Steel Industries").
Proof.
  destruct (offline_parse_reads_the_code broken_storage_env empty_world sample_qr
              "RC" "L1" "20240101" "VND001" "00001" (mkExn StorageError "disk full"))
    as (data & w' & Hrun & _ & _ & _ & _ & _ & _ & _ & Hvendor & Hdate & _).
  - vm_compute. reflexivity.
  - vm_compute. reflexivity.
  - left. reflexivity.
  - exists data, w'. auto.
Defined.

(** ** AIService: risk factors and the risk matrix *)

(** X25: the risk factors of a fitting are always found, each of
    severity High or Medium, the last of them the traffic load.  So the
    risk level determined from them is never Low, whatever the score; and
    for a fitting of quality grade C it is High. *)
Theorem analysed_risk_is_never_low env (w : World) (fittingData : AnalysedFitting) :
  exists factors,
    identifyRiskFactors env fittingData w = (Ok factors, tick_clock w) /\
    Forall (fun f => severity f = "High" \/ severity f = "Medium") factors /\
    last factors = Some (mkRiskFactor "High Traffic Load" "Medium"
                           "Heavy freight traffic increases stress"
                           "Accelerated wear patterns and fatigue") /\
    forall score,
      determineRiskLevel score factors <> "Low" /\
      (qualityGrade (scored fittingData) = "C" ->
       determineRiskLevel score factors = "High").
Proof.
  unfold identifyRiskFactors, calculateAge, Date_now. run.
  eexists. split; [reflexivity|].
  match goal with
  | |- context [older_than ?a 365] =>
      destruct (older_than a 365); destruct (older_than a 730)
  end;
    destruct (String.eqb (qualityGrade (scored fittingData)) "C") eqn:Hgrade;
    destruct (String.eqb (vendorCode fittingData) "VND003");
    destruct (String.eqb (typeCode fittingData) "RP");
    cbn [app];
    (split; [repeat (apply List.Forall_cons; [cbn [severity]; auto|]); apply List.Forall_nil|]);
    (split; [reflexivity|]);
    intros score; unfold determineRiskLevel, some_severity;
    cbn [existsb severity String.eqb Ascii.eqb Bool.eqb orb];
    rewrite ?orb_true_r;
    (split; [destruct (score <? 60), (score <? 80); discriminate|]);
    intros Hc; try reflexivity;
    rewrite Hc in Hgrade; discriminate.
Qed.

Lemma analysed_risk_is_never_low_witness :
  exists factors,
    fst (identifyRiskFactors quiet_env sample_fitting empty_world) = Ok factors /\
    determineRiskLevel 100 factors = "High".
Proof.
  destruct (analysed_risk_is_never_low quiet_env empty_world sample_fitting)
    as (factors & Hrun & _ & _ & Hlevel).
  exists factors. split.
  - rewrite Hrun. reflexivity.
  - apply (proj2 (Hlevel 100)). reflexivity.
Defined.

Lemma risk_total (riskFactors : list RiskFactor) :
  Forall (fun f => severity f ∈ ["High"; "Medium"; "Low"]) riskFactors ->
  forall t,
    foldl (fun total f =>
             match total, severity_score (severity f) with
             | Some t, Some s => Some (t + s)
             | _, _ => None
             end) (Some t) riskFactors
    = Some (t + (3 * count_severity "High" riskFactors
                 + 2 * count_severity "Medium" riskFactors
                 + count_severity "Low" riskFactors)).
Proof.
  unfold count_severity.
  induction 1 as [|[fa se de im] l Hknown _ IH]; intros t; cbn [foldl].
  - cbn. f_equal. lia.
  - cbn [severity] in Hknown. rewrite !elem_of_cons, elem_of_nil in Hknown.
    rewrite !filter_cons. cbn [severity].
    destruct Hknown as [->|[->|[->|[]]]]; cbn [severity_score String.eqb Ascii.eqb Bool.eqb];
      rewrite IH; repeat case_decide; try discriminate; try congruence;
      cbn [length]; f_equal; lia.
Qed.

(** X26: over risk factors of the three known severities the matrix
    counts every factor once, and its total score is three points for each
    High, two for each Medium and one for each Low factor. *)
Theorem risk_matrix_totals (riskFactors : list RiskFactor) :
  Forall (fun f => severity f ∈ ["High"; "Medium"; "Low"]) riskFactors ->
  let matrix := generateRiskMatrix riskFactors in
  highRisk matrix + mediumRisk matrix + lowRisk matrix = Z.of_nat (length riskFactors) /\
  totalRiskScore matrix
  = Some (3 * highRisk matrix + 2 * mediumRisk matrix + lowRisk matrix).
Proof.
  intros Hknown. cbn zeta. unfold generateRiskMatrix.
  cbn [highRisk mediumRisk lowRisk totalRiskScore]. split.
  - unfold count_severity. clear -Hknown.
    induction Hknown as [|[fa se de im] l Hin _ IH]; [reflexivity|].
    cbn [severity] in Hin. rewrite !elem_of_cons, elem_of_nil in Hin.
    rewrite !filter_cons. cbn [severity].
    destruct Hin as [->|[->|[->|[]]]];
      repeat case_decide; try discriminate; try congruence; cbn [length]; lia.
  - rewrite (risk_total riskFactors Hknown 0). f_equal.
Qed.

Lemma risk_matrix_totals_witness :
  totalRiskScore (generateRiskMatrix [mkRiskFactor "Quality Concerns" "High" "" "";
                                      mkRiskFactor "High Traffic Load" "Medium" "" ""])
  = Some 5.
Proof.
  refine (eq_trans (proj2 (risk_matrix_totals
                             [mkRiskFactor "Quality Concerns" "High" "" "";
                              mkRiskFactor "High Traffic Load" "Medium" "" ""] _)) _).
  - repeat constructor.
  - reflexivity.
Defined.

(** ** DashboardService: cache, refresh and fallback *)

Lemma getCachedData_returns env this w :
  exists cached w1, getCachedData env this w = (Ok cached, w1).
Proof.
  unfold getCachedData, AsyncStorage_getItem, storage_call, Date_now. run.
  destruct (storage_fault env (storage_ops w)); [do 2 eexists; reflexivity|].
  destruct (storage w !! cacheKey this) as [[[|c s]|e|l|l|l|d t]|];
    cbn [present JSON_parse]; run; try (do 2 eexists; reflexivity).
  destruct (_ <? _); do 2 eexists; reflexivity.
Qed.

Lemma cacheData_returns env this data w :
  exists w1, cacheData env this data w = (Ok tt, w1).
Proof.
  unfold cacheData, AsyncStorage_setItem, storage_call, Date_now. run. world_simpl.
  destruct (storage_fault env (storage_ops w)); eexists; reflexivity.
Qed.

(** X27: reading the dashboard rejects only if the fallback does.  When
    the cache misses and the generator throws, the error is logged and the
    result is whatever the fallback gives in that world; nothing is cached.
    And with a fallback that always returns, the read returns, whatever
    the store, the clock and the generator do. *)
Theorem dashboard_data_falls_back env (this : CacheConfig)
    (generateDashboardData getFallbackData : M jsval) (w : World) :
  (forall error w1 w2,
     getCachedData env this w = (Ok None, w1) ->
     generateDashboardData w1 = (Throw error, w2) ->
     getDashboardData env this generateDashboardData getFallbackData w
     = getFallbackData (with_console (mkLine LError "Dashboard data error:" None (Some error)) w2)) /\
  ((forall w0, exists data w1, getFallbackData w0 = (Ok data, w1)) ->
   exists data w', getDashboardData env this generateDashboardData getFallbackData w
                   = (Ok data, w')).
Proof.
  split.
  - intros error w1 w2 Hmiss Hgen.
    unfold getDashboardData. unfold try_catch at 1. unfold bind at 1. rewrite Hmiss.
    unfold bind at 1. rewrite Hgen. reflexivity.
  - intros Hfallback.
    assert (Hfresh : forall w1,
               exists data w',
                 try_catch (dashboardData <- generateDashboardData ;;
                            cacheData env this dashboardData ;;
                            ret dashboardData)
                   (fun error => console_error "Dashboard data error:" None error ;;
                                 getFallbackData) w1 = (Ok data, w')).
    { intros w1. unfold try_catch at 1. unfold bind at 1.
      destruct (generateDashboardData w1) as [[fresh|error] w2].
      - unfold bind at 1. destruct (cacheData_returns env this fresh w2) as (w3 & ->).
        do 2 eexists. reflexivity.
      - unfold bind, console_error. apply Hfallback. }
    destruct (getCachedData_returns env this w) as (cached & w1 & Hread).
    unfold getDashboardData. unfold try_catch at 1. unfold bind at 1. rewrite Hread.
    destruct cached as [data|]; [destruct (js_truthy data)|].
    + do 2 eexists. reflexivity.
    + apply Hfresh.
    + apply Hfresh.
Qed.

Lemma dashboard_data_falls_back_witness :
  getDashboardData quiet_env dashboardService failing_generator (sample_generator sample_dashboard)
    empty_world
  = (Ok sample_dashboard,
     with_console (mkLine LError "Dashboard data error:" None
                     (Some (mkExn PlainError "generation failed")))
       (with_storage (fun s => s) empty_world)).
Proof.
  apply (proj1 (dashboard_data_falls_back quiet_env dashboardService failing_generator
                  (sample_generator sample_dashboard) empty_world)
           (mkExn PlainError "generation failed") (with_storage (fun s => s) empty_world)).
  - vm_compute. reflexivity.
  - reflexivity.
Defined.



(** X29: a refresh whose removal of the cache entry succeeds always runs
    the generator, however fresh the entry was, and caches what it gave.
    A refresh whose removal fails only logs the failure: when the entry is
    still within its expiry time the cached data is returned and the
    generator is not run. *)
Theorem refresh_regenerates_if_cleared env (this : CacheConfig)
    (generateDashboardData getFallbackData : M jsval) (w : World) :
  (forall fresh w2,
     storage_fault env (storage_ops w) = None ->
     storage_fault env (S (storage_ops w)) = None ->
     generateDashboardData
       (with_storage (fun s => s) (with_storage (fun s => delete (cacheKey this) s) w))
     = (Ok fresh, w2) ->
     storage_fault env (storage_ops w2) = None ->
     exists w3,
       refreshData env this generateDashboardData getFallbackData w = (Ok fresh, w3) /\
       storage w3
       = <[cacheKey this := SCache fresh (date_now env (clock_reads w2))]> (storage w2)) /\
  (forall error data storedAt,
     storage_fault env (storage_ops w) = Some error ->
     storage_fault env (S (storage_ops w)) = None ->
     storage w !! cacheKey this = Some (SCache data storedAt) ->
     js_truthy data = true ->
     date_now env (clock_reads w) - storedAt < cacheExpiry this ->
     refreshData env this generateDashboardData getFallbackData w
     = (Ok data,
        tick_clock
          (with_storage (fun s => s)
             (with_console (mkLine LError "Cache clear error:" None (Some error))
                (with_storage (fun s => s) w))))).
Proof.
  split.
  - intros fresh w2 Hs Hs1 Hgen Hs2.
    unfold refreshData, clearCache, AsyncStorage_removeItem, storage_call.
    unfold try_catch at 1. unfold bind at 1. rewrite Hs.
    unfold getDashboardData, getCachedData, AsyncStorage_getItem, storage_call.
    unfold try_catch at 1 2. unfold bind at 1 2. world_simpl.
    rewrite Hs1, lookup_delete_eq. cbn [present].
    unfold ret at 1. unfold bind at 1. rewrite Hgen.
    unfold cacheData, AsyncStorage_setItem, storage_call, Date_now. run. world_simpl.
    rewrite Hs2. eexists. split; reflexivity.
  - intros error data storedAt Hs Hs1 Hcached Htruthy Hsoon.
    unfold refreshData, clearCache, AsyncStorage_removeItem, storage_call.
    unfold try_catch at 1. unfold bind at 1. rewrite Hs.
    unfold getDashboardData, getCachedData, AsyncStorage_getItem, storage_call, Date_now.
    run. world_simpl. rewrite Hs1, Hcached. cbn [present JSON_parse]. run. world_simpl.
    apply Z.ltb_lt in Hsoon. rewrite Hsoon, Htruthy. reflexivity.
Qed.

Lemma refresh_regenerates_if_cleared_witness :
  (exists w3,
     refreshData quiet_env dashboardService (sample_generator (JObj [])) failing_generator
       (world_with_cache sample_dashboard 900) = (Ok (JObj []), w3) /\
     storage w3 !! "dashboard_data" = Some (SCache (JObj []) 1000)) /\
  fst (refreshData (fault_at 0) dashboardService (sample_generator (JObj [])) failing_generator
         (world_with_cache sample_dashboard 900)) = Ok sample_dashboard.
Proof.
  split.
  - destruct (proj1 (refresh_regenerates_if_cleared quiet_env dashboardService
                       (sample_generator (JObj [])) failing_generator
                       (world_with_cache sample_dashboard 900))
                (JObj []) _ eq_refl eq_refl eq_refl eq_refl) as (w3 & Hrun & Hst).
    exists w3. split; [exact Hrun|]. rewrite Hst. apply lookup_insert_eq.
  - rewrite (proj2 (refresh_regenerates_if_cleared (fault_at 0) dashboardService
                      (sample_generator (JObj [])) failing_generator
                      (world_with_cache sample_dashboard 900))
               (mkExn StorageError "read failed") sample_dashboard 900
               eq_refl eq_refl eq_refl eq_refl).
    + reflexivity.
    + vm_compute. reflexivity.
Defined.

(** X30: the reported health is consistent.  The score lies between 0
    and 100 and the status is the band of that score (Excellent from 90,
    Good from 75, Fair from 60, Poor below), although the status is taken
    before the score is clamped.  There is always a recommendation, and
    the system is said to operate within normal parameters exactly when
    the score is at least 75, the pass rate is not below 85 and no High
    alert is active. *)
Theorem health_status_matches_score (passRate : Q) (alerts : list Alert) :
  let health := calculateSystemHealth passRate alerts in
  0 <= health_score health <= 100 /\
  health_status health
  = (if 90 <=? health_score health then "Excellent"
     else if 75 <=? health_score health then "Good"
     else if 60 <=? health_score health then "Fair"
     else "Poor") /\
  health_recommendations health <> [] /\
  (health_recommendations health = ["System operating within normal parameters"] <->
   75 <= health_score health /\ below passRate 85 = false /\ active_alerts "High" alerts = 0).
Proof.
  cbn zeta. unfold calculateSystemHealth, getHealthRecommendations.
  cbn [health_score health_status health_recommendations].
  assert (Hhigh : 0 <= active_alerts "High" alerts) by (unfold active_alerts; lia).
  assert (Hmedium : 0 <= active_alerts "Medium" alerts) by (unfold active_alerts; lia).
  set (high := active_alerts "High" alerts) in *.
  set (medium := active_alerts "Medium" alerts) in *.
  set (score := (if below passRate 85 then 100 - 15
                 else if below passRate 90 then 100 - 5 else 100) - (high * 10 + medium * 5)).
  assert (Hscore : score <= 100)
    by (subst score; destruct (below passRate 85), (below passRate 90); lia).
  split; [lia|]. split.
  { destruct (Z.leb_spec 90 score), (Z.leb_spec 75 score), (Z.leb_spec 60 score);
      destruct (Z.leb_spec 90 (Z.max 0 (Z.min 100 score)));
      destruct (Z.leb_spec 75 (Z.max 0 (Z.min 100 score)));
      destruct (Z.leb_spec 60 (Z.max 0 (Z.min 100 score))); try lia; reflexivity. }
  destruct (Z.ltb_spec score 75) as [Hlow|Hok];
    destruct (below passRate 85);
    destruct (Z.ltb_spec 0 high) as [Hsome|Hnone];
    cbn [app length Nat.eqb];
    (split; [discriminate|]);
    (split; [intros Hsame|intros (Hge & Hrate & Hzero)]);
    try discriminate; try lia;
    try (repeat split; lia).
  all: try (cbv [String.append] in Hsame; discriminate).
Qed.

Lemma health_status_matches_score_witness :
  health_recommendations (calculateSystemHealth 95 []) = ["System operating within normal parameters"].
Proof.
  apply (proj2 (proj2 (proj2 (proj2 (health_status_matches_score 95 []))))).
  vm_compute. repeat split; discriminate.
Defined.

(** X7: a cache that cannot be read is a miss, not an error.  When the
    read of the store fails, when nothing is stored under the key, or when
    what is stored there is not a cache entry, the cached data is reported
    absent and the store is left as it was; the dashboard read then runs
    the generator and returns its data. *)
Theorem unreadable_cache_is_a_miss env (this : CacheConfig)
    (generateDashboardData getFallbackData : M jsval) (w : World) :
  (storage_fault env (storage_ops w) <> None \/
   storage w !! cacheKey this = None \/
   exists v, storage w !! cacheKey this = Some v /\ forall data timestamp, v <> SCache data timestamp) ->
  exists w1,
    getCachedData env this w = (Ok None, w1) /\
    storage w1 = storage w /\
    forall fresh w2,
      generateDashboardData w1 = (Ok fresh, w2) ->
      exists w3, getDashboardData env this generateDashboardData getFallbackData w = (Ok fresh, w3).
Proof.
  intros Hunreadable.
  assert (Hmiss : exists w1, getCachedData env this w = (Ok None, w1) /\ storage w1 = storage w).
  { unfold getCachedData, AsyncStorage_getItem, storage_call, Date_now. run.
    destruct (storage_fault env (storage_ops w)) as [error|] eqn:Hs.
    - eexists. split; reflexivity.
    - destruct Hunreadable as [Hfault|[Hnone|(v & Hsome & Hshape)]]; [congruence| |].
      + rewrite Hnone. cbn [present]. eexists. split; reflexivity.
      + rewrite Hsome.
        destruct v as [[|c s]|e|l|l|l|d t]; cbn [present JSON_parse]; run;
          try (eexists; split; reflexivity).
        exfalso. exact (Hshape d t eq_refl). }
  destruct Hmiss as (w1 & Hread & Hst). exists w1. split; [exact Hread|]. split; [exact Hst|].
  intros fresh w2 Hgen.
  unfold getDashboardData. unfold try_catch at 1. unfold bind at 1. rewrite Hread.
  unfold bind at 1. rewrite Hgen.
  destruct (cacheData_returns env this fresh w2) as (w3 & Hcache).
  unfold bind. rewrite Hcache. eexists. reflexivity.
Qed.

Lemma unreadable_cache_is_a_miss_witness :
  exists w1,
    getCachedData (fault_at 0) dashboardService (world_with_cache sample_dashboard 900)
    = (Ok None, w1) /\
    storage w1 = storage (world_with_cache sample_dashboard 900).
Proof.
  destruct (unreadable_cache_is_a_miss (fault_at 0) dashboardService
              (sample_generator sample_dashboard) failing_generator
              (world_with_cache sample_dashboard 900)) as (w1 & Hread & Hst & _).
  - left. vm_compute. discriminate.
  - exists w1. split; assumption.
Defined.
